(** * Hesburger ordering client: the API service, verified against its specification

    A shallow embedding of [HesburgerApiService] (services/api.service.ts):
    the token lifecycle, the authenticated request wrapper, the response
    normaliser, the cart store and the order submission adapter.

    Modelling conventions.
    - A JavaScript [number] is an IEEE 754 binary64 value: Rocq's primitive
      [float].  [Math.round], [Math.floor], [parseFloat] and
      [Number::toString] are defined on it through exact integer arithmetic.
    - [Date.now()] is an integer number of milliseconds, a [Z].
    - A JavaScript string is a Rocq [string]; case mapping and white space
      are those of ASCII.
    - A value of type [any] (a parsed JSON payload) is a [value].
    - A JavaScript exception is the left injection of a sum.
    - The service object is a record [Service]; every method takes the
      service state and returns the new one.  What the environment decides
      (clock, random numbers, HTTP exchanges) is an [Env], read by the
      number of reads made so far.
    - An observable is what a subscription to it does, up to the first
      value or error; a subscription that waits for the transport is
      suspended and resumed, so that callers can interleave.  The
      transport settles every request, with a response or an error.
    - The timers of the service are tasks of their own: one tick of the
      auto-refresh is [autoRefreshTick]; a successful login schedules its
      self-test ([selfTests]), which runs as [selfTestFires].  [console]
      output is left out.
    - The callers of the cart store in the cart component are modelled by
      what they do to the service. *)

From Stdlib Require Import ZArith List String Ascii Bool Lia.
From Stdlib Require Import Uint63 PrimFloat FloatOps SpecFloat.
Import ListNotations.

Set Warnings "-register-all,-inexact-float".

Local Open Scope string_scope.
Local Open Scope Z_scope.

(** ** JavaScript numbers *)

Module Num.

Definition number := float.

(** The integer [n] as a number (exact when [|n| < 2^53]). *)
Definition of_Z (n : Z) : number :=
  match n with
  | Z0 => PrimFloat.zero
  | Zpos _ => PrimFloat.of_uint63 (Uint63.of_Z n)
  | Zneg _ => PrimFloat.opp (PrimFloat.of_uint63 (Uint63.of_Z (Z.opp n)))
  end.

(** [num / den] rounded to the nearest number, ties to even
    ([0 < num], [0 < den]). *)
Definition of_ratio (neg : bool) (num den : positive) : number :=
  SF2Prim (SFdiv prec emax (S754_finite neg num 0) (S754_finite false den 0)).

(** A finite non-zero number as [(negative, m, e)], its value being
    [m * 2^e]. *)
Definition decompose (x : number) : option (bool * positive * Z) :=
  match Prim2SF x with
  | S754_finite s m e => Some (s, m, e)
  | _ => None
  end.

Definition signed (s : bool) (n : Z) : Z := if s then Z.opp n else n.

(** [Math.floor(x)]. *)
Definition floor (x : number) : number :=
  match decompose x with
  | Some (s, m, e) =>
      if 0 <=? e then x
      else of_Z (Z.div (signed s (Zpos m)) (Z.pow 2 (Z.opp e)))
  | None => x
  end.

(** [Math.round(x)]: the integer nearest to [x], a tie going towards
    plus infinity; a result zero keeps the sign of [x]. *)
Definition round (x : number) : number :=
  match decompose x with
  | Some (s, m, e) =>
      if 0 <=? e then x
      else
        let n := Z.div (2 * signed s (Zpos m) + Z.pow 2 (Z.opp e))
                       (Z.pow 2 (Z.opp e + 1)) in
        if (n =? 0) && s then PrimFloat.neg_zero else of_Z n
  | None => x
  end.

Definition gtb (x y : number) : bool := PrimFloat.ltb y x.

(** [Math.max(x, y)] and [Math.min(x, y)]. *)
Definition max (x y : number) : number :=
  if PrimFloat.is_nan x || PrimFloat.is_nan y then PrimFloat.nan
  else if PrimFloat.ltb x y then y else x.
Definition min (x y : number) : number :=
  if PrimFloat.is_nan x || PrimFloat.is_nan y then PrimFloat.nan
  else if PrimFloat.ltb y x then y else x.

(** [Math.round(x * 100) / 100], the two-decimal rounding the service
    applies to every price. *)
Definition round2 (x : number) : number :=
  PrimFloat.div (round (PrimFloat.mul x 100%float)) 100%float.

End Num.

(** ** JavaScript strings *)

Module Str.

Fixpoint of_list (l : list ascii) : string :=
  match l with
  | [] => EmptyString
  | c :: l' => String c (of_list l')
  end.

Fixpoint to_list (s : string) : list ascii :=
  match s with
  | EmptyString => []
  | String c s' => c :: to_list s'
  end.

(** [s.startsWith(p)]. *)
Definition startsWith (s p : string) : bool := String.prefix p s.

(** [s.includes(sub)]. *)
Fixpoint includes (s sub : string) : bool :=
  if String.prefix sub s then true
  else match s with
       | EmptyString => false
       | String _ s' => includes s' sub
       end.

Definition code (c : ascii) : N := N_of_ascii c.

Definition is_upper (c : ascii) : bool := ((65 <=? code c) && (code c <=? 90))%N.
Definition is_lower (c : ascii) : bool := ((97 <=? code c) && (code c <=? 122))%N.
Definition is_digit (c : ascii) : bool := ((48 <=? code c) && (code c <=? 57))%N.

(** The white space of [\s] and of [trim]: tab, line feed, vertical tab,
    form feed, carriage return, space. *)
Definition is_space (c : ascii) : bool :=
  ((9 <=? code c) && (code c <=? 13) || (code c =? 32))%N.

(** A word character of [\w]. *)
Definition is_word (c : ascii) : bool :=
  is_upper c || is_lower c || is_digit c || (code c =? 95)%N.

Definition lower_char (c : ascii) : ascii :=
  if is_upper c then ascii_of_N (code c + 32) else c.

(** [s.toLowerCase()]. *)
Fixpoint toLowerCase (s : string) : string :=
  match s with
  | EmptyString => EmptyString
  | String c s' => String (lower_char c) (toLowerCase s')
  end.

Fixpoint trimStart (s : string) : string :=
  match s with
  | String c s' => if is_space c then trimStart s' else s
  | EmptyString => EmptyString
  end.

Definition rev (s : string) : string := of_list (List.rev (to_list s)).

Definition trimEnd (s : string) : string := rev (trimStart (rev s)).

(** [s.trim()]. *)
Definition trim (s : string) : string := trimEnd (trimStart s).

(** [s.replace(/[^\w\s\-.,!?]/g, '')]: keeps word characters, white
    space and the punctuation [- . , ! ?]. *)
Definition keeps (c : ascii) : bool :=
  is_word c || is_space c ||
  (code c =? 45)%N || (code c =? 46)%N || (code c =? 44)%N ||
  (code c =? 33)%N || (code c =? 63)%N.

Definition stripSpecial (s : string) : string :=
  of_list (List.filter keeps (to_list s)).

(** [s.replace(/^Bearer\s+/i, '')]. *)
Definition stripBearer (s : string) : string :=
  if String.prefix "bearer" (toLowerCase s) then
    let rest := String.substring 6 (String.length s - 6) s in
    match rest with
    | String c _ => if is_space c then trimStart rest else s
    | EmptyString => s
    end
  else s.

(** [s.slice(-n)]: the last [n] characters, the whole string when it is
    shorter. *)
Definition sliceLast (n : nat) (s : string) : string :=
  String.substring (String.length s - n) n s.

Fixpoint repeat (c : ascii) (n : nat) : string :=
  match n with
  | O => EmptyString
  | S n' => String c (repeat c n')
  end.

(** [s.padStart(n, c)] for a one-character filler. *)
Definition padStart (n : nat) (c : ascii) (s : string) : string :=
  repeat c (n - String.length s) ++ s.

Definition digit (d : Z) : ascii := ascii_of_N (48 + Z.to_N d).

(** The decimal digits of [n], least significant first. *)
Fixpoint digits_rev (fuel : nat) (n : Z) : list ascii :=
  match fuel with
  | O => []
  | S fuel' =>
      digit (n mod 10) ::
      (if n <? 10 then [] else digits_rev fuel' (n / 10))
  end.

(** The decimal numeral of [n] ([0 <= n]). *)
Definition of_nonneg (n : Z) : string :=
  of_list (List.rev (digits_rev (S (Z.to_nat (Z.log2 n))) n)).

(** The decimal numeral of an integer: [n.toString()] for an integer
    [n] with [|n| < 10^21]. *)
Definition of_Z (n : Z) : string :=
  if n <? 0 then "-" ++ of_nonneg (Z.opp n) else of_nonneg n.

End Str.

(** ** Numbers and strings: [Number::toString] and [parseFloat] *)

Module NumStr.

Import Num.

(** [m * 10^e] as a number, rounded to nearest ([0 <= m]). *)
Definition of_decimal (neg : bool) (m e : Z) : number :=
  match m with
  | Zpos p =>
      if 0 <=? e
      then of_ratio neg (p * Z.to_pos (10 ^ e)) 1
      else of_ratio neg p (Z.to_pos (10 ^ (- e)))
  | _ => if neg then PrimFloat.neg_zero else PrimFloat.zero
  end.

(** The least [j] from [j0] on with [den <= num * 10^j]. *)
Fixpoint scale_up (fuel : nat) (num den j : Z) : Z :=
  match fuel with
  | O => j
  | S fuel' =>
      if den <=? num * 10 ^ j then j else scale_up fuel' num den (j + 1)
  end.

(** The decimal exponent [n] of [num / den]:
    [10^(n-1) <= num / den < 10^n]. *)
Definition decimal_exponent (num den : Z) : Z :=
  if den <=? num
  then Z.of_nat (String.length (Str.of_nonneg (num / den)))
  else 1 - scale_up 400 num den 1.

(** The shortest decimal [s * 10^(n-k)], [s] of [k] digits, that reads
    back as [x]; of two of the same length the one nearer to [x]. *)
Fixpoint shortest (fuel : nat) (x : number) (num den n k : Z) : Z * Z * Z :=
  let ynum := if n <=? k then num * 10 ^ (k - n) else num in
  let yden := if n <=? k then den else den * 10 ^ (n - k) in
  let lo := ynum / yden in
  let hi := lo + 1 in
  let back s := PrimFloat.eqb (of_decimal false s (n - k)) x in
  let norm s := if s =? 10 ^ k then (1, 1, n + 1) else (s, k, n) in
  match fuel with
  | O => (lo, k, n)
  | S fuel' =>
      match back lo, back hi with
      | true, true =>
          match 2 * ynum ?= (2 * lo + 1) * yden with
          | Lt => norm lo
          | Gt => norm hi
          | Eq => if Z.even lo then norm lo else norm hi
          end
      | true, false => norm lo
      | false, true => norm hi
      | false, false => shortest fuel' x num den n (k + 1)
      end
  end.

Definition zeros (n : Z) : string := Str.repeat "0" (Z.to_nat n).

(** The numeral of a positive finite number from its digits [s]
    ([k] of them) and its decimal exponent [n]. *)
Definition layout (s k n : Z) : string :=
  let ds := Str.of_nonneg s in
  let head := String.substring 0 1 ds in
  let tail := String.substring 1 (Z.to_nat k - 1) ds in
  let e := n - 1 in
  let exponent := "e" ++ (if e <? 0 then "-" else "+") ++ Str.of_nonneg (Z.abs e) in
  if (k <=? n) && (n <=? 21) then ds ++ zeros (n - k)
  else if (0 <? n) && (n <=? 21)
  then String.substring 0 (Z.to_nat n) ds ++ "." ++
       String.substring (Z.to_nat n) (Z.to_nat (k - n)) ds
  else if (-6 <? n) && (n <=? 0) then "0." ++ zeros (- n) ++ ds
  else if k =? 1 then ds ++ exponent
  else head ++ "." ++ tail ++ exponent.

(** [String(x)] for a number [x]. *)
Definition toString (x : number) : string :=
  match Prim2SF x with
  | S754_nan => "NaN"
  | S754_zero _ => "0"
  | S754_infinity s => if s then "-Infinity" else "Infinity"
  | S754_finite s m e =>
      let num := if 0 <=? e then Zpos m * 2 ^ e else Zpos m in
      let den := if 0 <=? e then 1 else 2 ^ (- e) in
      let n := decimal_exponent num den in
      let '(d, k, n') := shortest 17 (PrimFloat.abs x) num den n 1 in
      (if s then "-" else "") ++ layout d k n'
  end.

(** The digits at the head of a string: their value, their number, and
    what follows them. *)
Fixpoint span_digits (s : string) (acc : Z) (cnt : Z) : Z * Z * string :=
  match s with
  | String c s' =>
      if Str.is_digit c
      then span_digits s' (10 * acc + (Z.of_N (Str.code c) - 48)) (cnt + 1)
      else (acc, cnt, s)
  | EmptyString => (acc, cnt, s)
  end.

(** The exponent part [e[+-]ddd] at the head of a string and what
    follows it; exponent [0] and the string itself when there is none. *)
Definition exponent_part (s : string) : Z * string :=
  match s with
  | String c s' =>
      if (Str.code (Str.lower_char c) =? 101)%N then
        let '(neg, s'') :=
          match s' with
          | String "-" t => (true, t)
          | String "+" t => (false, t)
          | _ => (false, s')
          end in
        let '(v, cnt, rest) := span_digits s'' 0 0 in
        if cnt =? 0 then (0, s) else (signed neg v, rest)
      else (0, s)
  | EmptyString => (0, s)
  end.

(** The longest decimal literal at the head of [t] (sign, [Infinity] or
    digits with an optional fraction and exponent): its value and what
    follows it. *)
Definition parse_decimal (t : string) : option (number * string) :=
  let '(neg, t) :=
    match t with
    | String "-" t' => (true, t')
    | String "+" t' => (false, t')
    | _ => (false, t)
    end in
  if String.prefix "Infinity" t
  then Some (if neg then PrimFloat.neg_infinity else PrimFloat.infinity,
             String.substring 8 (String.length t - 8) t)
  else
    let '(ip, icnt, t1) := span_digits t 0 0 in
    let '(m, fcnt, t2) :=
      match t1 with
      | String "." t1' => span_digits t1' ip 0
      | _ => (ip, 0, t1)
      end in
    if (icnt =? 0) && (fcnt =? 0) then None
    else
      let '(e, t3) := exponent_part t2 in
      Some (of_decimal neg m (e - fcnt), t3).

(** [parseFloat(s)]: the decimal literal at the head of the string, white
    space skipped; [NaN] when there is none. *)
Definition parseFloat (s : string) : number :=
  match parse_decimal (Str.trimStart s) with
  | Some (x, _) => x
  | None => PrimFloat.nan
  end.

(** The value of the digits of [s] in base [b], [None] when [s] is empty
    or has another character. *)
Fixpoint radix_digits (b : Z) (s : string) (acc : Z) (seen : bool) : option Z :=
  match s with
  | EmptyString => if seen then Some acc else None
  | String c s' =>
      let c' := Str.lower_char c in
      let d := if Str.is_digit c' then Z.of_N (Str.code c') - 48
               else if Str.is_lower c' then Z.of_N (Str.code c') - 87
               else b in
      if d <? b then radix_digits b s' (b * acc + d) true else None
  end.

(** [Number(s)] for a string: white space trimmed, the empty string is
    [0], then a hexadecimal, octal or binary integer or a decimal literal
    that takes the whole string; [NaN] otherwise. *)
Definition ofString (s : string) : number :=
  let t := Str.trim s in
  let radix b :=
    match radix_digits b (String.substring 2 (String.length t - 2) t) 0 false with
    | Some n => of_decimal false n 0
    | None => PrimFloat.nan
    end in
  match t with
  | EmptyString => PrimFloat.zero
  | String "0" (String c _) =>
      let c' := Str.lower_char c in
      if (Str.code c' =? 120)%N then radix 16
      else if (Str.code c' =? 111)%N then radix 8
      else if (Str.code c' =? 98)%N then radix 2
      else match parse_decimal t with
           | Some (x, EmptyString) => x
           | _ => PrimFloat.nan
           end
  | _ =>
      match parse_decimal t with
      | Some (x, EmptyString) => x
      | _ => PrimFloat.nan
      end
  end.

End NumStr.

(** ** JavaScript values and exceptions *)

(** What a [throw] or an errored observable carries: an
    [HttpErrorResponse] with its [status], or an [Error] (also
    [TypeError], [TimeoutError]) with its [name] and [message]. *)
Inductive jsError : Type :=
| HttpErrorResponse (status : Z) (message : string)
| JsError (name : string) (message : string).

(** [error.status]; [None] is [undefined]. *)
Definition error_status (e : jsError) : option Z :=
  match e with
  | HttpErrorResponse s _ => Some s
  | JsError _ _ => None
  end.

Definition error_message (e : jsError) : string :=
  match e with
  | HttpErrorResponse _ m => m
  | JsError _ m => m
  end.

(** A computation that returns an [A] or throws. *)
Definition result (A : Type) : Type := (jsError + A)%type.

Definition ret {A} (a : A) : result A := inr a.
Definition throw {A} (e : jsError) : result A := inl e.
Definition bind {A B} (r : result A) (k : A -> result B) : result B :=
  match r with
  | inl e => inl e
  | inr a => k a
  end.

Declare Scope js_scope.
Delimit Scope js_scope with js.
Notation "x <- r ;; k" := (bind r (fun x => k))
  (at level 61, r at next level, right associativity) : js_scope.
Notation "' p <- r ;; k" := (bind r (fun x => let p := x in k))
  (at level 61, p pattern, r at next level, right associativity) : js_scope.

(** [xs.map(f)] where [f] may throw. *)
Fixpoint mapM {A B} (f : A -> result B) (xs : list A) : result (list B) :=
  match xs with
  | [] => ret []
  | x :: xs' =>
      bind (f x) (fun y => bind (mapM f xs') (fun ys => ret (y :: ys)))
  end.

Module Js.

Import Num.

(** A value of type [any]: what [JSON.parse] produces, and [undefined]. *)
Inductive value : Type :=
| VUndefined
| VNull
| VBool (b : bool)
| VNum (x : number)
| VStr (s : string)
| VArr (items : list value)
| VObj (fields : list (string * value)).

Arguments VNum x%_float.

Definition nullish (v : value) : bool :=
  match v with
  | VUndefined | VNull => true
  | _ => false
  end.

(** Truthiness: [undefined], [null], [false], [0], [NaN] and [''] are
    falsy. *)
Definition truthy (v : value) : bool :=
  match v with
  | VUndefined | VNull => false
  | VBool b => b
  | VNum x => negb (PrimFloat.is_zero x || PrimFloat.is_nan x)
  | VStr s => negb (String.eqb s "")
  | VArr _ | VObj _ => true
  end.

(** [a || b]. *)
Definition or (a b : value) : value := if truthy a then a else b.

Fixpoint lookup (k : string) (fields : list (string * value)) : value :=
  match fields with
  | [] => VUndefined
  | (k', v) :: rest => if String.eqb k k' then v else lookup k rest
  end.

(** [v.k] for a [v] that is neither [null] nor [undefined], and [v?.k]
    for every [v]: a primitive or an array has none of the properties
    the service reads by name. *)
Definition prop (v : value) (k : string) : value :=
  match v with
  | VObj fields => lookup k fields
  | _ => VUndefined
  end.

(** [v.k]: a [TypeError] on [null] and [undefined]. *)
Definition get (v : value) (k : string) : result value :=
  if nullish v
  then throw (JsError "TypeError" ("Cannot read properties of null (reading '" ++ k ++ "')"))
  else ret (prop v k).

Definition isArray (v : value) : bool :=
  match v with
  | VArr _ => true
  | _ => false
  end.

(** Whether an object has an own property [k]. *)
Definition hasOwn (k : string) (fields : list (string * value)) : bool :=
  existsb (fun field => String.eqb k (fst field)) fields.

(** [String(v)], also what a template literal makes of [v], and
    [v.toString()] for a [v] that is neither [null] nor [undefined].  An
    object is converted by its [toString]: the inherited one gives
    [[object Object]]; an own property [toString] of a parsed payload is no
    function, and the conversion throws a [TypeError].  An array joins the
    conversions of its elements. *)
Fixpoint toString (v : value) : result string :=
  match v with
  | VUndefined => ret "undefined"
  | VNull => ret "null"
  | VBool b => ret (if b then "true" else "false")
  | VNum x => ret (NumStr.toString x)
  | VStr s => ret s
  | VArr items =>
      (fix join (l : list value) : result string :=
         match l with
         | [] => ret ""
         | [x] => if nullish x then ret "" else toString x
         | x :: rest =>
             match (if nullish x then ret "" else toString x) with
             | inl e => inl e
             | inr first =>
                 match join rest with
                 | inl e => inl e
                 | inr others => ret (first ++ "," ++ others)
                 end
             end
         end) items
  | VObj fields =>
      if hasOwn "toString" fields
      then throw (JsError "TypeError" "Cannot convert object to primitive value")
      else ret "[object Object]"
  end.

(** [a === b].  Object identity is not represented: two arrays or two
    objects are taken to be distinct references. *)
Definition strict_eq (a b : value) : bool :=
  match a, b with
  | VUndefined, VUndefined => true
  | VNull, VNull => true
  | VBool x, VBool y => Bool.eqb x y
  | VNum x, VNum y => PrimFloat.eqb x y
  | VStr x, VStr y => String.eqb x y
  | _, _ => false
  end.

(** [Number(v)], the conversion a comparison with a number applies.  An
    array or an object is first converted as by [toString], and throws
    where that throws. *)
Definition toNumber (v : value) : result number :=
  match v with
  | VUndefined => ret PrimFloat.nan
  | VNull => ret PrimFloat.zero
  | VBool b => ret (if b then PrimFloat.one else PrimFloat.zero)
  | VNum x => ret x
  | VStr s => ret (NumStr.ofString s)
  | VArr _ | VObj _ => bind (toString v) (fun text => ret (NumStr.ofString text))
  end.

(** [x > 0] for a number [x]. *)
Definition positive (x : number) : bool := gtb x PrimFloat.zero.

(** [typeof v === 'number' && v > 0], with the number. *)
Definition positive_number (v : value) : option number :=
  match v with
  | VNum x => if positive x then Some x else None
  | _ => None
  end.

End Js.

Import Js.

(** ** Data model (the interfaces of api.service.ts) *)

(** [LocationPrice], as [extractLocationPrices] builds it. *)
Record LocationPrice : Type := {
  lp_locationUid : value;
  lp_locationName : value;
  lp_price : Num.number;
  lp_unitPrice : value;
  lp_currency : string;
  lp_isActive : bool
}.

(** [Product], as [transformProduct] builds it.  The fields copied from
    the payload keep whatever the payload carries. *)
Record Product : Type := {
  id : value;
  uid : value;
  name : value;
  description : string;
  price : Num.number;
  category : string;
  categoryId : value;
  categoryUid : value;
  image : string;
  imageUid : value;
  imageUrl : value;
  isPopular : bool;
  allergens : list string;
  estimatedTime : Num.number;
  isAvailable : bool;
  alias : value;
  locationPrices : list LocationPrice;
  unitPriceWithVat : value;
  rawApiData : value
}.

(** [CartItem extends Product]. *)
Record CartItem : Type := {
  asProduct : Product;
  quantity : Num.number;
  addedAt : option Z;
  specialInstructions : option string;
  toppings : option (list value)
}.

Record CustomerInfo : Type := {
  firstName : string;
  lastName : string;
  email : string;
  phone : string;
  specialRequests : option string
}.

Record Totals : Type := {
  subtotal : Num.number;
  serviceFee : Num.number;
  tax : Num.number;
  total : Num.number
}.

Record Order : Type := {
  tableId : string;
  customerInfo : CustomerInfo;
  items : list CartItem;
  paymentMethod : string;
  totals : Totals;
  order_estimatedTime : option Num.number
}.

(** A date string: one the payload gave, or [new Date().toISOString()]
    at an instant. *)
Inductive DateString : Type :=
| Given (v : value)
| IsoOf (instant : Z).

(** The [data] of an [OrderResponse]. *)
Record OrderData : Type := {
  od_id : value;
  orderNumber : value;
  status : string;
  od_estimatedTime : Num.number;
  totalAmount : value;
  createdAt : DateString;
  queuePosition : value
}.

Record OrderResponse : Type := {
  isSuccess : bool;
  data : option OrderData;
  message : value;
  timestamp : DateString;
  isOffline : option bool
}.

(** ** The environment and the service state *)

(** One HTTP exchange as the transport settles it: a response body or an
    [HttpErrorResponse]; [late] says it settled after more than ten
    seconds, which the [timeout(10000)] of [login] turns into a
    [TimeoutError]. *)
Record Exchange : Type := {
  late : bool;
  outcome : (Z * string) + value
}.

(** The requests the service issues. *)
Inductive Endpoint : Type :=
| Login
| ProductCategoryFindMany
| ProductFindMany
| FindSellingProducts (productcategoryUid : option string)
| ClientOrderInsert
| GetImage (imageUid : string).

(** An issued request: the endpoint, whether an [Authorization] header
    went with it, and the body of a [post]. *)
Record HttpCall : Type := {
  endpoint : Endpoint;
  authorized : bool;
  body : option value
}.

(** What the cart does that others see. *)
Inductive CartEvent : Type :=
| Published (cart : list CartItem)
| Saved (cart : list CartItem)
| Erased.

(** What the environment decides: the answers of [Date.now()], of
    [Math.random()] and of the HTTP transport, in the order they are asked
    for. *)
Class Env : Type := {
  clock : nat -> Z;
  random : nat -> Num.number;
  network : nat -> Exchange
}.

(** The service object together with what it writes around it: the local
    storage, what the cart subject emitted, the requests issued, how many
    times the clock and the random generator were read, and how many
    self-tests [setTimeout] holds for it. *)
Record Service : Type := {
  authToken : option string;
  tokenExpiryTime : Z;
  isRefreshingToken : bool;
  refreshTokenSubject : bool;
  cartSubject : list CartItem;
  storedToken : option (string * string);
  storedCart : option (list CartItem);
  cartEvents : list CartEvent;
  httpCalls : list HttpCall;
  clockReads : nat;
  randomReads : nat;
  selfTests : nat
}.

(** Field updates. *)
Definition set_authToken (x : option string) (s : Service) : Service :=
  {| authToken := x; tokenExpiryTime := tokenExpiryTime s;
     isRefreshingToken := isRefreshingToken s; refreshTokenSubject := refreshTokenSubject s;
     cartSubject := cartSubject s; storedToken := storedToken s;
     storedCart := storedCart s; cartEvents := cartEvents s;
     httpCalls := httpCalls s; clockReads := clockReads s;
     randomReads := randomReads s;
     selfTests := selfTests s |}.
Definition set_tokenExpiryTime (x : Z) (s : Service) : Service :=
  {| authToken := authToken s; tokenExpiryTime := x;
     isRefreshingToken := isRefreshingToken s; refreshTokenSubject := refreshTokenSubject s;
     cartSubject := cartSubject s; storedToken := storedToken s;
     storedCart := storedCart s; cartEvents := cartEvents s;
     httpCalls := httpCalls s; clockReads := clockReads s;
     randomReads := randomReads s;
     selfTests := selfTests s |}.
Definition set_isRefreshingToken (x : bool) (s : Service) : Service :=
  {| authToken := authToken s; tokenExpiryTime := tokenExpiryTime s;
     isRefreshingToken := x; refreshTokenSubject := refreshTokenSubject s;
     cartSubject := cartSubject s; storedToken := storedToken s;
     storedCart := storedCart s; cartEvents := cartEvents s;
     httpCalls := httpCalls s; clockReads := clockReads s;
     randomReads := randomReads s;
     selfTests := selfTests s |}.
Definition set_refreshTokenSubject (x : bool) (s : Service) : Service :=
  {| authToken := authToken s; tokenExpiryTime := tokenExpiryTime s;
     isRefreshingToken := isRefreshingToken s; refreshTokenSubject := x;
     cartSubject := cartSubject s; storedToken := storedToken s;
     storedCart := storedCart s; cartEvents := cartEvents s;
     httpCalls := httpCalls s; clockReads := clockReads s;
     randomReads := randomReads s;
     selfTests := selfTests s |}.
Definition set_cartSubject (x : list CartItem) (s : Service) : Service :=
  {| authToken := authToken s; tokenExpiryTime := tokenExpiryTime s;
     isRefreshingToken := isRefreshingToken s; refreshTokenSubject := refreshTokenSubject s;
     cartSubject := x; storedToken := storedToken s;
     storedCart := storedCart s; cartEvents := cartEvents s;
     httpCalls := httpCalls s; clockReads := clockReads s;
     randomReads := randomReads s;
     selfTests := selfTests s |}.
Definition set_storedToken (x : option (string * string)) (s : Service) : Service :=
  {| authToken := authToken s; tokenExpiryTime := tokenExpiryTime s;
     isRefreshingToken := isRefreshingToken s; refreshTokenSubject := refreshTokenSubject s;
     cartSubject := cartSubject s; storedToken := x;
     storedCart := storedCart s; cartEvents := cartEvents s;
     httpCalls := httpCalls s; clockReads := clockReads s;
     randomReads := randomReads s;
     selfTests := selfTests s |}.
Definition set_storedCart (x : option (list CartItem)) (s : Service) : Service :=
  {| authToken := authToken s; tokenExpiryTime := tokenExpiryTime s;
     isRefreshingToken := isRefreshingToken s; refreshTokenSubject := refreshTokenSubject s;
     cartSubject := cartSubject s; storedToken := storedToken s;
     storedCart := x; cartEvents := cartEvents s;
     httpCalls := httpCalls s; clockReads := clockReads s;
     randomReads := randomReads s;
     selfTests := selfTests s |}.
Definition set_cartEvents (x : list CartEvent) (s : Service) : Service :=
  {| authToken := authToken s; tokenExpiryTime := tokenExpiryTime s;
     isRefreshingToken := isRefreshingToken s; refreshTokenSubject := refreshTokenSubject s;
     cartSubject := cartSubject s; storedToken := storedToken s;
     storedCart := storedCart s; cartEvents := x;
     httpCalls := httpCalls s; clockReads := clockReads s;
     randomReads := randomReads s;
     selfTests := selfTests s |}.
Definition set_httpCalls (x : list HttpCall) (s : Service) : Service :=
  {| authToken := authToken s; tokenExpiryTime := tokenExpiryTime s;
     isRefreshingToken := isRefreshingToken s; refreshTokenSubject := refreshTokenSubject s;
     cartSubject := cartSubject s; storedToken := storedToken s;
     storedCart := storedCart s; cartEvents := cartEvents s;
     httpCalls := x; clockReads := clockReads s;
     randomReads := randomReads s;
     selfTests := selfTests s |}.
Definition set_clockReads (x : nat) (s : Service) : Service :=
  {| authToken := authToken s; tokenExpiryTime := tokenExpiryTime s;
     isRefreshingToken := isRefreshingToken s; refreshTokenSubject := refreshTokenSubject s;
     cartSubject := cartSubject s; storedToken := storedToken s;
     storedCart := storedCart s; cartEvents := cartEvents s;
     httpCalls := httpCalls s; clockReads := x;
     randomReads := randomReads s;
     selfTests := selfTests s |}.
Definition set_randomReads (x : nat) (s : Service) : Service :=
  {| authToken := authToken s; tokenExpiryTime := tokenExpiryTime s;
     isRefreshingToken := isRefreshingToken s; refreshTokenSubject := refreshTokenSubject s;
     cartSubject := cartSubject s; storedToken := storedToken s;
     storedCart := storedCart s; cartEvents := cartEvents s;
     httpCalls := httpCalls s; clockReads := clockReads s;
     randomReads := x;
     selfTests := selfTests s |}.

Definition set_selfTests (x : nat) (s : Service) : Service :=
  {| authToken := authToken s; tokenExpiryTime := tokenExpiryTime s;
     isRefreshingToken := isRefreshingToken s; refreshTokenSubject := refreshTokenSubject s;
     cartSubject := cartSubject s; storedToken := storedToken s;
     storedCart := storedCart s; cartEvents := cartEvents s;
     httpCalls := httpCalls s; clockReads := clockReads s;
     randomReads := randomReads s; selfTests := x |}.

(** ** Service computations *)

(** A method body: it reads and updates the service, and returns or
    throws.  What it did before a [throw] stays done. *)
Definition M (A : Type) : Type := Service -> result A * Service.

Definition mret {A} (a : A) : M A := fun s => (ret a, s).
Definition mthrow {A} (e : jsError) : M A := fun s => (throw e, s).
Definition mbind {A B} (m : M A) (k : A -> M B) : M B :=
  fun s =>
    match m s with
    | (inl e, s') => (inl e, s')
    | (inr a, s') => k a s'
    end.
Definition lift {A} (r : result A) : M A := fun s => (r, s).
Definition modify (f : Service -> Service) : M unit := fun s => (ret tt, f s).
Definition read {A} (f : Service -> A) : M A := fun s => (ret (f s), s).

Declare Scope m_scope.
Delimit Scope m_scope with m.
Notation "x <- m ;; k" := (mbind m (fun x => k))
  (at level 61, m at next level, right associativity) : m_scope.
Notation "' p <- m ;; k" := (mbind m (fun x => let p := x in k))
  (at level 61, p pattern, m at next level, right associativity) : m_scope.
Notation "m ;;; k" := (mbind m (fun _ => k))
  (at level 61, right associativity) : m_scope.

(** [xs.map(f)] for an [f] with effects. *)
Fixpoint mmap {A B} (f : A -> M B) (xs : list A) : M (list B) :=
  match xs with
  | [] => mret []
  | x :: xs' =>
      mbind (f x) (fun y => mbind (mmap f xs') (fun ys => mret (y :: ys)))
  end.

Section WithEnvironment.

Context {env : Env}.

(** [Date.now()]. *)
Definition dateNow : M Z :=
  fun s => (ret (clock (clockReads s)), set_clockReads (S (clockReads s)) s).

(** [Math.random()]. *)
Definition mathRandom : M Num.number :=
  fun s => (ret (random (randomReads s)), set_randomReads (S (randomReads s)) s).

Definition BaseURL : string := "https://api-staging-hesburger.freya.cloud".

(** ** Response normaliser *)

Definition typeError {A} (what : string) : result A :=
  throw (JsError "TypeError" what).

(** [String(v || '').toLowerCase()]. *)
Definition lowerText (v : value) : result string :=
  (text <- Js.toString (Js.or v (VStr ""));;
   ret (Str.toLowerCase text))%js.

(** [keywords.some(k => text.includes(k))], the disjunctions of the
    source written as a list. *)
Definition includesAny (text : string) (keywords : list string) : bool :=
  existsb (Str.includes text) keywords.

Definition mapApiCategory (apiProduct : value) : result string :=
  (name <- get apiProduct "name";;
   name <- lowerText name;;
   category <-
     lowerText (Js.or (prop apiProduct "category") (prop apiProduct "categoryName"));;
   alias <- lowerText (prop apiProduct "alias");;
   let searchText := name ++ " " ++ category ++ " " ++ alias in
   ret (if includesAny searchText ["burger"; "big mac"; "whopper"] then "burgers"
        else if includesAny searchText ["chicken"; "wing"; "nugget"] then "chicken"
        else if includesAny searchText ["fries"; "ring"; "onion"; "potato"] then "sides"
        else if includesAny searchText ["cola"; "drink"; "juice"; "coffee"; "tea"] then "drinks"
        else if includesAny searchText ["ice cream"; "dessert"; "cake"; "pie"] then "desserts"
        else "other"))%js.

Definition extractDescription (apiProduct : value) : result string :=
  (d <- get apiProduct "description";;
   let given := Js.or (Js.or d (prop apiProduct "productDescription"))
                      (prop apiProduct "alias") in
   description <-
     (if truthy given then ret given
      else (name <- Js.toString (prop apiProduct "name");;
            ret (VStr ("Delicious " ++ name))));;
   match description with
   | VStr text => ret (Str.trim (Str.stripSpecial text))
   | _ => typeError "description.replace is not a function"
   end)%js.

(** The [basePrices] table of [generateCategoryBasedPrice]. *)
Definition basePrices : list (string * (Num.number * Num.number)) :=
  [("burgers", (15, 35)); ("chicken", (12, 28)); ("sides", (8, 18));
   ("drinks", (5, 12)); ("desserts", (6, 15)); ("other", (10, 25))]%float.

Fixpoint table_lookup {A} (k : string) (t : list (string * A)) : option A :=
  match t with
  | [] => None
  | (k', a) :: t' => if String.eqb k k' then Some a else table_lookup k t'
  end.

(** The multiplier [generateCategoryBasedPrice] derives from the name: the
    last of the three tests that succeeds decides. *)
Definition nameMultiplier (name : string) : Num.number :=
  let m1 := if includesAny name ["large"; "big"; "xl"] then 1.3%float else 1%float in
  let m2 := if includesAny name ["small"; "mini"] then 0.7%float else m1 in
  if includesAny name ["premium"; "deluxe"; "special"] then 1.5%float else m2.

Definition generateCategoryBasedPrice (apiProduct : value) : M Num.number :=
  (category <- lift (mapApiCategory apiProduct);;
   name <- lift (lowerText (prop apiProduct "name"));;
   let '(min, max) :=
     match table_lookup category basePrices with
     | Some range => range
     | None => (10, 25)%float
     end in
   let multiplier := nameMultiplier name in
   r <- mathRandom;;
   let basePrice := (r * (max - min) + min)%float in
   mret (Num.round2 (basePrice * multiplier)%float))%m.

(** The loop over [apiProduct.locationPrices]: the first element with a
    positive numeric [unitPriceWithVat], or else [price], decides. *)
Fixpoint scanLocationPrices (locationPrices : list value) : option Num.number :=
  match locationPrices with
  | [] => None
  | locationPrice :: rest =>
      match (if truthy locationPrice
             then positive_number (prop locationPrice "unitPriceWithVat")
             else None) with
      | Some x => Some x
      | None =>
          match (if truthy locationPrice
                 then positive_number (prop locationPrice "price")
                 else None) with
          | Some x => Some x
          | None => scanLocationPrices rest
          end
      end
  end.

(** One turn of the loop over [priceFields]. *)
Definition priceOfField (v : value) : option Num.number :=
  match v with
  | VNum x => if positive x then Some x else None
  | VStr text =>
      let parsed := NumStr.parseFloat text in
      if negb (PrimFloat.is_nan parsed) && positive parsed then Some parsed else None
  | _ => None
  end.

Definition priceFields : list string :=
  ["price"; "unitPrice"; "cost"; "amount"; "basePrice"].

Fixpoint scanPriceFields (apiProduct : value) (fields : list string) : option Num.number :=
  match fields with
  | [] => None
  | field :: rest =>
      match priceOfField (prop apiProduct field) with
      | Some x => Some x
      | None => scanPriceFields apiProduct rest
      end
  end.

Definition extractPriceEnhanced (apiProduct : value) : M Num.number :=
  (_ <- lift (get apiProduct "name");;
   match (match prop apiProduct "locationPrices" with
          | VArr locationPrices => scanLocationPrices locationPrices
          | _ => None
          end) with
   | Some x => mret (Num.round2 x)
   | None =>
       match positive_number (prop apiProduct "unitPriceWithVat") with
       | Some x => mret (Num.round2 x)
       | None =>
           match scanPriceFields apiProduct priceFields with
           | Some x => mret (Num.round2 x)
           | None => generateCategoryBasedPrice apiProduct
           end
       end
   end)%m.

(** [getImageSource]: the kind of source and its value. *)
Definition getImageSource (apiProduct : value) : result (string * string) :=
  (imageUid <- get apiProduct "imageUid";;
   let fromImageUid :=
     match imageUid with
     | VStr u => if (10 <? String.length u)%nat then Some ("imageUid", u) else None
     | _ => None
     end in
   let fromImage :=
     match prop apiProduct "image" with
     | VStr i =>
         if String.eqb i "" then None
         else if Str.startsWith i "data:image/" then Some ("base64", i)
         else if (20 <? String.length i)%nat && negb (Str.includes i " ")
              then Some ("imageUid", i)
              else None
     | _ => None
     end in
   let fromImageUrl :=
     match prop apiProduct "imageUrl" with
     | VStr u =>
         if String.eqb u "" then None
         else if Str.startsWith u "data:image/" then Some ("base64", u)
         else if Str.startsWith u "http" then Some ("directUrl", u)
         else None
     | _ => None
     end in
   ret match fromImageUid, fromImage, fromImageUrl with
       | Some src, _, _ => src
       | None, Some src, _ => src
       | None, None, Some src => src
       | None, None, None => ("fallback", "")
       end)%js.

(** [v || Math.floor(Math.random() * n)]: the random number is drawn only
    when [v] is falsy. *)
Definition orRandomBelow (v : value) (n : Num.number) : M value :=
  if truthy v then mret v
  else (r <- mathRandom;; mret (VNum (Num.floor (r * n)%float)))%m.

(** The stock photograph of each category. *)
Definition categoryImages : list (string * string) :=
  [("burgers", "photo-1568901346375-23c9450c58cd");
   ("chicken", "photo-1562967914-608f82629710");
   ("sides", "photo-1573080496219-bb080dd4f877");
   ("drinks", "photo-1544145945-f90425340c7e");
   ("desserts", "photo-1551024506-0bccd828d307");
   ("other", "photo-1565299624946-b28f40a0ca4b")].

Definition generateCategoryBasedImageUrl (apiProduct : value) : M string :=
  (category <- lift (mapApiCategory apiProduct);;
   id <- orRandomBelow (prop apiProduct "id") 1000%float;;
   sig <- lift (Js.toString id);;
   let photo :=
     match table_lookup category categoryImages with
     | Some photo => photo
     | None => "photo-1565299624946-b28f40a0ca4b"
     end in
   mret ("https://images.unsplash.com/" ++ photo ++
         "?w=300&h=200&fit=crop&crop=center&q=80&sig=" ++ sig))%m.

Definition generateImageUrlEnhanced (apiProduct : value) : M string :=
  ('(kind, src) <- lift (_ <- get apiProduct "name";; getImageSource apiProduct)%js;;
   if String.eqb kind "imageUid"
   then mret (BaseURL ++ "/file/getImage?imageUid=" ++ src)
   else if String.eqb kind "base64" then mret src
   else if String.eqb kind "directUrl" then mret src
   else generateCategoryBasedImageUrl apiProduct)%m.

Definition determinePopularity (apiProduct : value) : M bool :=
  (n <- lift (get apiProduct "name");;
   name <- lift (lowerText n);;
   let sales :=
     Js.or (Js.or (prop apiProduct "salesCount") (prop apiProduct "popularity"))
           (VNum 0%float) in
   count <- lift (Js.toNumber sales);;
   if Num.gtb count 100%float then mret true
   else if includesAny name ["popular"; "bestseller"; "signature"] then mret true
   else if includesAny name ["big"; "special"; "deluxe"] then mret true
   else if includesAny name ["classic"; "original"; "famous"] then mret true
   else (r <- mathRandom;; mret (Num.gtb r 0.75%float)))%m.

Definition extractAllergens (apiProduct : value) : result (list string) :=
  (n <- get apiProduct "name";;
   name <- lowerText n;;
   description <- lowerText (prop apiProduct "description");;
   let searchText := name ++ " " ++ description in
   let when (keywords : list string) (tag : string) : list string :=
     if includesAny searchText keywords then [tag] else [] in
   ret (when ["cheese"; "milk"; "cream"; "butter"] "Lactose" ++
        when ["bread"; "burger"; "bun"; "flour"] "Gluten" ++
        when ["egg"] "Eggs" ++
        when ["nut"; "almond"; "peanut"] "Nuts" ++
        when ["soy"; "soja"] "Soy")%list)%js.

Definition estimatePreparationTime (apiProduct : value) : result Num.number :=
  (category <- mapApiCategory apiProduct;;
   name <- lowerText (prop apiProduct "name");;
   let baseTime :=
     if String.eqb category "drinks" then 1
     else if String.eqb category "desserts" then 3
     else if String.eqb category "sides" then 5
     else if String.eqb category "chicken" then 12
     else if String.eqb category "burgers" then 8
     else 6 in
   let baseTime :=
     if includesAny name ["simple"; "quick"] then Num.max 1 (baseTime - 3) else baseTime in
   let baseTime :=
     if includesAny name ["special"; "deluxe"; "custom"] then baseTime + 5 else baseTime in
   let baseTime :=
     if includesAny name ["large"; "big"; "xl"] then baseTime + 2 else baseTime in
   ret (Num.min 30 (Num.max 1 baseTime)))%float%js.

Definition checkAvailability (apiProduct : value) : result bool :=
  (isAvailable <- get apiProduct "isAvailable";;
   let nonPositive (v : value) : bool :=
     match v with
     | VNum x => PrimFloat.leb x 0%float
     | _ => false
     end in
   ret (negb
     (strict_eq isAvailable (VBool false) ||
      strict_eq (prop apiProduct "available") (VBool false) ||
      strict_eq (prop apiProduct "status") (VStr "unavailable") ||
      strict_eq (prop apiProduct "status") (VStr "disabled") ||
      strict_eq (prop apiProduct "inStock") (VBool false) ||
      strict_eq (prop apiProduct "isActive") (VBool false) ||
      strict_eq (prop apiProduct "isDisabled") (VBool true) ||
      nonPositive (prop apiProduct "stock") ||
      nonPositive (prop apiProduct "quantity"))))%js.

Definition extractLocationPrice (lp : value) (index : nat) : result LocationPrice :=
  (unitPriceWithVat <- get lp "unitPriceWithVat";;
   let price :=
     match positive_number unitPriceWithVat with
     | Some x => x
     | None =>
         match positive_number (prop lp "price") with
         | Some x => x
         | None =>
             match positive_number (prop lp "unitPrice") with
             | Some x => x
             | None => 0%float
             end
         end
     end in
   ret {| lp_locationUid :=
            Js.or (prop lp "locationUid") (VStr ("loc_" ++ Str.of_Z (Z.of_nat index)));
          lp_locationName :=
            Js.or (prop lp "locationName")
                  (VStr ("Location " ++ Str.of_Z (Z.of_nat index + 1)));
          lp_price := Num.round2 price;
          lp_unitPrice := Js.or (prop lp "unitPrice") unitPriceWithVat;
          lp_currency := "RON";
          lp_isActive := negb (strict_eq (prop lp "isActive") (VBool false)) |})%js.

Fixpoint mapiR {A B} (f : A -> nat -> result B) (i : nat) (xs : list A) : result (list B) :=
  match xs with
  | [] => ret []
  | x :: xs' => bind (f x i) (fun y => bind (mapiR f (S i) xs') (fun ys => ret (y :: ys)))
  end.

Definition extractLocationPrices (apiProduct : value) : result (list LocationPrice) :=
  (locationPrices <- get apiProduct "locationPrices";;
   match locationPrices with
   | VArr lps =>
       all <- mapiR extractLocationPrice 0 lps;;
       ret (filter (fun lp => Js.positive (lp_price lp)) all)
   | _ => ret []
   end)%js.

Definition transformProduct (apiProduct : value) : M Product :=
  (name0 <- lift (get apiProduct "name");;
   id <- (if truthy (prop apiProduct "id") then mret (prop apiProduct "id")
          else orRandomBelow (prop apiProduct "productId") 10000%float);;
   description <- lift (extractDescription apiProduct);;
   price <- extractPriceEnhanced apiProduct;;
   category <- lift (mapApiCategory apiProduct);;
   image <- generateImageUrlEnhanced apiProduct;;
   isPopular <- determinePopularity apiProduct;;
   allergens <- lift (extractAllergens apiProduct);;
   estimatedTime <- lift (estimatePreparationTime apiProduct);;
   isAvailable <- lift (checkAvailability apiProduct);;
   locationPrices <- lift (extractLocationPrices apiProduct);;
   mret {| id := id;
           uid := prop apiProduct "uid";
           name := Js.or (Js.or (Js.or name0 (prop apiProduct "title"))
                                (prop apiProduct "productName"))
                         (VStr "Unknown Product");
           description := description;
           price := price;
           category := category;
           categoryId := prop apiProduct "categoryId";
           categoryUid := Js.or (prop apiProduct "productCategoryUid")
                                (prop apiProduct "categoryUid");
           image := image;
           imageUid := prop apiProduct "imageUid";
           imageUrl := prop apiProduct "imageUrl";
           isPopular := isPopular;
           allergens := allergens;
           estimatedTime := estimatedTime;
           isAvailable := isAvailable;
           alias := prop apiProduct "alias";
           locationPrices := locationPrices;
           unitPriceWithVat := prop apiProduct "unitPriceWithVat";
           rawApiData := apiProduct |})%m.

(** [processProducts]: whatever is not an array gives no product. *)
Definition processProducts (products : value) : M (list Product) :=
  match products with
  | VArr raw =>
      (all <- mmap transformProduct raw;;
       mret (filter isAvailable all))%m
  | _ => mret []
  end.

(** ** Cart store *)

(** [cartSubject.next(cart)]: the subject keeps [cart] and hands it to its
    subscribers. *)
Definition cartNext (cart : list CartItem) : M unit :=
  modify (fun s =>
    set_cartEvents (cartEvents s ++ [Published cart])%list (set_cartSubject cart s)).

Definition saveCartToStorage : M unit :=
  modify (fun s =>
    set_cartEvents (cartEvents s ++ [Saved (cartSubject s)])%list
                   (set_storedCart (Some (cartSubject s)) s)).

Definition removeCartFromStorage : M unit :=
  modify (fun s =>
    set_cartEvents (cartEvents s ++ [Erased])%list (set_storedCart None s)).

(** [item.id === product.id]. *)
Definition sameId (product : Product) (item : CartItem) : bool :=
  strict_eq (id (asProduct item)) (id product).

(** [item.id === productId] for a [productId: number]. *)
Definition hasId (productId : Num.number) (item : CartItem) : bool :=
  strict_eq (id (asProduct item)) (VNum productId).

Definition withQuantity (q : Num.number) (item : CartItem) : CartItem :=
  {| asProduct := asProduct item;
     quantity := q;
     addedAt := addedAt item;
     specialInstructions := specialInstructions item;
     toppings := toppings item |}.

(** The cart after an assignment to the [quantity] of the line that
    [cart.find(p)] returns: the first line that satisfies [p]. *)
Fixpoint updateFound (p : CartItem -> bool) (f : CartItem -> CartItem)
  (cart : list CartItem) : list CartItem :=
  match cart with
  | [] => []
  | item :: rest => if p item then f item :: rest else item :: updateFound p f rest
  end.

Definition addToCart (product : Product) (amount : Num.number) : M unit :=
  (currentCart <- read cartSubject;;
   cart' <-
     match find (sameId product) currentCart with
     | Some _ =>
         mret (updateFound (sameId product)
                 (fun existingItem =>
                    withQuantity (quantity existingItem + amount)%float existingItem)
                 currentCart)
     | None =>
         (now <- dateNow;;
          mret (currentCart ++
                [{| asProduct := product;
                    quantity := amount;
                    addedAt := Some now;
                    specialInstructions := None;
                    toppings := None |}])%list)
     end;;
   cartNext cart';;;
   saveCartToStorage)%m.

Definition removeFromCart (productId : Num.number) : M unit :=
  (cart <- read cartSubject;;
   cartNext (filter (fun item => negb (hasId productId item)) cart);;;
   saveCartToStorage)%m.

Definition updateCartQuantity (productId : Num.number) (amount : Num.number) : M unit :=
  (currentCart <- read cartSubject;;
   match find (hasId productId) currentCart with
   | Some _ =>
       if PrimFloat.leb amount 0%float then removeFromCart productId
       else
         (cartNext (updateFound (hasId productId) (withQuantity amount) currentCart);;;
          saveCartToStorage)
   | None => mret tt
   end)%m.

Definition clearCart : M unit :=
  (cartNext [];;; removeCartFromStorage)%m.

Definition getCartTotal (s : Service) : Num.number :=
  fold_left (fun total item => (total + price (asProduct item) * quantity item)%float)
            (cartSubject s) 0%float.

Definition getCartItemCount (s : Service) : Num.number :=
  fold_left (fun count item => (count + quantity item)%float) (cartSubject s) 0%float.

(** ** Token lifecycle *)

(** [!!s] for a [string | null]. *)
Definition hasToken (t : option string) : bool :=
  match t with
  | Some text => negb (String.eqb text "")
  | None => false
  end.

Definition isTokenStillValid : M bool :=
  (token <- read authToken;;
   if negb (hasToken token) then mret false
   else
     (now <- dateNow;;
      expiry <- read tokenExpiryTime;;
      mret (now <? expiry)))%m.

Definition isTokenNearExpiry : M bool :=
  (token <- read authToken;;
   if negb (hasToken token) then mret false
   else
     (now <- dateNow;;
      let twoMinutesFromNow := now + 2 * 60 * 1000 in
      expiry <- read tokenExpiryTime;;
      mret (expiry <=? twoMinutesFromNow)))%m.

(** When the validity check reads the clock, and what it returns. *)
Definition validNow (s : Service) : bool :=
  hasToken (authToken s) && (clock (clockReads s) <? tokenExpiryTime s).

Definition afterValidityCheck (s : Service) : Service :=
  if hasToken (authToken s) then set_clockReads (S (clockReads s)) s else s.

Definition clearToken : M unit :=
  modify (fun s =>
    set_storedToken None (set_tokenExpiryTime 0 (set_authToken None s))).

Definition saveTokenToStorage : M unit :=
  modify (fun s =>
    set_storedToken
      (Some (match authToken s with Some t => t | None => "" end,
             Str.of_Z (tokenExpiryTime s))) s).

Definition setAuthToken (token : string) : M unit :=
  (let cleanToken := Str.trim (Str.stripBearer token) in
   modify (set_authToken (Some cleanToken));;;
   now <- dateNow;;
   modify (set_tokenExpiryTime (now + 23 * 60 * 60 * 1000));;;
   saveTokenToStorage)%m.

(** The places [extractTokenFromResponse] looks at, in its order. *)
Definition possibleTokenPaths (response : value) : list value :=
  let payload := prop response "payload" in
  let data := prop response "data" in
  let result := prop response "result" in
  [prop payload "token"; prop payload "accessToken"; prop payload "access_token";
   prop payload "authToken"; prop payload "jwt";
   prop response "token"; prop response "accessToken"; prop response "access_token";
   prop response "authToken"; prop response "jwt";
   prop data "token"; prop data "accessToken"; prop result "token"].

Definition extractTokenFromResponse (response : value) : option string :=
  match find (fun tokenPath =>
                match tokenPath with
                | VStr t => (10 <? String.length t)%nat
                | _ => false
                end) (possibleTokenPaths response) with
  | Some (VStr t) => Some t
  | _ => None
  end.

(** [handleError]: the message for each status; [undefined] prints as
    [undefined]. *)
Definition handleError (error : jsError) : jsError :=
  let status := error_status error in
  JsError "Error"
    match status with
    | Some 0 => "Cannot connect to server - check network or CORS"
    | Some 401 => "Unauthorized - token expired or invalid"
    | Some 403 => "Forbidden - insufficient permissions"
    | Some 404 => "Endpoint not found"
    | Some 500 => "Server error - try again later"
    | _ =>
        "Error " ++ match status with
                    | Some n => Str.of_Z n
                    | None => "undefined"
                    end ++ ": " ++ error_message error
    end.

End WithEnvironment.

(** ** Observables *)

Module Rx.

(** What a subscriber receives first: a value or an error. *)
Inductive Notification (A : Type) : Type :=
| Next (a : A)
| Error (e : jsError).
Arguments Next {A} a.
Arguments Error {A} e.

(** Where a subscription stands when control returns to the event loop: it
    has delivered, or it awaits the answer to the HTTP request number
    [call] and goes on with [resume] when the transport settles it. *)
Inductive Step (A : Type) : Type :=
| Settled (n : Notification A)
| Awaiting (call : nat) (resume : Exchange -> Service -> Step A * Service).
Arguments Settled {A} n.
Arguments Awaiting {A} call resume.

(** An observable, by what one subscription to it does.  Every source of
    the service ([of], [throwError], the [BehaviorSubject] of refresh
    outcomes, an HTTP request) delivers on subscription or waits for the
    transport. *)
Definition Observable (A : Type) : Type := Service -> Step A * Service.

Definition of_ {A} (a : A) : Observable A := fun s => (Settled (Next a), s).

Definition throwError {A} (e : jsError) : Observable A := fun s => (Settled (Error e), s).

(** [o.pipe(map(f))]; an [f] that throws makes the observable fail. *)
Fixpoint mapStep {A B} (f : A -> M B) (st : Step A) (s : Service) : Step B * Service :=
  match st with
  | Settled (Next a) =>
      match f a s with
      | (inr b, s') => (Settled (Next b), s')
      | (inl e, s') => (Settled (Error e), s')
      end
  | Settled (Error e) => (Settled (Error e), s)
  | Awaiting call resume =>
      (Awaiting call (fun x s' => let (st', s'') := resume x s' in mapStep f st' s''), s)
  end.

Definition map {A B} (f : A -> M B) (o : Observable A) : Observable B :=
  fun s => let (st, s') := o s in mapStep f st s'.

(** [o.pipe(switchMap(f))]: [f] is called on the value and the observable
    it returns is subscribed to at once. *)
Fixpoint switchMapStep {A B} (f : A -> M (Observable B)) (st : Step A) (s : Service)
  : Step B * Service :=
  match st with
  | Settled (Next a) =>
      match f a s with
      | (inr inner, s') => inner s'
      | (inl e, s') => (Settled (Error e), s')
      end
  | Settled (Error e) => (Settled (Error e), s)
  | Awaiting call resume =>
      (Awaiting call (fun x s' => let (st', s'') := resume x s' in switchMapStep f st' s''), s)
  end.

Definition switchMap {A B} (f : A -> M (Observable B)) (o : Observable A) : Observable B :=
  fun s => let (st, s') := o s in switchMapStep f st s'.

(** [o.pipe(catchError(h))]. *)
Fixpoint catchErrorStep {A} (h : jsError -> M (Observable A)) (st : Step A) (s : Service)
  : Step A * Service :=
  match st with
  | Settled (Next a) => (Settled (Next a), s)
  | Settled (Error e) =>
      match h e s with
      | (inr replacement, s') => replacement s'
      | (inl e', s') => (Settled (Error e'), s')
      end
  | Awaiting call resume =>
      (Awaiting call (fun x s' => let (st', s'') := resume x s' in catchErrorStep h st' s''), s)
  end.

Definition catchError {A} (h : jsError -> M (Observable A)) (o : Observable A) : Observable A :=
  fun s => let (st, s') := o s in catchErrorStep h st s'.

(** [o.pipe(retry(1))]: one more subscription to [o] after an error. *)
Fixpoint retryStep {A} (o : Observable A) (st : Step A) (s : Service) : Step A * Service :=
  match st with
  | Settled (Next a) => (Settled (Next a), s)
  | Settled (Error _) => o s
  | Awaiting call resume =>
      (Awaiting call (fun x s' => let (st', s'') := resume x s' in retryStep o st' s''), s)
  end.

Definition retry {A} (o : Observable A) : Observable A :=
  fun s => let (st, s') := o s in retryStep o st s'.

(** A subscription carried to its end with nothing else running in
    between: each request is answered by the [network] as it is issued. *)
Fixpoint settle {env : Env} {A} (st : Step A) (s : Service) : Notification A * Service :=
  match st with
  | Settled n => (n, s)
  | Awaiting call resume => let (st', s') := resume (network call) s in settle st' s'
  end.

Definition subscribe {env : Env} {A} (o : Observable A) (s : Service)
  : Notification A * Service :=
  let (st, s') := o s in settle st s'.

(** A subscription carried to its end while other tasks run: whenever it
    waits for a request, the transport settles the request with any [x],
    and the service is then found in any state [s1].  [own] lists the
    requests the subscription waited for, as the log of the service had
    them when it started to wait. *)
Fixpoint carried {A} (st : Step A) (s : Service) (own : list (option HttpCall))
  (n : Notification A) (s'' : Service) : Prop :=
  match st with
  | Settled m => own = [] /\ n = m /\ s'' = s
  | Awaiting call resume =>
      exists x s1 own',
        own = nth_error (httpCalls s) call :: own' /\
        let (st', s') := resume x s1 in carried st' s' own' n s''
  end.

(** The same, from the subscription on. *)
Definition carriedFrom {A} (o : Observable A) (s : Service)
  (own : list (option HttpCall)) (n : Notification A) (s'' : Service) : Prop :=
  let (st, s') := o s in carried st s' own n s''.

End Rx.

Import Rx (Observable, Notification, Next, Error, Step, Settled, Awaiting).

Section WithEnvironment.

Context {env : Env}.

(** The [BehaviorSubject] of refresh outcomes as an observable: a new
    subscriber is handed the current value. *)
Definition refreshOutcomes : Observable bool :=
  fun s => (Settled (Next (refreshTokenSubject s)), s).

(** What a request delivers once the transport has settled it with [x];
    [timed] is [.pipe(timeout(10000))]. *)
Definition delivered (x : Exchange) (timed : bool) : Notification value :=
  if timed && late x
  then Error (JsError "TimeoutError" "Timeout has occurred")
  else match outcome x with
       | inr response => Next response
       | inl (status, text) => Error (HttpErrorResponse status text)
       end.

(** [this.http.get] and [this.http.post]: the request is issued when the
    observable is subscribed to. *)
Definition httpRequest (ep : Endpoint) (sent : option value) (auth timed : bool)
  : Observable value :=
  fun s =>
    (Awaiting (List.length (httpCalls s)) (fun x s' => (Settled (delivered x timed), s')),
     set_httpCalls
       (httpCalls s ++ [{| endpoint := ep; authorized := auth; body := sent |}])%list s).

(** The [httpOptions] getter, by whether it sets the [Authorization]
    header. *)
Definition httpOptions : M bool :=
  (token <- read authToken;;
   if hasToken token then isTokenStillValid else mret false)%m.

(** ** Authentication *)

Definition refreshFailed : jsError := JsError "Error" "Token refresh failed".

(** [login()].  After a success it schedules the self-test, which runs
    half a second later as a task of its own. *)
Definition login : Observable value :=
  Rx.catchError
    (fun error =>
       (modify (set_isRefreshingToken false);;;
        modify (set_refreshTokenSubject false);;;
        mret (Rx.throwError (handleError error)))%m)
    (Rx.map
       (fun response =>
          match extractTokenFromResponse response with
          | Some token =>
              (setAuthToken token;;;
               modify (set_isRefreshingToken false);;;
               modify (set_refreshTokenSubject true);;;
               modify (fun s => set_selfTests (S (selfTests s)) s);;;
               mret response)%m
          | None => mthrow (JsError "Error" "No authentication token received")
          end)
       (httpRequest Login None false true)).

Definition refreshToken : M (Observable value) :=
  (refreshing <- read isRefreshingToken;;
   if refreshing
   then mret (Rx.switchMap
                (fun success : bool =>
                   mret (if success then Rx.of_ (VBool true) else Rx.throwError refreshFailed))
                refreshOutcomes)
   else
     (modify (set_isRefreshingToken true);;;
      clearToken;;;
      mret login))%m.

Definition ensureAuthenticated : M (Observable value) :=
  (valid <- isTokenStillValid;;
   if valid then mret (Rx.of_ (VBool true))
   else
     (refreshing <- read isRefreshingToken;;
      if refreshing
      then mret (Rx.switchMap
                   (fun success : bool =>
                      (valid' <- (if success then isTokenStillValid else mret false);;
                       mret (if valid' then Rx.of_ (VBool true) else Rx.throwError refreshFailed)))
                   refreshOutcomes)
      else
        (refreshed <- refreshToken;;
         mret (Rx.map (fun _ => mret (VBool true)) refreshed))))%m.

Definition makeAuthenticatedRequest {T} (requestFn : M (Observable T)) : M (Observable T) :=
  (authenticated <- ensureAuthenticated;;
   mret (Rx.catchError
           (fun error =>
              (refreshing <- read isRefreshingToken;;
               if match error_status error with
                  | Some status => status =? 401
                  | None => false
                  end && negb refreshing
               then
                 (refreshed <- refreshToken;;
                  mret (Rx.catchError
                          (fun retryError => mret (Rx.throwError retryError))
                          (Rx.switchMap (fun _ => requestFn) refreshed)))
               else mret (Rx.throwError error)))
           (Rx.switchMap (fun _ => requestFn) authenticated)))%m.

(** ** Product listing *)

(** Where [getSellingProducts] finds the array of products in a response:
    [payload.records], [payload], the response itself, [data]. *)
Definition locateProducts (response : value) : value :=
  let payload := prop response "payload" in
  if isArray (prop payload "records") then prop payload "records"
  else if isArray payload then payload
  else if isArray response then response
  else if isArray (prop response "data") then prop response "data"
  else VArr [].

Definition sellingProductsRequest : M (Observable (list Product)) :=
  (auth <- httpOptions;;
   mret (Rx.map (fun response => processProducts (locateProducts response))
                (httpRequest (FindSellingProducts None) None auth false)))%m.

Definition getSellingProducts : M (Observable (list Product)) :=
  (wrapped <- makeAuthenticatedRequest sellingProductsRequest;;
   mret (Rx.catchError (fun _ => mret (Rx.of_ [])) (Rx.retry wrapped)))%m.

(** ** Order submission *)

(** [transformToHesburgerFormat], by the part of the payload that comes
    from the order; the fixed identifiers and the dates are left out.  It
    reads the clock twice. *)
Definition transformToHesburgerFormat (orderData : Order) : M value :=
  (_ <- dateNow;;
   _ <- dateNow;;
   let customer := customerInfo orderData in
   let orPlaceholder (text placeholder : string) : value :=
     VStr (if String.eqb text "" then placeholder else text) in
   lines <-
     lift (mapM
       (fun item : CartItem =>
          (productUid <-
             (if truthy (uid (asProduct item)) then ret (uid (asProduct item))
              else if nullish (id (asProduct item))
                   then typeError "Cannot read properties of undefined (reading 'toString')"
                   else (text <- Js.toString (id (asProduct item));; ret (VStr text)));;
           ret (VObj [("productName", name (asProduct item));
                      ("productUid", productUid);
                      ("quantity", VNum (quantity item));
                      ("finalQuantity", VNum (quantity item));
                      ("unitPriceWithVat", VNum (price (asProduct item)));
                      ("toppings", VArr match toppings item with
                                        | Some extras => extras
                                        | None => []
                                        end)]))%js)
       (items orderData));;
   mret (VObj [("name", VStr (firstName customer ++ " " ++ lastName customer));
               ("phone", orPlaceholder (phone customer) "-");
               ("email", orPlaceholder (email customer) "taner.atlatirlar@hesburger.fi");
               ("items", VArr lines)]))%m.

Definition generateOrderNumber : M string :=
  (now <- dateNow;;
   let timestamp := Str.sliceLast 6 (Str.of_Z now) in
   r <- mathRandom;;
   let random := Str.padStart 3 "0" (NumStr.toString (Num.floor (r * 1000)%float)) in
   mret ("HB" ++ timestamp ++ random))%m.

Definition confirmed (number : value) (idOfOrder : value) (amount : value)
  (created : DateString) : OrderData :=
  {| od_id := idOfOrder;
     orderNumber := number;
     status := "confirmed";
     od_estimatedTime := 15%float;
     totalAmount := amount;
     createdAt := created;
     queuePosition := VNull |}.

Definition createFallbackOrderResponse : M OrderResponse :=
  (now <- dateNow;;
   number <- generateOrderNumber;;
   created <- dateNow;;
   stamp <- dateNow;;
   mret {| isSuccess := true;
           data := Some (confirmed (VStr number) (VNum (Num.of_Z now))
                                   (VNum 0%float) (IsoOf created));
           message := VStr "Order submitted successfully (offline mode)";
           timestamp := IsoOf stamp;
           isOffline := Some true |})%m.

Definition extractOrderData (response : value) : result value :=
  (payload <- get response "payload";;
   ret (if truthy payload then payload
        else if truthy (prop response "data") then prop response "data"
        else if truthy (prop response "order") then prop response "order"
        else if truthy (prop response "result") then prop response "result"
        else if truthy (prop response "id") || truthy (prop response "uid") then response
        else VNull))%js.

(** [a || m]: [m] runs only when [a] is falsy. *)
Definition orElse (a : value) (m : M value) : M value :=
  if truthy a then mret a else m.

(** The [try] block of [processOrderResponse]. *)
Definition processOrderResponseTry (response : value) : M OrderResponse :=
  (orderData <- lift (extractOrderData response);;
   if negb (truthy orderData) && truthy response
   then
     (now <- dateNow;;
      number <- generateOrderNumber;;
      created <- dateNow;;
      stamp <- dateNow;;
      mret {| isSuccess := true;
              data := Some (confirmed (VStr number) (VNum (Num.of_Z now))
                                      (VNum 0%float) (IsoOf created));
              message := VStr "Order submitted successfully";
              timestamp := IsoOf stamp;
              isOffline := None |})
   else
     (idOfOrder <- orElse (Js.or (prop orderData "id") (prop orderData "uid"))
                          (now <- dateNow;; mret (VNum (Num.of_Z now)));;
      number <- orElse (prop orderData "orderNumber")
                       (generated <- generateOrderNumber;; mret (VStr generated));;
      created <- (if truthy (prop orderData "createdAt")
                  then mret (Given (prop orderData "createdAt"))
                  else (now <- dateNow;; mret (IsoOf now)));;
      stamp <- dateNow;;
      mret {| isSuccess := negb (strict_eq (prop response "isSuccess") (VBool false));
              data := Some (confirmed number idOfOrder
                                      (Js.or (prop orderData "totalAmount") (VNum 0%float))
                                      created);
              message := Js.or (prop response "message") (VStr "Order placed successfully");
              timestamp := IsoOf stamp;
              isOffline := None |}))%m.

(** [processOrderResponse]: whatever the [try] block throws is answered
    with the fallback. *)
Definition processOrderResponse (response : value) : M OrderResponse :=
  fun s =>
    match processOrderResponseTry response s with
    | (inr r, s') => (inr r, s')
    | (inl _, s') => createFallbackOrderResponse s'
    end.

Definition orderRequest (orderData : Order) : M (Observable OrderResponse) :=
  (hesburgerOrderData <- transformToHesburgerFormat orderData;;
   auth <- httpOptions;;
   mret (Rx.map processOrderResponse
                (httpRequest ClientOrderInsert (Some hesburgerOrderData) auth false)))%m.

Definition createOrder (orderData : Order) : M (Observable OrderResponse) :=
  (wrapped <- makeAuthenticatedRequest (orderRequest orderData);;
   mret (Rx.catchError
           (fun _ => (fallback <- createFallbackOrderResponse;; mret (Rx.of_ fallback)))
           wrapped))%m.

(** ** Concurrent callers *)

(** The event loop as far as authentication goes: the service and, for
    each caller of [ensureAuthenticated] in order of arrival, where its
    subscription stands. *)
Record Loop : Type := {
  service : Service;
  subscriptions : list (Step value)
}.

(** A caller invokes [ensureAuthenticated()] and subscribes to what it
    returns; control then returns to the event loop. *)
Definition arrive (l : Loop) : Loop :=
  match ensureAuthenticated (service l) with
  | (inr o, s) =>
      let (st, s') := o s in
      {| service := s'; subscriptions := subscriptions l ++ [st] |}
  | (inl e, s) =>
      {| service := s; subscriptions := subscriptions l ++ [Settled (Error e)] |}
  end.

(** The transport settles request number [call] with [x]: the
    subscriptions that await it go on, in order of subscription. *)
Fixpoint resumeAll (call : nat) (x : Exchange) (subs : list (Step value)) (s : Service)
  : list (Step value) * Service :=
  match subs with
  | [] => ([], s)
  | st :: rest =>
      let (st', s') :=
        match st with
        | Awaiting c resume => if Nat.eqb c call then resume x s else (st, s)
        | Settled _ => (st, s)
        end in
      let (rest', s'') := resumeAll call x rest s' in
      (st' :: rest', s'')
  end.

Definition answer (call : nat) (x : Exchange) (l : Loop) : Loop :=
  let (subs, s) := resumeAll call x (subscriptions l) (service l) in
  {| service := s; subscriptions := subs |}.

(** The number of [login] requests issued so far. *)
Definition loginCalls (s : Service) : nat :=
  List.length (filter (fun c => match endpoint c with Login => true | _ => false end)
                      (httpCalls s)).

(** What each caller has received: [None] while it waits. *)
Definition received (l : Loop) : list (option (Notification value)) :=
  List.map (fun st => match st with
                      | Settled n => Some n
                      | Awaiting _ _ => None
                      end) (subscriptions l).

(** ** Reference definitions, in the words of the specification *)

(** The closed set of categories. *)
Definition categories : list string :=
  ["burgers"; "chicken"; "sides"; "drinks"; "desserts"; "other"].

(** The keyword set of each category, in the order of evaluation. *)
Definition categoryKeywords : list (string * list string) :=
  [("burgers", ["burger"; "big mac"; "whopper"]);
   ("chicken", ["chicken"; "wing"; "nugget"]);
   ("sides", ["fries"; "ring"; "onion"; "potato"]);
   ("drinks", ["cola"; "drink"; "juice"; "coffee"; "tea"]);
   ("desserts", ["ice cream"; "dessert"; "cake"; "pie"])].

(** A value [String] converts: it holds no object with an own property
    [toString]. *)
Fixpoint plain (v : value) : bool :=
  match v with
  | VArr items =>
      (fix all (l : list value) : bool :=
         match l with
         | [] => true
         | x :: rest => plain x && all rest
         end) items
  | VObj fields => negb (hasOwn "toString" fields)
  | _ => true
  end.

(** The concatenated name, category and alias text. *)
Definition searchTextOf (apiProduct : value) : result string :=
  (name <- lowerText (prop apiProduct "name");;
   category <-
     lowerText (Js.or (prop apiProduct "category") (prop apiProduct "categoryName"));;
   alias <- lowerText (prop apiProduct "alias");;
   ret (name ++ " " ++ category ++ " " ++ alias))%js.

(** The payloads a category is resolved for: those that are neither
    [null] nor [undefined] and whose name, category or category name, and
    alias [String] converts. *)
Definition categorisable (apiProduct : value) : bool :=
  negb (nullish apiProduct) &&
  plain (Js.or (prop apiProduct "name") (VStr "")) &&
  plain (Js.or (Js.or (prop apiProduct "category") (prop apiProduct "categoryName"))
               (VStr "")) &&
  plain (Js.or (prop apiProduct "alias") (VStr "")).

(** The first category whose keyword set matches, [other] when none
    does. *)
Definition firstMatchingCategory (text : string) : string :=
  match find (fun entry => includesAny text (snd entry)) categoryKeywords with
  | Some (category, _) => category
  | None => "other"
  end.

(** The first candidate that is there. *)
Fixpoint firstSome {A} (candidates : list (option A)) : option A :=
  match candidates with
  | [] => None
  | Some a :: _ => Some a
  | None :: rest => firstSome rest
  end.

(** Policy 1: the first positive numeric [unitPriceWithVat] or [price]
    met while scanning the per-location price list. *)
Definition locationPriceOf (apiProduct : value) : option Num.number :=
  match prop apiProduct "locationPrices" with
  | VArr entries =>
      firstSome
        (List.map positive_number
           (flat_map (fun entry => [prop entry "unitPriceWithVat"; prop entry "price"])
                     entries))
  | _ => None
  end.

(** Policy 2: the product-level [unitPriceWithVat]. *)
Definition productPriceOf (apiProduct : value) : option Num.number :=
  positive_number (prop apiProduct "unitPriceWithVat").

(** Policy 3: the first positive value among [price], [unitPrice], [cost],
    [amount], [basePrice], a number or a string that parses as one. *)
Definition fieldPriceOf (apiProduct : value) : option Num.number :=
  firstSome
    (List.map
       (fun field =>
          match prop apiProduct field with
          | VNum x => if Js.positive x then Some x else None
          | VStr text =>
              let x := NumStr.parseFloat text in
              if PrimFloat.is_nan x then None
              else if Js.positive x then Some x else None
          | _ => None
          end)
       ["price"; "unitPrice"; "cost"; "amount"; "basePrice"]).

(** The price the payload carries, by the order of the policies. *)
Definition sourcedPrice (apiProduct : value) : option Num.number :=
  firstSome [locationPriceOf apiProduct; productPriceOf apiProduct; fieldPriceOf apiProduct].

(** The first array among [payload.records], [payload], the response
    and [data]. *)
Definition firstArray (response : value) : option value :=
  find isArray
    [prop (prop response "payload") "records"; prop response "payload";
     response; prop response "data"].

(** The authenticated request wrapper: ensure authentication, invoke the
    request; on an unauthorized failure with no refresh in flight, refresh
    once and, if that succeeds, invoke the request once more; every other
    failure goes to the caller as it is. *)
Definition invoke {T} (requestFn : M (Observable T)) (s : Service) : Notification T * Service :=
  match requestFn s with
  | (inr o, s') => Rx.subscribe o s'
  | (inl e, s') => (Error e, s')
  end.

Definition unauthorized (e : jsError) : bool :=
  match error_status e with
  | Some status => status =? 401
  | None => false
  end.

Definition retryOnceAfterRefresh {T} (requestFn : M (Observable T)) (e : jsError) (s : Service)
  : Notification T * Service :=
  if unauthorized e && negb (isRefreshingToken s)
  then match invoke refreshToken s with
       | (Next _, s') => invoke requestFn s'
       | (Error e', s') => (Error e', s')
       end
  else (Error e, s).

Definition wrapperPolicy {T} (requestFn : M (Observable T)) (s : Service)
  : Notification T * Service :=
  match invoke ensureAuthenticated s with
  | (Next _, s') =>
      match invoke requestFn s' with
      | (Next t, s'') => (Next t, s'')
      | (Error e, s'') => retryOnceAfterRefresh requestFn e s''
      end
  | (Error e, s') => (Error e, s')
  end.

(** The request that [login] issues. *)
Definition loginCall : HttpCall :=
  {| endpoint := Login; authorized := false; body := None |}.

(** What the caller that started the refresh receives when the transport
    settles the [login] request with [x]. *)
Definition firstCallerReceives (x : Exchange) : Notification value :=
  match delivered x true with
  | Next response =>
      match extractTokenFromResponse response with
      | Some _ => Next (VBool true)
      | None => Error (handleError (JsError "Error" "No authentication token received"))
      end
  | Error e => Error (handleError e)
  end.

(** The service once a refresh has been started from [s]. *)
Definition refreshing (s : Service) : Service :=
  set_httpCalls (httpCalls s ++ [loginCall])%list
    (set_storedToken None
       (set_tokenExpiryTime 0
          (set_authToken None (set_isRefreshingToken true (afterValidityCheck s))))).

(** [n] callers arrive one after the other. *)
Fixpoint arrivals (n : nat) (l : Loop) : Loop :=
  match n with
  | O => l
  | S n' => arrivals n' (arrive l)
  end.

(** The service once [getSellingProducts], called with a valid token, has
    sent its request. *)
Definition listingRequested (s : Service) : Service :=
  match httpOptions (afterValidityCheck s) with
  | (inr auth, s1) =>
      set_httpCalls
        (httpCalls s1 ++
         [{| endpoint := FindSellingProducts None; authorized := auth; body := None |}])%list
        s1
  | (inl _, s1) => s1
  end.

(** The requests for the list of selling products issued so far. *)
Definition listingCalls (s : Service) : nat :=
  List.length
    (filter (fun c => match endpoint c with FindSellingProducts _ => true | _ => false end)
            (httpCalls s)).

(** [getSellingProducts] before its last [catchError]. *)
Definition sellingProductsAttempts : M (Observable (list Product)) :=
  (wrapped <- makeAuthenticatedRequest sellingProductsRequest;;
   mret (Rx.retry wrapped))%m.

(** An order number of the form [HB], six digits, three digits. *)
Definition allDigits (text : string) : bool := forallb Str.is_digit (Str.to_list text).

Definition generatedForm (number : value) : Prop :=
  exists stamp suffix,
    number = VStr ("HB" ++ stamp ++ suffix) /\
    String.length stamp = 6%nat /\ allDigits stamp = true /\
    String.length suffix = 3%nat /\ allDigits suffix = true.

(** A response that carries an order number that is there and not empty,
    and one made offline. *)
Definition numbered (r : OrderResponse) : Prop :=
  exists d, data r = Some d /\ truthy (orderNumber d) = true.

Definition offline (r : OrderResponse) : Prop :=
  isOffline r = Some true /\
  exists d, data r = Some d /\ generatedForm (orderNumber d).

(** The suffix that [generateOrderNumber] makes of the integer [k] is
    three digits. *)
Definition threeDigits (k : Z) : bool :=
  let suffix := Str.padStart 3 "0" (NumStr.toString (Num.of_Z k)) in
  Nat.eqb (String.length suffix) 3 && allDigits suffix.

(** What [Math.random()] promises of the three-digit suffix:
    [Math.floor(r * 1000)] is one of the integers [0] to [999]. *)
Definition belowThousand (r : Num.number) : Prop :=
  exists k, 0 <= k < 1000 /\ Num.floor (r * 1000)%float = Num.of_Z k.

End WithEnvironment.

(** ** Sample states *)

(** The service as its field initialisers leave it. *)
Definition newService : Service :=
  {| authToken := None; tokenExpiryTime := 0; isRefreshingToken := false;
     refreshTokenSubject := false; cartSubject := []; storedToken := None;
     storedCart := None; cartEvents := []; httpCalls := [];
     clockReads := 0; randomReads := 0; selfTests := 0 |}.

(** A product with an [id] and a [price] and nothing else. *)
Definition bareProduct (idOf price : Num.number) : Product :=
  {| id := VNum idOf; uid := VUndefined; name := VUndefined; description := "";
     price := price; category := ""; categoryId := VUndefined;
     categoryUid := VUndefined; image := ""; imageUid := VUndefined;
     imageUrl := VUndefined; isPopular := false; allergens := [];
     estimatedTime := 0%float; isAvailable := true; alias := VUndefined;
     locationPrices := []; unitPriceWithVat := VUndefined; rawApiData := VUndefined |}.

Arguments bareProduct idOf%_float price%_float.

Definition responded (response : value) : Exchange :=
  {| late := false; outcome := inr response |}.

Definition refused (status : Z) : Exchange :=
  {| late := false; outcome := inl (status, "") |}.

(** Answers in turn, then refusals. *)
Fixpoint scripted (script : list Exchange) (n : nat) : Exchange :=
  match script, n with
  | [], _ => refused 0
  | x :: _, O => x
  | _ :: rest, S n' => scripted rest n'
  end.

(** An environment: the clock starts late in 2023 and advances by a
    millisecond a read, every random number is one half, and the transport
    answers by the script. *)
Definition scriptedEnv (script : list Exchange) : Env :=
  {| clock := fun n => 1700000000000 + Z.of_nat n;
     random := fun _ => 0.5%float;
     network := scripted script |}.

Definition quietEnv : Env := scriptedEnv [].

(** A service that holds the empty token, expiring at 1000; and one that
    holds a token. *)
Definition emptyTokenService : Service :=
  set_tokenExpiryTime 1000 (set_authToken (Some "") newService).

Definition tokenService : Service :=
  set_tokenExpiryTime 1000 (set_authToken (Some "abc") newService).

(** An environment whose clock stands at 0. *)
Definition epochEnv : Env :=
  {| clock := fun _ => 0; random := fun _ => 0%float; network := scripted [] |}.

(** The cart of the merge scenario: [add({id:5, price:10}, 2)] on an
    empty cart, and then [add({id:5, price:10}, 3)]. *)
Definition cartAfterFirstAdd : Service :=
  snd (addToCart (env := quietEnv) (bareProduct 5 10) 2%float newService).

Definition cartAfterSecondAdd : Service :=
  snd (addToCart (env := quietEnv) (bareProduct 5 10) 3%float cartAfterFirstAdd).

(** A service that holds a token, valid for years by the clock of
    [scriptedEnv]. *)
Definition validTokenService : Service :=
  set_tokenExpiryTime 1800000000000 (set_authToken (Some "tok") newService).

(** A login response with a token, a listing of one product, and a
    listing whose only product is [null]. *)
Definition tokenResponse : value :=
  VObj [("payload", VObj [("token", VStr "abcdefghijklmnop")])].

Definition colaListing : value :=
  VObj [("payload",
         VObj [("records",
                VArr [VObj [("id", VNum 1); ("name", VStr "Cola"); ("price", VNum 5)]])])].

Definition nullListing : value :=
  VObj [("payload", VObj [("records", VArr [VNull])])].

(** The transport of the unauthorized-retry scenario, of the same with a
    refresh that fails, and of a listing that cannot be normalised. *)
Definition retryEnv : Env :=
  scriptedEnv [refused 401; responded tokenResponse; responded colaListing].

Definition failedRefreshEnv : Env := scriptedEnv [refused 401; refused 500].

Definition nullListingEnv : Env :=
  scriptedEnv [responded nullListing; responded nullListing].

(** An order of nothing for table 7. *)
Definition emptyOrder : Order :=
  {| tableId := "7";
     customerInfo := {| firstName := "Ana"; lastName := "Pop"; email := "";
                        phone := ""; specialRequests := None |};
     items := [];
     paymentMethod := "card";
     totals := {| subtotal := 0%float; serviceFee := 0%float; tax := 0%float;
                  total := 0%float |};
     order_estimatedTime := None |}.

(** The payload of the price-ordering scenario, and one whose only price
    rounds to nothing. *)
Definition pricedTwice : value :=
  VObj [("locationPrices", VArr [VObj [("unitPriceWithVat", VNum 12.345)]]);
        ("price", VNum 99)].

Definition tinyPrice : value :=
  VObj [("locationPrices", VArr [VObj [("unitPriceWithVat", VNum 0.004)]])].

(** * The rest of the service, and its callers *)

Section MoreOfTheService.

Context {env : Env}.

(** ** Listing by category *)

(** The request of [getProductsByCategory]: the response goes to
    [processProducts] as it is. *)
Definition productsByCategoryRequest (categoryUid : string) : M (Observable (list Product)) :=
  (auth <- httpOptions;;
   mret (Rx.map (fun products => processProducts products)
                (httpRequest (FindSellingProducts (Some categoryUid)) None auth false)))%m.

Definition getProductsByCategory (categoryUid : string) : M (Observable (list Product)) :=
  (wrapped <- makeAuthenticatedRequest (productsByCategoryRequest categoryUid);;
   mret (Rx.catchError (fun _ => mret (Rx.of_ [])) (Rx.retry wrapped)))%m.

(** ** Categories with their products *)

(** [CategoryWithProducts], as [processCategoriesWithProducts] builds
    it. *)
Record CategoryWithProducts : Type := {
  cwp_uid : value;
  cwp_name : value;
  cwp_description : value;
  cwp_alias : value;
  cwp_products : list Product;
  cwp_isActive : bool
}.

(** The test of the [filter] in [processCategoriesWithProducts]:
    [product.productCategoryUid === category.uid ||
     product.categoryUid === category.uid ||
     product.categoryId === category.id]. *)
Definition matchesCategory (category product : value) : result bool :=
  (productCategoryUid <- get product "productCategoryUid";;
   categoryUid <- get category "uid";;
   ret (strict_eq productCategoryUid categoryUid ||
        strict_eq (prop product "categoryUid") categoryUid ||
        strict_eq (prop product "categoryId") (prop category "id")))%js.

(** [xs.filter(f)] where [f] may throw. *)
Fixpoint filterR {A} (f : A -> result bool) (xs : list A) : result (list A) :=
  match xs with
  | [] => ret []
  | x :: xs' =>
      bind (f x) (fun keep =>
        bind (filterR f xs') (fun kept => ret (if keep then x :: kept else kept)))
  end.

(** [allProducts?.filter(...) || []]: nothing of [null] and [undefined],
    a [TypeError] of what is neither them nor an array. *)
Definition categoryProductsOf (category allProducts : value) : result (list value) :=
  match allProducts with
  | VUndefined | VNull => ret []
  | VArr products => filterR (matchesCategory category) products
  | _ => typeError "allProducts?.filter is not a function"
  end.

(** The function that [processCategoriesWithProducts] maps over the
    categories; the name of the category is converted for the log. *)
Definition processCategory (allProducts category : value) : M CategoryWithProducts :=
  (categoryProducts <- lift (categoryProductsOf category allProducts);;
   name0 <- lift (get category "name");;
   _ <- lift (Js.toString name0);;
   products <- processProducts (VArr categoryProducts);;
   mret {| cwp_uid := prop category "uid";
           cwp_name := Js.or (Js.or name0 (prop category "title"))
                             (VStr "Unknown Category");
           cwp_description := Js.or (prop category "description") (prop category "alias");
           cwp_alias := prop category "alias";
           cwp_products := products;
           cwp_isActive := negb (strict_eq (prop category "isActive") (VBool false)) |})%m.

Definition processCategoriesWithProducts (categories allProducts : value)
  : M (list CategoryWithProducts) :=
  match categories with
  | VArr entries =>
      (all <- mmap (processCategory allProducts) entries;;
       mret (filter (fun category => (0 <? List.length (cwp_products category))%nat) all))%m
  | _ => mret []
  end.

(** ** More of the token lifecycle *)

Definition forceReauth : M (Observable value) :=
  (clearToken;;;
   modify (set_isRefreshingToken false);;;
   mret login)%m.

(** What the timer of [initializeTokenManagement] runs every minute: with
    a token that is near its expiry and no refresh in flight, it calls
    [refreshToken()] and subscribes. *)
Definition autoRefreshTick (l : Loop) : Loop :=
  let s := service l in
  if hasToken (authToken s) then
    match isTokenNearExpiry s with
    | (inr true, s1) =>
        if negb (isRefreshingToken s1) then
          match refreshToken s1 with
          | (inr o, s2) =>
              let (st, s3) := o s2 in
              {| service := s3; subscriptions := subscriptions l ++ [st] |}
          | (inl _, s2) => {| service := s2; subscriptions := subscriptions l |}
          end
        else {| service := s1; subscriptions := subscriptions l |}
    | (_, s1) => {| service := s1; subscriptions := subscriptions l |}
    end
  else l.

(** [testTokenWithProductCategories] as the timer of a successful [login]
    runs it: with a token it requests the categories, and on a refusal with
    status 401 it calls [refreshToken()] and subscribes. *)
Definition selfTestFires (l : Loop) : Loop :=
  let s := set_selfTests (Nat.pred (selfTests (service l))) (service l) in
  if hasToken (authToken s) then
    match httpOptions s with
    | (inr auth, s1) =>
        let (st, s2) :=
          Rx.catchError
            (fun error =>
               if match error_status error with
                  | Some status => status =? 401
                  | None => false
                  end
               then refreshToken
               else mret (Rx.throwError error))
            (httpRequest ProductCategoryFindMany None auth false) s1 in
        {| service := s2; subscriptions := subscriptions l ++ [st] |}
    | (inl _, s1) => {| service := s1; subscriptions := subscriptions l |}
    end
  else {| service := s; subscriptions := subscriptions l |}.

(** ** The cart as its callers use it *)

(** [addToCart(item, amount)] for an [item] that is a [CartItem], as the
    cart component calls it: the spread copies the instructions and the
    toppings of the item into a new line. *)
Definition addItemToCart (item : CartItem) (amount : Num.number) : M unit :=
  (currentCart <- read cartSubject;;
   cart' <-
     match find (sameId (asProduct item)) currentCart with
     | Some _ =>
         mret (updateFound (sameId (asProduct item))
                 (fun existingItem =>
                    withQuantity (quantity existingItem + amount)%float existingItem)
                 currentCart)
     | None =>
         (now <- dateNow;;
          mret (currentCart ++
                [{| asProduct := asProduct item;
                    quantity := amount;
                    addedAt := Some now;
                    specialInstructions := specialInstructions item;
                    toppings := toppings item |}])%list)
     end;;
   cartNext cart';;;
   saveCartToStorage)%m.

(** [this.cart.forEach(item => this.apiService.addToCart(item, item.quantity))]. *)
Fixpoint addEach (items : list CartItem) : M unit :=
  match items with
  | [] => mret tt
  | item :: rest => (addItemToCart item (quantity item);;; addEach rest)%m
  end.

(** [duplicateOrder] of the cart component, whose [cart] is [items]: it
    asks, and then adds every item again. *)
Definition duplicateOrder (items : list CartItem) (confirmed : bool) : M unit :=
  if confirmed then addEach items else mret tt.

(** A line with twice its quantity. *)
Definition doubled (item : CartItem) : CartItem :=
  withQuantity (quantity item + quantity item)%float item.

(** ** Reference definitions *)

(** No two lines of the cart have the same id: the id of a line is not
    strictly equal to that of a later one. *)
Fixpoint distinctIds (cart : list CartItem) : Prop :=
  match cart with
  | [] => True
  | item :: rest =>
      forallb (fun later => negb (strict_eq (id (asProduct item)) (id (asProduct later))))
              rest = true /\
      distinctIds rest
  end.

(** The storage follows the cart: it holds the cart of the subject, or
    nothing when that cart is empty. *)
Definition inStep (s : Service) : Prop :=
  storedCart s = Some (cartSubject s) \/
  (storedCart s = None /\ cartSubject s = []).

(** The test of [extractTokenFromResponse]: a string of more than 10
    characters. *)
Definition longString (place : value) : bool :=
  match place with
  | VStr t => (10 <? String.length t)%nat
  | _ => false
  end.

(** A payload that [checkAvailability] finds available. *)
Definition available (apiProduct : value) : bool :=
  match checkAvailability apiProduct with
  | inr true => true
  | _ => false
  end.

(** What [extractDescription] takes the description from, when it is
    given: the first truthy of [description], [productDescription] and
    [alias]. *)
Definition givenDescription (apiProduct : value) : value :=
  Js.or (Js.or (prop apiProduct "description") (prop apiProduct "productDescription"))
        (prop apiProduct "alias").

(** The payloads [transformProduct] makes a product of.  They are
    neither [null] nor [undefined]; [String] converts their name, their
    category or category name, their alias and their description, and,
    when they have no image of their own, their [id]; their sales count
    or popularity converts to a number; their given description, if any,
    is a string; and their [locationPrices], when an array, holds no
    [null] and no [undefined]. *)
Definition transformable (apiProduct : value) : bool :=
  categorisable apiProduct &&
  plain (Js.or (prop apiProduct "description") (VStr "")) &&
  plain (Js.or (Js.or (prop apiProduct "salesCount") (prop apiProduct "popularity"))
               (VNum 0%float)) &&
  match getImageSource apiProduct with
  | inr (kind, _) =>
      if String.eqb kind "fallback" then plain (Js.or (prop apiProduct "id") (VStr ""))
      else true
  | inl _ => true
  end &&
  (if truthy (givenDescription apiProduct)
   then match givenDescription apiProduct with
        | VStr _ => true
        | _ => false
        end
   else true) &&
  match prop apiProduct "locationPrices" with
  | VArr entries => forallb (fun entry => negb (nullish entry)) entries
  | _ => true
  end.

(** [l] is [m] with some of its elements left out. *)
Fixpoint subsequenceOf (l m : list string) : bool :=
  match l, m with
  | [], _ => true
  | _ :: _, [] => false
  | x :: l', y :: m' =>
      if String.eqb x y then subsequenceOf l' m' else subsequenceOf l m'
  end.

(** The allergen tags, in the order [extractAllergens] pushes them. *)
Definition allergenTags : list string := ["Lactose"; "Gluten"; "Eggs"; "Nuts"; "Soy"].

(** A method body that issues no request. *)
Definition quiet {A} (m : M A) : Prop :=
  forall s, httpCalls (snd (m s)) = httpCalls s.

(** No request, or one request to [ep]. *)
Definition upToOne (ep : Endpoint) (calls : list HttpCall) : Prop :=
  calls = [] \/
  exists auth sent, calls = [{| endpoint := ep; authorized := auth; body := sent |}].

(** An order line with neither a [uid] nor an [id] to make a
    [productUid] of. *)
Definition unsendable (item : CartItem) : bool :=
  negb (truthy (uid (asProduct item))) && nullish (id (asProduct item)).

Definition isLogin (c : HttpCall) : bool :=
  match endpoint c with Login => true | _ => false end.

Definition isOrderInsert (c : HttpCall) : bool :=
  match endpoint c with ClientOrderInsert => true | _ => false end.

Definition isListing (c : HttpCall) : bool :=
  match endpoint c with FindSellingProducts _ => true | _ => false end.

End MoreOfTheService.

(** ** More sample states *)

(** The cart of the merge scenario with a second line added. *)
Definition twoLineCart : Service :=
  snd (addToCart (env := quietEnv) (bareProduct 6 4) 1%float cartAfterFirstAdd).

(** A service whose token expires a minute after the clock of
    [scriptedEnv] starts: valid, and near its expiry. *)
Definition nearExpiryService : Service :=
  set_tokenExpiryTime 1700000060000 (set_authToken (Some "tok") newService).

(** Payloads of category [c1]: a drink, and a burger that is not
    available; and a payload with the address of its image and no
    category. *)
Definition colaPayload : value :=
  VObj [("id", VNum 1); ("name", VStr "Cola"); ("price", VNum 5);
        ("productCategoryUid", VStr "c1"); ("categoryId", VNum 1)].

Definition soldOutPayload : value :=
  VObj [("id", VNum 2); ("name", VStr "Cheese Burger"); ("price", VNum 20);
        ("productCategoryUid", VStr "c1"); ("categoryId", VNum 1);
        ("isAvailable", VBool false)].

Definition picturedPayload : value :=
  VObj [("name", VStr "Fries"); ("imageUrl", VStr "https://example.org/fries.png")].

(** A payload whose name is an object with a [toString] of its own. *)
Definition unnamablePayload : value :=
  VObj [("name", VObj [("toString", VNull)]); ("description", VStr "x")].

(** Two categories, one that no payload belongs to; and a category with
    no [id]. *)
Definition drinksCategory : value :=
  VObj [("uid", VStr "c1"); ("id", VNum 1); ("name", VStr "Drinks")].

Definition emptyCategory : value :=
  VObj [("uid", VStr "c2"); ("id", VNum 2); ("name", VStr "Salads")].

Definition unnumberedCategory : value := VObj [("uid", VStr "c3"); ("name", VStr "Sides")].

(** An order with a line whose product has neither a [uid] nor an
    [id]. *)
Definition unsendableOrder : Order :=
  {| tableId := "7";
     customerInfo := customerInfo emptyOrder;
     items := [{| asProduct :=
                    {| id := VUndefined; uid := VUndefined; name := VStr "Cola";
                       description := ""; price := 5%float; category := "drinks";
                       categoryId := VUndefined; categoryUid := VUndefined; image := "";
                       imageUid := VUndefined; imageUrl := VUndefined; isPopular := false;
                       allergens := []; estimatedTime := 1%float; isAvailable := true;
                       alias := VUndefined; locationPrices := [];
                       unitPriceWithVat := VUndefined; rawApiData := VUndefined |};
                  quantity := 1%float; addedAt := None;
                  specialInstructions := None; toppings := None |}];
     paymentMethod := "card";
     totals := totals emptyOrder;
     order_estimatedTime := None |}.

(** A transport that answers with the products inside [payload.records]. *)
Definition wrappedListingEnv : Env := scriptedEnv [responded colaListing].

(** A service with a valid token and one self-test pending. *)
Definition selfTestPendingService : Service := set_selfTests 1 validTokenService.


(** * Theorems *)

(** Runs the plumbing of a method body. *)
Ltac run_m :=
  repeat (unfold mbind, mret, mthrow, read, modify, lift, dateNow, mathRandom; simpl).

(** The same, and nothing else unfolded. *)
Ltac plumb := cbv beta iota delta [mbind mret mthrow read modify lift ret bind throw].

Section Theorems.

Context {env : Env}.

(** ** Token validity *)


Lemma isTokenStillValid_with_token (s : Service) (token : string) :
  authToken s = Some token -> token <> "" ->
  fst (isTokenStillValid s) = inr (clock (clockReads s) <? tokenExpiryTime s).
Proof.
  intros Htoken Hne. unfold isTokenStillValid. run_m. rewrite Htoken. simpl.
  destruct (String.eqb_spec token ""); [contradiction | reflexivity].
Qed.

Lemma isTokenNearExpiry_with_token (s : Service) (token : string) :
  authToken s = Some token -> token <> "" ->
  fst (isTokenNearExpiry s) =
  inr (clock (clockReads s) + 120000 >=? tokenExpiryTime s).
Proof.
  intros Htoken Hne. unfold isTokenNearExpiry. run_m. rewrite Htoken. simpl.
  destruct (String.eqb_spec token ""); [contradiction |].
  simpl. now rewrite Z.geb_leb.
Qed.

Lemma token_predicates_without_token (s : Service) :
  hasToken (authToken s) = false ->
  isTokenStillValid s = (inr false, s) /\ isTokenNearExpiry s = (inr false, s).
Proof.
  intros H. unfold isTokenStillValid, isTokenNearExpiry. run_m. now rewrite H.
Qed.

(** C6, as amended: for every non-empty token, every expiry and every
    current time, the validity predicate returns [now < expiry] and the
    near-expiry predicate returns [now + 120000 >= expiry]; with no token,
    or an empty one, both return [false]. *)
Theorem token_validity (s : Service) :
  (forall token, authToken s = Some token -> token <> "" ->
     fst (isTokenStillValid s) = inr (clock (clockReads s) <? tokenExpiryTime s) /\
     fst (isTokenNearExpiry s) =
       inr (clock (clockReads s) + 120000 >=? tokenExpiryTime s)) /\
  (authToken s = None \/ authToken s = Some "" ->
     fst (isTokenStillValid s) = inr false /\ fst (isTokenNearExpiry s) = inr false).
Proof.
  split.
  - intros token Htoken Hne. split.
    + now apply isTokenStillValid_with_token with token.
    + now apply isTokenNearExpiry_with_token with token.
  - intros H.
    assert (Hno : hasToken (authToken s) = false) by (destruct H as [-> | ->]; reflexivity).
    destruct (token_predicates_without_token s Hno) as [-> ->]. now split.
Qed.

(** ** Cart store *)

Lemma find_none_forallb {A} (p : A -> bool) (l : list A) :
  find p l = None -> forallb (fun x => negb (p x)) l = true.
Proof.
  induction l as [| x l IH]; simpl; [reflexivity |].
  destruct (p x); [discriminate | auto].
Qed.

(** The line [find] returns splits the cart, and [updateFound] rewrites
    that line alone. *)
Lemma updateFound_split (p : CartItem -> bool) (f : CartItem -> CartItem)
  (cart : list CartItem) (line : CartItem) :
  find p cart = Some line ->
  exists before after,
    cart = (before ++ line :: after)%list /\
    forallb (fun x => negb (p x)) before = true /\
    p line = true /\
    updateFound p f cart = (before ++ f line :: after)%list.
Proof.
  induction cart as [| x cart IH]; simpl; [discriminate |].
  destruct (p x) eqn:Hx.
  - intros [= ->]. exists [], cart. simpl. auto.
  - intros Hfind. destruct (IH Hfind) as (before & after & -> & Hb & Hl & Hu).
    exists (x :: before), after. simpl. rewrite Hx, Hb, Hu. auto.
Qed.

Lemma addToCart_existing (s : Service) (product : Product) (amount : Num.number)
  (line : CartItem) :
  find (sameId product) (cartSubject s) = Some line ->
  cartSubject (snd (addToCart product amount s)) =
  updateFound (sameId product)
    (fun existingItem => withQuantity (quantity existingItem + amount)%float existingItem)
    (cartSubject s).
Proof.
  intros Hfind. unfold addToCart. run_m. rewrite Hfind. reflexivity.
Qed.

(** C7: adding a product whose id already has a cart line adds the amount
    to the quantity of that line, in its place, and appends nothing; from
    an empty cart, [add({id:5, price:10}, 2)] and then
    [add({id:5, price:10}, 3)] leave one line of quantity 5 and a total
    of 50. *)
Theorem addToCart_merges :
  (forall (s : Service) (product : Product) (amount : Num.number) (line : CartItem),
     find (sameId product) (cartSubject s) = Some line ->
     exists before after,
       cartSubject s = (before ++ line :: after)%list /\
       forallb (fun item => negb (sameId product item)) before = true /\
       cartSubject (snd (addToCart product amount s)) =
         (before ++ withQuantity (quantity line + amount)%float line :: after)%list /\
       List.length (cartSubject (snd (addToCart product amount s))) =
         List.length (cartSubject s)) /\
  List.map (fun item => (id (asProduct item), quantity item)) (cartSubject cartAfterSecondAdd)
    = [(VNum 5, 5%float)] /\
  getCartTotal cartAfterSecondAdd = 50%float.
Proof.
  split; [| split; vm_compute; reflexivity].
  intros s product amount line Hfind.
  destruct (updateFound_split (sameId product)
              (fun existingItem => withQuantity (quantity existingItem + amount)%float existingItem)
              _ _ Hfind) as (before & after & Hcart & Hbefore & _ & Hupd).
  exists before, after.
  rewrite (addToCart_existing s product amount line Hfind), Hupd, Hcart.
  repeat split; auto.
  rewrite !length_app. reflexivity.
Qed.

(** C9: [updateCartQuantity] with a product id that no line of the cart
    has returns with the service as it was: the cart, what was published
    to subscribers and what was written to storage are unchanged. *)
Theorem updateCartQuantity_no_match (s : Service) (productId amount : Num.number) :
  find (hasId productId) (cartSubject s) = None ->
  updateCartQuantity productId amount s = (inr tt, s).
Proof.
  intros Hfind. unfold updateCartQuantity. run_m. now rewrite Hfind.
Qed.

(** ** Response normaliser *)

Lemma get_not_nullish (v : value) (k : string) :
  nullish v = false -> get v k = inr (prop v k).
Proof. intros H. unfold get. now rewrite H. Qed.

Lemma get_nullish (v : value) (k : string) :
  nullish v = true -> exists e, get v k = inl e.
Proof. intros H. unfold get. rewrite H. eauto. Qed.

Lemma firstMatchingCategory_closed (text : string) :
  In (firstMatchingCategory text) categories.
Proof.
  unfold firstMatchingCategory, categoryKeywords, categories. simpl.
  repeat match goal with
         | |- context [if ?b then _ else _] => destruct b; simpl
         end; auto 10.
Qed.

Lemma toString_plain :
  forall v,
    match Js.toString v with
    | inr _ => plain v = true
    | inl e => plain v = false /\ exists what, e = JsError "TypeError" what
    end.
Proof.
  fix IH 1. intros [| | b | x | t | items | fields]; try reflexivity.
  - simpl. revert items. fix IHl 1. intros [| x rest]; [reflexivity |].
    assert (Hx : match (if nullish x then ret "" else Js.toString x) with
                 | inr _ => plain x = true
                 | inl e => plain x = false /\ exists what, e = JsError "TypeError" what
                 end).
    { pose proof (IH x) as Hx. destruct (nullish x) eqn:Hnull; [| exact Hx].
      clear Hx. destruct x; try discriminate; reflexivity. }
    pose proof (IHl rest) as Hrest. clear IHl.
    destruct rest as [| y rest'].
    + destruct (if nullish x then ret "" else Js.toString x) as [e | text].
      * destruct Hx as [-> Hwhat]. auto.
      * rewrite Hx. reflexivity.
    + rename Hrest into IHl.
      destruct (if nullish x then ret "" else Js.toString x) as [e | text].
      * destruct Hx as [-> Hwhat]. auto.
      * rewrite Hx. cbn [andb].
        match type of IHl with
        | match ?j with _ => _ end => destruct j as [e | others]
        end; exact IHl.
  - simpl. destruct (hasOwn "toString" fields); simpl; eauto.
Qed.
Lemma lowerText_plain (v : value) :
  match lowerText v with
  | inr _ => plain (Js.or v (VStr "")) = true
  | inl e => plain (Js.or v (VStr "")) = false /\ exists what, e = JsError "TypeError" what
  end.
Proof.
  unfold lowerText. pose proof (toString_plain (Js.or v (VStr ""))) as H.
  destruct (Js.toString (Js.or v (VStr ""))); exact H.
Qed.

Lemma searchTextOf_plain (apiProduct : value) :
  match searchTextOf apiProduct with
  | inr _ =>
      plain (Js.or (prop apiProduct "name") (VStr "")) &&
      plain (Js.or (Js.or (prop apiProduct "category") (prop apiProduct "categoryName"))
                   (VStr "")) &&
      plain (Js.or (prop apiProduct "alias") (VStr "")) = true
  | inl e =>
      plain (Js.or (prop apiProduct "name") (VStr "")) &&
      plain (Js.or (Js.or (prop apiProduct "category") (prop apiProduct "categoryName"))
                   (VStr "")) &&
      plain (Js.or (prop apiProduct "alias") (VStr "")) = false /\
      exists what, e = JsError "TypeError" what
  end.
Proof.
  unfold searchTextOf.
  pose proof (lowerText_plain (prop apiProduct "name")) as Hname.
  pose proof (lowerText_plain
                (Js.or (prop apiProduct "category") (prop apiProduct "categoryName")))
    as Hcategory.
  pose proof (lowerText_plain (prop apiProduct "alias")) as Halias.
  destruct (lowerText (prop apiProduct "name")) as [e | name]; cbn [bind].
  { destruct Hname as [-> Hwhat]. auto. }
  rewrite Hname.
  destruct (lowerText (Js.or _ _)) as [e | category]; cbn [bind].
  { destruct Hcategory as [-> Hwhat]. auto. }
  rewrite Hcategory.
  destruct (lowerText (prop apiProduct "alias")) as [e | alias]; cbn [bind].
  { destruct Halias as [-> Hwhat]. auto. }
  rewrite Halias. reflexivity.
Qed.

Lemma mapApiCategory_first_match (apiProduct : value) :
  nullish apiProduct = false ->
  mapApiCategory apiProduct =
  bind (searchTextOf apiProduct) (fun text => ret (firstMatchingCategory text)).
Proof.
  intros H. unfold mapApiCategory, searchTextOf. rewrite (get_not_nullish _ _ H).
  cbn [bind].
  destruct (lowerText (prop apiProduct "name")) as [e | name]; [reflexivity |]. cbn [bind].
  destruct (lowerText (Js.or _ _)) as [e | category]; [reflexivity |]. cbn [bind].
  destruct (lowerText (prop apiProduct "alias")) as [e | alias]; [reflexivity |]. cbn [bind].
  unfold ret, firstMatchingCategory, categoryKeywords. cbn [bind find snd].
  repeat match goal with
         | |- context [if includesAny ?t ?k then _ else _] =>
             destruct (includesAny t k); try reflexivity
         end.
Qed.

(** The category of a payload that has one is in the closed set. *)
Lemma mapApiCategory_inr (apiProduct : value) (category : string) :
  mapApiCategory apiProduct = inr category ->
  nullish apiProduct = false /\
  In category categories /\
  exists text, searchTextOf apiProduct = inr text /\ category = firstMatchingCategory text.
Proof.
  intros Hrun. destruct (nullish apiProduct) eqn:H.
  { destruct (get_nullish apiProduct "name" H) as [e He].
    unfold mapApiCategory in Hrun. rewrite He in Hrun. discriminate. }
  split; [reflexivity |].
  rewrite (mapApiCategory_first_match _ H) in Hrun.
  destruct (searchTextOf apiProduct) as [e | text]; [discriminate |].
  cbn [bind] in Hrun. injection Hrun as <-.
  split; [apply firstMatchingCategory_closed | eauto].
Qed.

(** C5, as amended: for every payload that is neither [null] nor
    [undefined] and whose name, category or category name, and alias hold
    no object with a [toString] of its own, [mapApiCategory] returns, and
    the category is one of [burgers], [chicken], [sides], [drinks],
    [desserts], [other]: the first category, in that order, with a keyword
    in the lower-cased name, category and alias text, [other] when there
    is none.  On every other payload it throws a [TypeError] and resolves
    no category. *)
Theorem category_closed_set (apiProduct : value) :
  match mapApiCategory apiProduct with
  | inr category =>
      categorisable apiProduct = true /\
      In category categories /\
      exists text,
        searchTextOf apiProduct = inr text /\ category = firstMatchingCategory text
  | inl e => categorisable apiProduct = false /\ exists what, e = JsError "TypeError" what
  end.
Proof.
  unfold categorisable. destruct (nullish apiProduct) eqn:H.
  - unfold mapApiCategory, get. rewrite H. cbn. eauto.
  - rewrite (mapApiCategory_first_match _ H).
    pose proof (searchTextOf_plain apiProduct) as Hplain.
    destruct (searchTextOf apiProduct) as [e | text]; cbn [bind negb andb].
    + destruct Hplain as [Hfalse Hwhat]. split; [| exact Hwhat].
      rewrite <- !andb_assoc in *. exact Hfalse.
    + split; [rewrite <- !andb_assoc in *; exact Hplain |].
      split; [apply firstMatchingCategory_closed | eauto].
Qed.

Lemma prop_of_falsy (v : value) (k : string) :
  truthy v = false -> prop v k = VUndefined.
Proof. destruct v; simpl; try reflexivity; discriminate. Qed.

Lemma scanLocationPrices_firstSome (entries : list value) :
  scanLocationPrices entries =
  firstSome
    (List.map positive_number
       (flat_map (fun entry => [prop entry "unitPriceWithVat"; prop entry "price"]) entries)).
Proof.
  induction entries as [| entry entries IH]; [reflexivity |].
  cbn [scanLocationPrices flat_map List.map app firstSome].
  destruct (truthy entry) eqn:Ht.
  - destruct (positive_number (prop entry "unitPriceWithVat")); [reflexivity |].
    destruct (positive_number (prop entry "price")); [reflexivity | exact IH].
  - rewrite !(prop_of_falsy _ _ Ht). simpl. exact IH.
Qed.

Lemma scanPriceFields_firstSome (apiProduct : value) (fields : list string) :
  scanPriceFields apiProduct fields =
  firstSome
    (List.map
       (fun field =>
          match prop apiProduct field with
          | VNum x => if Js.positive x then Some x else None
          | VStr text =>
              let x := NumStr.parseFloat text in
              if PrimFloat.is_nan x then None
              else if Js.positive x then Some x else None
          | _ => None
          end) fields).
Proof.
  induction fields as [| field fields IH]; [reflexivity |].
  cbn [scanPriceFields List.map firstSome]. unfold priceOfField.
  destruct (prop apiProduct field); try exact IH.
  - destruct (Js.positive x); [reflexivity | exact IH].
  - cbv zeta. destruct (PrimFloat.is_nan (NumStr.parseFloat s)); simpl; [exact IH |].
    destruct (Js.positive (NumStr.parseFloat s)); [reflexivity | exact IH].
Qed.

Lemma extractPriceEnhanced_sourced (apiProduct : value) (s : Service) :
  nullish apiProduct = false ->
  extractPriceEnhanced apiProduct s =
  match sourcedPrice apiProduct with
  | Some x => (inr (Num.round2 x), s)
  | None => generateCategoryBasedPrice apiProduct s
  end.
Proof.
  intros H. unfold extractPriceEnhanced, sourcedPrice, mbind, lift, mret.
  rewrite (get_not_nullish _ _ H), scanPriceFields_firstSome.
  unfold locationPriceOf, productPriceOf, fieldPriceOf, priceFields.
  cbn [firstSome].
  destruct (prop apiProduct "locationPrices");
    rewrite ?scanLocationPrices_firstSome;
    repeat match goal with
           | |- context [match ?o with Some _ => _ | None => _ end] =>
               destruct o; try reflexivity
           end.
Qed.

(** C4: the price is resolved in the order of the policies: a positive
    numeric [unitPriceWithVat] or [price] met while scanning the
    per-location list, before the product-level [unitPriceWithVat], before
    the first positive number or numeric string among [price],
    [unitPrice], [cost], [amount], [basePrice]; the first of them that is
    there is returned rounded to two decimals, and the category-based
    price stands in when none is.  A product with
    [locationPrices[0].unitPriceWithVat = 12.345] and [price = 99]
    resolves to [12.35]. *)
Theorem price_fallback_ordering :
  (forall (apiProduct : value) (s : Service),
     nullish apiProduct = false ->
     extractPriceEnhanced apiProduct s =
     match firstSome [locationPriceOf apiProduct; productPriceOf apiProduct;
                      fieldPriceOf apiProduct] with
     | Some x => (inr (Num.round2 x), s)
     | None => generateCategoryBasedPrice apiProduct s
     end) /\
  (forall s : Service, extractPriceEnhanced pricedTwice s = (inr 12.35%float, s)).
Proof.
  split.
  - intros apiProduct s H. exact (extractPriceEnhanced_sourced apiProduct s H).
  - intros s. rewrite extractPriceEnhanced_sourced by reflexivity.
    vm_compute. reflexivity.
Qed.

(** C10 fails on the code: a payload whose only price is a per-location
    [unitPriceWithVat] of 0.004 passes the test [> 0] and is then rounded
    to two decimals; the resolved price is 0, which is not positive. *)
Theorem price_rounds_to_zero (s : Service) :
  extractPriceEnhanced tinyPrice s = (inr 0%float, s) /\
  Js.positive 0%float = false.
Proof.
  rewrite extractPriceEnhanced_sourced by reflexivity.
  split; vm_compute; reflexivity.
Qed.


(** ** Observables carried to their end *)

Lemma settle_mapStep {A B} (f : A -> M B) :
  forall (st : Step A) (s : Service),
    (let (st', s') := Rx.mapStep f st s in Rx.settle st' s') =
    match Rx.settle st s with
    | (Next a, s') =>
        match f a s' with
        | (inr b, s'') => (Next b, s'')
        | (inl e, s'') => (Error e, s'')
        end
    | (Error e, s') => (Error e, s')
    end.
Proof.
  fix IH 1. intros [[a | e] | call resume] s; simpl.
  - destruct (f a s) as [[e | b] s']; reflexivity.
  - reflexivity.
  - destruct (resume (network call) s) as [st' s']. apply IH.
Qed.

Lemma settle_switchMapStep {A B} (f : A -> M (Observable B)) :
  forall (st : Step A) (s : Service),
    (let (st', s') := Rx.switchMapStep f st s in Rx.settle st' s') =
    match Rx.settle st s with
    | (Next a, s') =>
        match f a s' with
        | (inr inner, s'') => Rx.subscribe inner s''
        | (inl e, s'') => (Error e, s'')
        end
    | (Error e, s') => (Error e, s')
    end.
Proof.
  fix IH 1. intros [[a | e] | call resume] s; simpl.
  - destruct (f a s) as [[e | inner] s']; reflexivity.
  - reflexivity.
  - destruct (resume (network call) s) as [st' s']. apply IH.
Qed.

Lemma settle_catchErrorStep {A} (h : jsError -> M (Observable A)) :
  forall (st : Step A) (s : Service),
    (let (st', s') := Rx.catchErrorStep h st s in Rx.settle st' s') =
    match Rx.settle st s with
    | (Next a, s') => (Next a, s')
    | (Error e, s') =>
        match h e s' with
        | (inr replacement, s'') => Rx.subscribe replacement s''
        | (inl e', s'') => (Error e', s'')
        end
    end.
Proof.
  fix IH 1. intros [[a | e] | call resume] s; simpl.
  - reflexivity.
  - destruct (h e s) as [[e' | replacement] s']; reflexivity.
  - destruct (resume (network call) s) as [st' s']. apply IH.
Qed.

Lemma settle_retryStep {A} (o : Observable A) :
  forall (st : Step A) (s : Service),
    (let (st', s') := Rx.retryStep o st s in Rx.settle st' s') =
    match Rx.settle st s with
    | (Next a, s') => (Next a, s')
    | (Error _, s') => Rx.subscribe o s'
    end.
Proof.
  fix IH 1. intros [[a | e] | call resume] s; simpl.
  - reflexivity.
  - reflexivity.
  - destruct (resume (network call) s) as [st' s']. apply IH.
Qed.

Lemma subscribe_of {A} (a : A) (s : Service) : Rx.subscribe (Rx.of_ a) s = (Next a, s).
Proof. reflexivity. Qed.

Lemma subscribe_throwError {A} (e : jsError) (s : Service) :
  Rx.subscribe (Rx.throwError (A := A) e) s = (Error e, s).
Proof. reflexivity. Qed.

Lemma subscribe_map {A B} (f : A -> M B) (o : Observable A) (s : Service) :
  Rx.subscribe (Rx.map f o) s =
  match Rx.subscribe o s with
  | (Next a, s') =>
      match f a s' with
      | (inr b, s'') => (Next b, s'')
      | (inl e, s'') => (Error e, s'')
      end
  | (Error e, s') => (Error e, s')
  end.
Proof.
  unfold Rx.subscribe, Rx.map. destruct (o s) as [st s']. apply settle_mapStep.
Qed.

Lemma subscribe_switchMap {A B} (f : A -> M (Observable B)) (o : Observable A) (s : Service) :
  Rx.subscribe (Rx.switchMap f o) s =
  match Rx.subscribe o s with
  | (Next a, s') =>
      match f a s' with
      | (inr inner, s'') => Rx.subscribe inner s''
      | (inl e, s'') => (Error e, s'')
      end
  | (Error e, s') => (Error e, s')
  end.
Proof.
  unfold Rx.subscribe at 1 2, Rx.switchMap. destruct (o s) as [st s'].
  apply settle_switchMapStep.
Qed.

Lemma subscribe_catchError {A} (h : jsError -> M (Observable A)) (o : Observable A)
  (s : Service) :
  Rx.subscribe (Rx.catchError h o) s =
  match Rx.subscribe o s with
  | (Next a, s') => (Next a, s')
  | (Error e, s') =>
      match h e s' with
      | (inr replacement, s'') => Rx.subscribe replacement s''
      | (inl e', s'') => (Error e', s'')
      end
  end.
Proof.
  unfold Rx.subscribe at 1 2, Rx.catchError. destruct (o s) as [st s'].
  apply settle_catchErrorStep.
Qed.

Lemma subscribe_retry {A} (o : Observable A) (s : Service) :
  Rx.subscribe (Rx.retry o) s =
  match Rx.subscribe o s with
  | (Next a, s') => (Next a, s')
  | (Error _, s') => Rx.subscribe o s'
  end.
Proof.
  unfold Rx.subscribe at 1 2, Rx.retry. destruct (o s) as [st s'].
  apply settle_retryStep.
Qed.

Lemma subscribe_httpRequest (ep : Endpoint) (sent : option value) (auth timed : bool)
  (s : Service) :
  Rx.subscribe (httpRequest ep sent auth timed) s =
  (delivered (network (List.length (httpCalls s))) timed,
   set_httpCalls
     (httpCalls s ++ [{| endpoint := ep; authorized := auth; body := sent |}])%list s).
Proof. reflexivity. Qed.

Lemma subscribe_refreshOutcomes (s : Service) :
  Rx.subscribe refreshOutcomes s = (Next (refreshTokenSubject s), s).
Proof. reflexivity. Qed.

(** ** Authentication *)

Lemma isTokenStillValid_eq (s : Service) :
  isTokenStillValid s = (inr (validNow s), afterValidityCheck s).
Proof.
  unfold isTokenStillValid, validNow, afterValidityCheck. run_m.
  destruct (hasToken (authToken s)); reflexivity.
Qed.
Lemma ensureAuthenticated_returns (s : Service) :
  exists o s', ensureAuthenticated s = (inr o, s').
Proof.
  unfold ensureAuthenticated, mbind. rewrite isTokenStillValid_eq.
  destruct (validNow s); [plumb; do 2 eexists; reflexivity |].
  unfold refreshToken, clearToken. plumb.
  destruct (isRefreshingToken (afterValidityCheck s)) eqn:Hflag;
    cbv beta iota; rewrite ?Hflag; do 2 eexists; reflexivity.
Qed.

Lemma refreshToken_returns (s : Service) :
  exists o s', refreshToken s = (inr o, s').
Proof.
  unfold refreshToken, clearToken. plumb. destruct (isRefreshingToken s); do 2 eexists; reflexivity.
Qed.

(** An error of [login] is the [Error] that [handleError] makes: it has
    no status. *)
Lemma login_error_plain (s s' : Service) (e : jsError) :
  Rx.subscribe login s = (Error e, s') -> unauthorized e = false.
Proof.
  unfold login. rewrite subscribe_catchError, subscribe_map, subscribe_httpRequest.
  destruct (delivered _ true) as [response | e0].
  - destruct (extractTokenFromResponse response) as [token |].
    + unfold setAuthToken, saveTokenToStorage, dateNow. plumb. discriminate.
    + plumb. rewrite subscribe_throwError. intros [= <- _]. reflexivity.
  - plumb. rewrite subscribe_throwError. intros [= <- _]. reflexivity.
Qed.

(** An error of [ensureAuthenticated] has no status either. *)
Lemma ensureAuthenticated_error_plain (s s' : Service) (e : jsError) :
  invoke ensureAuthenticated s = (Error e, s') -> unauthorized e = false.
Proof.
  unfold invoke, ensureAuthenticated, mbind. rewrite isTokenStillValid_eq.
  destruct (validNow s); [plumb; discriminate |].
  unfold refreshToken, clearToken. plumb.
  destruct (isRefreshingToken (afterValidityCheck s)) eqn:Hflag;
    cbv beta iota; rewrite ?Hflag; cbv beta iota.
  - rewrite subscribe_switchMap, subscribe_refreshOutcomes.
    destruct (refreshTokenSubject (afterValidityCheck s)).
    + rewrite isTokenStillValid_eq.
      destruct (validNow (afterValidityCheck s)).
      * rewrite subscribe_of. discriminate.
      * rewrite subscribe_throwError. intros [= <- _]. reflexivity.
    + rewrite subscribe_throwError. intros [= <- _]. reflexivity.
  - rewrite subscribe_map.
    destruct (Rx.subscribe login _) as [[response | e0] s1] eqn:Hlogin.
    + discriminate.
    + intros [= <- _]. exact (login_error_plain _ _ _ Hlogin).
Qed.

(** What the [catchError] of the wrapper does with an error. *)
Lemma handler_policy {T} (requestFn : M (Observable T)) (e : jsError) (s : Service) :
  match
    (refreshing <- read isRefreshingToken;;
     if match error_status e with
        | Some status => status =? 401
        | None => false
        end && negb refreshing
     then
       (refreshed <- refreshToken;;
        mret (Rx.catchError
                (fun retryError => mret (Rx.throwError retryError))
                (Rx.switchMap (fun _ => requestFn) refreshed)))
     else mret (Rx.throwError e))%m s
  with
  | (inr replacement, s') => Rx.subscribe replacement s'
  | (inl e', s') => (Error e', s')
  end = retryOnceAfterRefresh requestFn e s.
Proof.
  unfold retryOnceAfterRefresh, unauthorized, invoke. plumb.
  destruct (match error_status e with Some status => status =? 401 | None => false end
            && negb (isRefreshingToken s)); [| reflexivity].
  destruct (refreshToken_returns s) as (refreshed & s1 & Hrefresh). rewrite Hrefresh.
  rewrite subscribe_catchError, subscribe_switchMap.
  destruct (Rx.subscribe refreshed s1) as [[response | e1] s2]; [| reflexivity].
  destruct (requestFn s2) as [[e2 | o] s3]; [reflexivity |].
  destruct (Rx.subscribe o s3) as [[t | e2] s4]; reflexivity.
Qed.

(** The wrapper does what the policy says. *)
Lemma makeAuthenticatedRequest_policy {T} (requestFn : M (Observable T)) (s : Service) :
  invoke (makeAuthenticatedRequest requestFn) s = wrapperPolicy requestFn s.
Proof.
  unfold wrapperPolicy.
  destruct (invoke ensureAuthenticated s) as [n s1] eqn:Hauth.
  assert (Hplain := ensureAuthenticated_error_plain s s1).
  unfold invoke in *. unfold makeAuthenticatedRequest, mbind at 1.
  destruct (ensureAuthenticated_returns s) as (auth & s0 & Hcall).
  rewrite Hcall in *. unfold mret at 1. unfold ret at 1. cbv beta iota.
  rewrite subscribe_catchError, subscribe_switchMap, Hauth.
  destruct n as [a | e].
  - destruct (requestFn s1) as [[e | o] s2].
    + apply handler_policy.
    + destruct (Rx.subscribe o s2) as [[t | e] s3]; [reflexivity | apply handler_policy].
  - rewrite handler_policy. unfold retryOnceAfterRefresh.
    rewrite (Hplain e Hauth). reflexivity.
Qed.

(** ** Order numbers *)

Lemma to_list_of_list (l : list ascii) : Str.to_list (Str.of_list l) = l.
Proof. induction l as [| c l IH]; simpl; congruence. Qed.

Lemma length_to_list (t : string) : List.length (Str.to_list t) = String.length t.
Proof. induction t as [| c t IH]; simpl; congruence. Qed.

Lemma to_list_app (a b : string) : Str.to_list (a ++ b) = (Str.to_list a ++ Str.to_list b)%list.
Proof. induction a as [| c a IH]; simpl; congruence. Qed.

Lemma to_list_substring (t : string) :
  forall n m, Str.to_list (String.substring n m t) = firstn m (skipn n (Str.to_list t)).
Proof.
  induction t as [| c t IH]; intros [| n] [| m]; simpl; try reflexivity.
  - now rewrite IH.
  - now rewrite IH.
  - now rewrite IH.
Qed.

Lemma is_digit_digit (d : Z) : 0 <= d < 10 -> Str.is_digit (Str.digit d) = true.
Proof.
  intros H.
  assert (Hd : d = 0 \/ d = 1 \/ d = 2 \/ d = 3 \/ d = 4 \/ d = 5 \/ d = 6 \/ d = 7 \/
               d = 8 \/ d = 9) by lia.
  repeat (destruct Hd as [-> | Hd]; [reflexivity |]). now subst.
Qed.

Lemma digits_rev_digits (fuel : nat) :
  forall n, 0 <= n -> forallb Str.is_digit (Str.digits_rev fuel n) = true.
Proof.
  induction fuel as [| fuel IH]; intros n Hn; simpl; [reflexivity |].
  rewrite is_digit_digit by (apply Z.mod_pos_bound; lia). simpl.
  destruct (n <? 10); [reflexivity |].
  apply IH. apply Z.div_pos; lia.
Qed.

Lemma digits_rev_length (k : nat) :
  forall fuel n, 10 ^ Z.of_nat k <= n -> (k < fuel)%nat ->
                 (k < List.length (Str.digits_rev fuel n))%nat.
Proof.
  induction k as [| k IH]; intros fuel n Hn Hfuel.
  - destruct fuel; [lia |]. simpl. lia.
  - destruct fuel as [| fuel]; [lia |]. simpl.
    rewrite Nat2Z.inj_succ, Z.pow_succ_r in Hn by lia.
    assert (H10 : 10 <= n) by (assert (0 < 10 ^ Z.of_nat k) by (apply Z.pow_pos_nonneg; lia); lia).
    destruct (Z.ltb_spec n 10); [lia |].
    apply -> Nat.succ_lt_mono. apply IH; [| lia].
    apply Z.div_le_lower_bound; lia.
Qed.

Lemma forallb_firstn {A} (p : A -> bool) (l : list A) (n : nat) :
  forallb p l = true -> forallb p (firstn n l) = true.
Proof.
  revert n. induction l as [| x l IH]; intros [| n]; simpl; auto.
  intros H. apply andb_true_iff in H as [-> H]. simpl. auto.
Qed.

Lemma forallb_skipn {A} (p : A -> bool) (l : list A) (n : nat) :
  forallb p l = true -> forallb p (skipn n l) = true.
Proof.
  revert n. induction l as [| x l IH]; intros [| n]; simpl; auto.
  intros H. apply andb_true_iff in H as [_ H]. auto.
Qed.

Lemma forallb_rev {A} (p : A -> bool) (l : list A) :
  forallb p l = true -> forallb p (List.rev l) = true.
Proof.
  intros H. apply forallb_forall. intros x Hx. apply in_rev in Hx.
  rewrite forallb_forall in H. auto.
Qed.

(** The last six characters of the numeral of an instant later than the
    first hundred seconds of the epoch are six digits. *)
Lemma timestamp_six_digits (now : Z) :
  100000 <= now ->
  String.length (Str.sliceLast 6 (Str.of_Z now)) = 6%nat /\
  allDigits (Str.sliceLast 6 (Str.of_Z now)) = true.
Proof.
  intros Hnow. unfold Str.of_Z. destruct (Z.ltb_spec now 0); [lia |].
  unfold Str.sliceLast, allDigits, Str.of_nonneg.
  set (fuel := S (Z.to_nat (Z.log2 now))).
  assert (Hlen : (5 < List.length (Str.digits_rev fuel now))%nat).
  { apply digits_rev_length; [exact Hnow |].
    assert (16 <= Z.log2 now) by (apply Z.log2_le_pow2; lia).
    unfold fuel. lia. }
  rewrite <- length_to_list, to_list_substring, <- length_to_list, to_list_of_list.
  rewrite length_rev, length_firstn, length_skipn, length_rev.
  split; [lia |].
  apply forallb_firstn, forallb_skipn, forallb_rev, digits_rev_digits. lia.
Qed.

(** The numeral of each integer from 0 to 999, padded, is three digits. *)
Lemma suffixes_checked :
  forallb threeDigits (List.map Z.of_nat (seq 0 1000)) = true.
Proof. vm_compute. reflexivity. Qed.

(** The hypothesis on [Math.random()] holds at both ends of its range and
    in the middle. *)
Lemma belowThousand_bounds :
  belowThousand 0%float /\ belowThousand 0.5%float /\
  belowThousand 0.9999999999999999%float.
Proof.
  split; [| split].
  - exists 0. split; [lia | vm_compute; reflexivity].
  - exists 500. split; [lia | vm_compute; reflexivity].
  - exists 999. split; [lia | vm_compute; reflexivity].
Qed.

Lemma suffix_three_digits (r : Num.number) :
  belowThousand r ->
  let suffix := Str.padStart 3 "0" (NumStr.toString (Num.floor (r * 1000)%float)) in
  String.length suffix = 3%nat /\ allDigits suffix = true.
Proof.
  intros (k & Hk & ->).
  assert (Hin : In k (List.map Z.of_nat (seq 0 1000))).
  { apply in_map_iff. exists (Z.to_nat k). split; [lia |]. apply in_seq. lia. }
  pose proof (proj1 (forallb_forall _ _) suffixes_checked k Hin) as Hcheck.
  unfold threeDigits in Hcheck. apply andb_true_iff in Hcheck as [Hlen Hdigits].
  apply Nat.eqb_eq in Hlen. cbv zeta. auto.
Qed.

Lemma generateOrderNumber_form (s : Service) :
  100000 <= clock (clockReads s) ->
  belowThousand (random (randomReads s)) ->
  exists number,
    generateOrderNumber s =
      (inr number, set_randomReads (S (randomReads s)) (set_clockReads (S (clockReads s)) s)) /\
    generatedForm (VStr number).
Proof.
  intros Hclock Hrandom.
  unfold generateOrderNumber, dateNow, mathRandom. plumb.
  eexists. split; [reflexivity |].
  destruct (timestamp_six_digits _ Hclock) as [Hl6 Hd6].
  destruct (suffix_three_digits _ Hrandom) as [Hl3 Hd3].
  eexists _, _. repeat split; eauto.
Qed.

(** ** Order submission *)

Lemma generateOrderNumber_returns (s : Service) :
  exists digits s', generateOrderNumber s = (inr ("HB" ++ digits), s').
Proof.
  unfold generateOrderNumber, dateNow, mathRandom. plumb. do 2 eexists. reflexivity.
Qed.

Lemma createFallbackOrderResponse_numbered (s : Service) :
  exists r s', createFallbackOrderResponse s = (inr r, s') /\ numbered r.
Proof.
  unfold createFallbackOrderResponse, mbind at 1 2.
  unfold dateNow at 1.
  destruct (generateOrderNumber_returns (set_clockReads (S (clockReads s)) s))
    as (digits & s1 & Hnumber).
  rewrite Hnumber. unfold dateNow. plumb.
  do 2 eexists. split; [reflexivity |]. eexists. split; reflexivity.
Qed.

Lemma createFallbackOrderResponse_offline (s : Service) :
  (forall n, 100000 <= clock n) -> (forall n, belowThousand (random n)) ->
  exists r s', createFallbackOrderResponse s = (inr r, s') /\ offline r.
Proof.
  intros Hclock Hrandom.
  unfold createFallbackOrderResponse, mbind at 1 2.
  unfold dateNow at 1.
  destruct (generateOrderNumber_form (set_clockReads (S (clockReads s)) s)
              (Hclock _) (Hrandom _)) as (number & Hnumber & Hform).
  rewrite Hnumber. unfold dateNow. plumb.
  do 2 eexists. split; [reflexivity |]. split; [reflexivity |].
  eexists. split; [reflexivity | exact Hform].
Qed.

Lemma processOrderResponse_numbered (response : value) (s : Service) :
  exists r s', processOrderResponse response s = (inr r, s') /\ numbered r.
Proof.
  unfold processOrderResponse.
  destruct (processOrderResponseTry response s) as [[e | r] s1] eqn:Htry.
  - apply createFallbackOrderResponse_numbered.
  - exists r, s1. split; [reflexivity |].
    revert Htry. unfold processOrderResponseTry, mbind at 1, lift.
    destruct (extractOrderData response) as [e | orderData]; [discriminate |].
    destruct (negb (truthy orderData) && truthy response).
    + unfold mbind at 1 2. unfold dateNow at 1.
      destruct (generateOrderNumber_returns (set_clockReads (S (clockReads s)) s))
        as (digits & s2 & Hnumber).
      rewrite Hnumber. unfold dateNow. plumb.
      intros [= <- _]. eexists. split; reflexivity.
    + unfold orElse, dateNow. plumb.
      destruct (truthy (Js.or (prop orderData "id") (prop orderData "uid")));
        destruct (truthy (prop orderData "orderNumber")) eqn:Hgiven;
        cbv beta iota;
        try match goal with
          | |- context [generateOrderNumber ?s0] =>
              let H := fresh in
              destruct (generateOrderNumber_returns s0) as (? & ? & H);
              rewrite H; clear H; cbv beta iota
          end;
        destruct (truthy (prop orderData "createdAt"));
        intros [= <- _]; eexists; (split; [reflexivity |]); cbn [orderNumber confirmed];
        first [exact Hgiven | reflexivity].
Qed.

Lemma processOrderResponse_offline (response : value) (s s1 : Service) (e : jsError) :
  (forall n, 100000 <= clock n) -> (forall n, belowThousand (random n)) ->
  processOrderResponseTry response s = (inl e, s1) ->
  exists r s', processOrderResponse response s = (inr r, s') /\ offline r.
Proof.
  intros Hclock Hrandom Htry. unfold processOrderResponse. rewrite Htry.
  now apply createFallbackOrderResponse_offline.
Qed.

Lemma orderRequest_numbered (orderData : Order) (s s' : Service) (r : OrderResponse) :
  invoke (orderRequest orderData) s = (Next r, s') -> numbered r.
Proof.
  unfold invoke, orderRequest, mbind at 1.
  destruct (transformToHesburgerFormat orderData s) as [[e | sent] s1]; [discriminate |].
  unfold mbind at 1.
  destruct (httpOptions s1) as [[e | auth] s2]; [discriminate |].
  plumb. rewrite subscribe_map, subscribe_httpRequest.
  destruct (delivered _ false) as [response | e]; [| discriminate].
  destruct (processOrderResponse_numbered response
              (set_httpCalls
                 (httpCalls s2 ++
                  [{| endpoint := ClientOrderInsert; authorized := auth; body := Some sent |}])%list
                 s2)) as (r' & s3 & -> & Hnumbered).
  now intros [= <- _].
Qed.

(** A value the wrapper delivers is one the request delivered. *)
Lemma wrapperPolicy_next {T} (requestFn : M (Observable T)) (P : T -> Prop) :
  (forall s t s', invoke requestFn s = (Next t, s') -> P t) ->
  forall s t s', wrapperPolicy requestFn s = (Next t, s') -> P t.
Proof.
  intros Hrequest s t s'. unfold wrapperPolicy, retryOnceAfterRefresh.
  destruct (invoke ensureAuthenticated s) as [[a | e] s1]; [| discriminate].
  destruct (invoke requestFn s1) as [[t1 | e] s2] eqn:Hfirst.
  - intros [= <- _]. eauto.
  - destruct (unauthorized e && negb (isRefreshingToken s2)); [| discriminate].
    destruct (invoke refreshToken s2) as [[response | e'] s3]; [| discriminate].
    eauto.
Qed.

Lemma makeAuthenticatedRequest_returns {T} (requestFn : M (Observable T)) (s : Service) :
  exists o s', makeAuthenticatedRequest requestFn s = (inr o, s').
Proof.
  unfold makeAuthenticatedRequest, mbind.
  destruct (ensureAuthenticated_returns s) as (auth & s0 & ->).
  do 2 eexists. reflexivity.
Qed.


(** ** The authenticated request wrapper *)

(** A refresh with none in flight issues one [login] request. *)
Lemma forced_refresh_one_login (s : Service) :
  isRefreshingToken s = false ->
  httpCalls (snd (invoke refreshToken s)) = (httpCalls s ++ [loginCall])%list.
Proof.
  intros Hflag. unfold invoke, refreshToken, clearToken. plumb. rewrite Hflag.
  unfold login. rewrite subscribe_catchError, subscribe_map, subscribe_httpRequest.
  destruct (delivered _ true) as [response | e].
  - destruct (extractTokenFromResponse response) as [token |].
    + unfold setAuthToken, saveTokenToStorage, dateNow. plumb. reflexivity.
    + plumb. rewrite subscribe_throwError. reflexivity.
  - plumb. rewrite subscribe_throwError. reflexivity.
Qed.

(** C3, as amended: when the invoked request fails with status 401 and no
    refresh is in flight, the wrapper runs [refreshToken] once, which
    issues one [login] request, and, if that refresh succeeds, invokes the
    same request once more; what the second invocation delivers, value or
    error, is what the wrapper delivers.  A failure of the refresh and
    every other failure of the request go to the caller as they are, with
    no further request. *)
Theorem unauthorized_retry {T} (requestFn : M (Observable T)) (s : Service) :
  invoke (makeAuthenticatedRequest requestFn) s =
  match invoke ensureAuthenticated s with
  | (Next _, s1) =>
      match invoke requestFn s1 with
      | (Next t, s2) => (Next t, s2)
      | (Error e, s2) =>
          if unauthorized e && negb (isRefreshingToken s2)
          then match invoke refreshToken s2 with
               | (Next _, s3) => invoke requestFn s3
               | (Error e', s3) => (Error e', s3)
               end
          else (Error e, s2)
      end
  | (Error e, s1) => (Error e, s1)
  end /\
  (forall s2, isRefreshingToken s2 = false ->
     httpCalls (snd (invoke refreshToken s2)) = (httpCalls s2 ++ [loginCall])%list).
Proof.
  split.
  - exact (makeAuthenticatedRequest_policy requestFn s).
  - exact forced_refresh_one_login.
Qed.

(** ** Product listing *)

Lemma afterValidityCheck_calls (s : Service) :
  httpCalls (afterValidityCheck s) = httpCalls s.
Proof. unfold afterValidityCheck. destruct (hasToken (authToken s)); reflexivity. Qed.

Lemma httpOptions_returns (s : Service) :
  exists auth s', httpOptions s = (inr auth, s') /\ httpCalls s' = httpCalls s.
Proof.
  unfold httpOptions. plumb. destruct (hasToken (authToken s)).
  - rewrite isTokenStillValid_eq. do 2 eexists. split; [reflexivity |].
    apply afterValidityCheck_calls.
  - do 2 eexists. split; reflexivity.
Qed.

Lemma locateProducts_firstArray (response : value) :
  locateProducts response =
  match firstArray response with
  | Some found => found
  | None => VArr []
  end.
Proof.
  unfold locateProducts, firstArray. cbn [find].
  destruct (isArray (prop (prop response "payload") "records")); [reflexivity |].
  destruct (isArray (prop response "payload")); [reflexivity |].
  destruct (isArray response); [reflexivity |].
  destruct (isArray (prop response "data")); reflexivity.
Qed.


(** ** Concurrent callers *)

(** The first caller starts the refresh and waits for the answer to the
    [login] request. *)
Lemma arrive_first (s : Service) (subs : list (Step value)) :
  validNow s = false -> isRefreshingToken s = false ->
  exists resume,
    arrive {| service := s; subscriptions := subs |} =
    {| service := refreshing s;
       subscriptions := subs ++ [Awaiting (List.length (httpCalls s)) resume] |} /\
    forall x s', exists s'',
      resume x s' = (Settled (firstCallerReceives x), s'') /\ httpCalls s'' = httpCalls s'.
Proof.
  intros Hvalid Hflag. unfold arrive, ensureAuthenticated, mbind at 1. cbn [service].
  rewrite isTokenStillValid_eq, Hvalid.
  assert (Hflag' : isRefreshingToken (afterValidityCheck s) = false).
  { unfold afterValidityCheck. destruct (hasToken (authToken s)); exact Hflag. }
  assert (Hcalls : httpCalls (afterValidityCheck s) = httpCalls s).
  { unfold afterValidityCheck. destruct (hasToken (authToken s)); reflexivity. }
  unfold refreshToken, clearToken. plumb. rewrite Hflag'. cbv beta iota. rewrite Hflag'.
  cbv beta iota.
  eexists. split.
  - unfold refreshing. simpl. rewrite Hcalls. reflexivity.
  - intros x s'. unfold firstCallerReceives. simpl.
    destruct (delivered x true) as [response | e]; simpl.
    + destruct (extractTokenFromResponse response) as [token |]; simpl; eauto.
    + eauto.
Qed.

(** A caller that arrives while the refresh is in flight fails at once:
    the subject hands it the outcome of an earlier refresh, and there is
    no token. *)
Lemma arrive_late (s : Service) (subs : list (Step value)) :
  authToken s = None -> isRefreshingToken s = true ->
  arrive {| service := s; subscriptions := subs |} =
  {| service := s; subscriptions := subs ++ [Settled (Error refreshFailed)] |}.
Proof.
  intros Htoken Hflag. unfold arrive, ensureAuthenticated, mbind at 1. cbn [service].
  rewrite isTokenStillValid_eq. unfold validNow, afterValidityCheck.
  rewrite Htoken. cbn [hasToken andb]. plumb. rewrite Hflag. cbv beta iota.
  unfold Rx.switchMap, refreshOutcomes. cbn [Rx.switchMapStep].
  destruct (refreshTokenSubject s).
  - rewrite isTokenStillValid_eq. unfold validNow, afterValidityCheck.
    rewrite Htoken. reflexivity.
  - reflexivity.
Qed.

Lemma arrivals_late (n : nat) :
  forall (s : Service) (subs : list (Step value)),
    authToken s = None -> isRefreshingToken s = true ->
    arrivals n {| service := s; subscriptions := subs |} =
    {| service := s;
       subscriptions := subs ++ repeat (Settled (Error refreshFailed)) n |}.
Proof.
  induction n as [| n IH]; intros s subs Htoken Hflag; simpl.
  - now rewrite app_nil_r.
  - rewrite (arrive_late s subs Htoken Hflag), (IH _ _ Htoken Hflag), <- app_assoc.
    reflexivity.
Qed.

Lemma resumeAll_settled (call : nat) (x : Exchange) (n : Notification value) (m : nat)
  (s : Service) :
  resumeAll call x (repeat (Settled n) m) s = (repeat (Settled n) m, s).
Proof.
  induction m as [| m IH]; simpl; [reflexivity |]. now rewrite IH.
Qed.

Lemma received_repeat (n : Notification value) (m : nat) :
  List.map (fun st => match st with
                      | Settled n' => Some n'
                      | Awaiting _ _ => None
                      end) (repeat (Settled n) m) = repeat (Some n) m.
Proof. induction m as [| m IH]; simpl; congruence. Qed.

Lemma loginCalls_refreshing (s : Service) :
  loginCalls (refreshing s) = S (loginCalls s).
Proof.
  unfold loginCalls, refreshing. cbn [httpCalls set_httpCalls].
  replace (httpCalls (afterValidityCheck s)) with (httpCalls s)
    by (unfold afterValidityCheck; destruct (hasToken (authToken s)); reflexivity).
  rewrite filter_app, length_app. simpl. lia.
Qed.

(** C2 fails on the code.  With no valid credential and no refresh in
    flight, [n + 1] callers of [ensureAuthenticated] that subscribe before
    the transport answers issue one [login] request between them; the
    first receives what that [login] comes to; each of the [n] others has
    failed with [Token refresh failed] before the answer, and stays so
    whatever the answer is. *)
Theorem late_callers_fail (s : Service) (n : nat) (x : Exchange) :
  validNow s = false -> isRefreshingToken s = false ->
  let waiting := arrivals (S n) {| service := s; subscriptions := [] |} in
  let settled := answer (List.length (httpCalls s)) x waiting in
  loginCalls (service waiting) = S (loginCalls s) /\
  loginCalls (service settled) = S (loginCalls s) /\
  received waiting = None :: repeat (Some (Error refreshFailed)) n /\
  received settled = Some (firstCallerReceives x) :: repeat (Some (Error refreshFailed)) n.
Proof.
  intros Hvalid Hflag. cbn [arrivals].
  destruct (arrive_first s [] Hvalid Hflag) as (resume & -> & Hresume).
  rewrite arrivals_late by reflexivity. cbn [app].
  unfold answer, received. cbn [service subscriptions resumeAll List.map].
  rewrite Nat.eqb_refl.
  destruct (Hresume x (refreshing s)) as (s1 & -> & Hcalls).
  rewrite resumeAll_settled. cbn [service subscriptions List.map].
  rewrite received_repeat, loginCalls_refreshing.
  repeat split.
  unfold loginCalls at 1. rewrite Hcalls. apply loginCalls_refreshing.
Qed.

End Theorems.

(** * Instances *)

(** C6 as stated fails: with the empty string for a token, expiring at
    1000, and the clock at 0, [now < expiry] holds and the validity
    predicate returns [false]. *)
Lemma token_validity_counterexample :
  ~ (forall (env : Env) (s : Service) (token : string), authToken s = Some token ->
       fst (isTokenStillValid s) = inr (clock (clockReads s) <? tokenExpiryTime s) /\
       fst (isTokenNearExpiry s) =
         inr (clock (clockReads s) + 120000 >=? tokenExpiryTime s)).
Proof.
  intros H. destruct (H epochEnv emptyTokenService "" eq_refl) as [Hvalid _].
  vm_compute in Hvalid. discriminate Hvalid.
Qed.

Lemma token_validity_witness :
  fst (isTokenStillValid (env := epochEnv) tokenService) = inr true /\
  fst (isTokenNearExpiry (env := epochEnv) tokenService) = inr true.
Proof.
  refine (proj1 (token_validity (env := epochEnv) tokenService) "abc" eq_refl _).
  discriminate.
Defined.

Lemma addToCart_merges_witness :
  exists before after,
    cartSubject cartAfterFirstAdd =
      (before ++ {| asProduct := bareProduct 5 10; quantity := 2%float;
                    addedAt := Some 1700000000000; specialInstructions := None;
                    toppings := None |} :: after)%list /\
    forallb (fun item => negb (sameId (bareProduct 5 10) item)) before = true /\
    cartSubject cartAfterSecondAdd =
      (before ++ {| asProduct := bareProduct 5 10; quantity := (2 + 3)%float;
                    addedAt := Some 1700000000000; specialInstructions := None;
                    toppings := None |} :: after)%list /\
    List.length (cartSubject cartAfterSecondAdd) = List.length (cartSubject cartAfterFirstAdd).
Proof.
  exact (proj1 (addToCart_merges (env := quietEnv))
           cartAfterFirstAdd (bareProduct 5 10) 3%float _ eq_refl).
Defined.

Lemma updateCartQuantity_no_match_witness :
  find (hasId 7%float) (cartSubject cartAfterFirstAdd) = None /\
  updateCartQuantity 7%float 4%float cartAfterFirstAdd = (inr tt, cartAfterFirstAdd).
Proof.
  split; [reflexivity |].
  apply (updateCartQuantity_no_match cartAfterFirstAdd 7%float 4%float). reflexivity.
Defined.

Lemma price_fallback_ordering_witness :
  nullish pricedTwice = false /\
  extractPriceEnhanced (env := quietEnv) pricedTwice newService =
  match firstSome [locationPriceOf pricedTwice; productPriceOf pricedTwice;
                   fieldPriceOf pricedTwice] with
  | Some x => (inr (Num.round2 x), newService)
  | None => generateCategoryBasedPrice (env := quietEnv) pricedTwice newService
  end.
Proof.
  split; [reflexivity |].
  exact (proj1 (price_fallback_ordering (env := quietEnv)) pricedTwice newService eq_refl).
Defined.

(** C5 as stated fails: a payload whose name is an object with a
    [toString] of its own, which [String] cannot convert, has no
    category; nor have [null] and [undefined]. *)
Lemma category_closed_set_counterexample :
  ~ (forall apiProduct : value,
       exists category,
         mapApiCategory apiProduct = inr category /\ In category categories).
Proof.
  intros H. destruct (H unnamablePayload) as (category & Hrun & _).
  vm_compute in Hrun. discriminate Hrun.
Qed.

(** C3 as stated fails: the credential is valid, the request is refused
    with status 401 and no refresh is in flight, and then the [login] of
    the forced refresh is refused with status 500: the request has been
    issued once and is not issued again. *)
Lemma unauthorized_retry_counterexample :
  ~ (forall (env : Env) (s s1 s2 : Service) (a : value) (e : jsError),
       invoke ensureAuthenticated s = (Next a, s1) ->
       invoke sellingProductsRequest s1 = (Error e, s2) ->
       unauthorized e = true ->
       isRefreshingToken s2 = false ->
       listingCalls (snd (invoke (makeAuthenticatedRequest sellingProductsRequest) s)) =
       (listingCalls s + 2)%nat).
Proof.
  intros H.
  specialize (H failedRefreshEnv validTokenService _ _ _ _ eq_refl eq_refl eq_refl eq_refl).
  vm_compute in H. discriminate H.
Qed.

Section RetryScenario.

#[local] Existing Instance retryEnv.

(** The unauthorized-retry scenario: the credential is valid, the request
    is refused with status 401, the refresh succeeds and the request,
    invoked once more, succeeds. *)
Lemma unauthorized_retry_witness :
  exists products s',
    invoke (makeAuthenticatedRequest sellingProductsRequest) validTokenService =
      (Next products, s') /\
    List.map name products = [VStr "Cola"] /\
    List.map endpoint (httpCalls s') =
      [FindSellingProducts None; Login; FindSellingProducts None].
Proof.
  rewrite (proj1 (unauthorized_retry sellingProductsRequest validTokenService)).
  vm_compute. do 2 eexists. split; [reflexivity |]. split; reflexivity.
Defined.

End RetryScenario.


Section QuietScenario.

#[local] Existing Instance quietEnv.


(** Two callers and a [login] that succeeds: the first caller receives
    [true], the second has failed. *)
Lemma late_callers_fail_witness :
  validNow newService = false /\
  isRefreshingToken newService = false /\
  loginCalls
    (service (answer 0 (responded tokenResponse)
                (arrivals 2 {| service := newService; subscriptions := [] |})))
    = 1%nat /\
  received (answer 0 (responded tokenResponse)
              (arrivals 2 {| service := newService; subscriptions := [] |}))
    = [Some (Next (VBool true)); Some (Error refreshFailed)].
Proof.
  split; [reflexivity |]. split; [reflexivity |].
  pose proof (late_callers_fail newService 1 (responded tokenResponse) eq_refl eq_refl) as H.
  split; [exact (proj1 (proj2 H)) | exact (proj2 (proj2 (proj2 H)))].
Defined.

End QuietScenario.

(** * More of the service *)

Section CartStore.

Context {env : Env}.

(** ** The cart store *)

Lemma find_filter_negb {A} (p : A -> bool) (l : list A) :
  find p (filter (fun x => negb (p x)) l) = None.
Proof.
  induction l as [| x l IH]; simpl; [reflexivity |].
  destruct (p x) eqn:Hx; simpl; [assumption | now rewrite Hx].
Qed.

Lemma removeFromCart_cart (productId : Num.number) (s : Service) :
  cartSubject (snd (removeFromCart productId s)) =
  filter (fun item => negb (hasId productId item)) (cartSubject s).
Proof. reflexivity. Qed.

(** X1: after [removeFromCart(id)] no line of the cart has the id, the
    lines with another id are the ones that were there, and the storage
    holds the cart that is left. *)
Theorem removeFromCart_forgets (productId : Num.number) (s : Service) :
  let s' := snd (removeFromCart productId s) in
  fst (removeFromCart productId s) = inr tt /\
  find (hasId productId) (cartSubject s') = None /\
  (forall item, hasId productId item = false ->
     (In item (cartSubject s') <-> In item (cartSubject s))) /\
  storedCart s' = Some (cartSubject s').
Proof.
  cbv zeta. rewrite removeFromCart_cart. repeat split.
  - apply find_filter_negb.
  - intros Hin. apply filter_In in Hin. tauto.
  - intros Hin. apply filter_In. now rewrite H.
Qed.

(** X2: [removeFromCart] of an id that no line has leaves the cart as it
    is, and still publishes it to the subscribers and writes it to the
    storage, where [updateCartQuantity] does nothing. *)
Theorem removeFromCart_no_match (productId : Num.number) (s : Service) :
  find (hasId productId) (cartSubject s) = None ->
  let s' := snd (removeFromCart productId s) in
  cartSubject s' = cartSubject s /\
  cartEvents s' =
    (cartEvents s ++ [Published (cartSubject s); Saved (cartSubject s)])%list /\
  storedCart s' = Some (cartSubject s) /\
  forall amount, cartEvents (snd (updateCartQuantity productId amount s)) = cartEvents s.
Proof.
  intros Hfind. cbv zeta.
  assert (Hquiet : forall amount,
            cartEvents (snd (updateCartQuantity productId amount s)) = cartEvents s).
  { intros amount. unfold updateCartQuantity. run_m. now rewrite Hfind. }
  assert (Hsame : filter (fun item => negb (hasId productId item)) (cartSubject s)
                  = cartSubject s).
  { apply find_none_forallb in Hfind. revert Hfind.
    induction (cartSubject s) as [| x l IH]; simpl; [reflexivity |].
    intros H. apply andb_prop in H. destruct H as [Hx Hl].
    rewrite Hx, (IH Hl). reflexivity. }
  unfold removeFromCart. run_m. rewrite Hsame, <- app_assoc. auto.
Qed.

Lemma find_here {A} (p : A -> bool) (before : list A) (x : A) (after : list A) :
  forallb (fun y => negb (p y)) before = true -> p x = true ->
  find p (before ++ x :: after) = Some x.
Proof.
  intros Hbefore Hx. induction before as [| y before IH]; simpl.
  - now rewrite Hx.
  - simpl in Hbefore. apply andb_prop in Hbefore. destruct Hbefore as [Hy Hrest].
    apply negb_true_iff in Hy. rewrite Hy. auto.
Qed.

(** X3: [updateCartQuantity(id, q)] with a [q] that is not [<= 0] and a
    line of that id sets the quantity of the first such line to [q], in
    its place, keeps every other line, and publishes and saves the
    result; the line of that id is then found with the quantity [q]. *)
Theorem updateCartQuantity_sets (productId amount : Num.number) (s : Service)
  (line : CartItem) :
  find (hasId productId) (cartSubject s) = Some line ->
  PrimFloat.leb amount 0%float = false ->
  let s' := snd (updateCartQuantity productId amount s) in
  exists before after,
    cartSubject s = (before ++ line :: after)%list /\
    forallb (fun item => negb (hasId productId item)) before = true /\
    cartSubject s' = (before ++ withQuantity amount line :: after)%list /\
    find (hasId productId) (cartSubject s') = Some (withQuantity amount line) /\
    cartEvents s' =
      (cartEvents s ++ [Published (cartSubject s'); Saved (cartSubject s')])%list /\
    storedCart s' = Some (cartSubject s').
Proof.
  intros Hfind Hpos. cbv zeta.
  destruct (updateFound_split (hasId productId) (withQuantity amount) _ _ Hfind)
    as (before & after & Hcart & Hbefore & Hline & Hupd).
  exists before, after.
  unfold updateCartQuantity. run_m. rewrite Hfind, Hpos. run_m.
  rewrite Hupd, <- app_assoc. repeat split; auto.
  apply find_here; assumption.
Qed.

(** X4: [updateCartQuantity(id, q)] with [q <= 0] and a line of that id
    removes every line of that id: it is [removeFromCart(id)]. *)
Theorem updateCartQuantity_floor (productId amount : Num.number) (s : Service)
  (line : CartItem) :
  find (hasId productId) (cartSubject s) = Some line ->
  PrimFloat.leb amount 0%float = true ->
  updateCartQuantity productId amount s = removeFromCart productId s /\
  find (hasId productId) (cartSubject (snd (updateCartQuantity productId amount s))) = None.
Proof.
  intros Hfind Hneg.
  assert (Heq : updateCartQuantity productId amount s = removeFromCart productId s).
  { unfold updateCartQuantity. run_m. now rewrite Hfind, Hneg. }
  split; [assumption |].
  rewrite Heq, removeFromCart_cart. apply find_filter_negb.
Qed.

(** The ids of a cart. *)
Lemma distinctIds_ids (a b : list CartItem) :
  List.map (fun item => id (asProduct item)) a = List.map (fun item => id (asProduct item)) b ->
  distinctIds a -> distinctIds b.
Proof.
  revert b. induction a as [| x a IH]; intros [| y b]; simpl; try discriminate; auto.
  intros [= Hxy Hab] [Hx Ha]. split; [| now apply IH].
  rewrite <- Hxy. clear - Hab Hx. revert b Hab Hx.
  induction a as [| z a IH]; intros [| w b]; simpl; try discriminate; auto.
  intros [= Hzw Hab] H. apply andb_prop in H. destruct H as [Hz Ha].
  rewrite <- Hzw, Hz. simpl. now apply IH.
Qed.

Lemma updateFound_ids (p : CartItem -> bool) (q : CartItem -> Num.number)
  (cart : list CartItem) :
  List.map (fun item => id (asProduct item))
           (updateFound p (fun item => withQuantity (q item) item) cart) =
  List.map (fun item => id (asProduct item)) cart.
Proof.
  induction cart as [| x cart IH]; simpl; [reflexivity |].
  destruct (p x); simpl; [reflexivity | now rewrite IH].
Qed.

Lemma distinctIds_filter (p : CartItem -> bool) (cart : list CartItem) :
  distinctIds cart -> distinctIds (filter p cart).
Proof.
  induction cart as [| x cart IH]; simpl; [auto |].
  intros [Hx Hcart]. destruct (p x); simpl; [| auto].
  split; [| auto]. clear - Hx. induction cart as [| y cart IH]; simpl in *; [reflexivity |].
  apply andb_prop in Hx. destruct Hx as [Hy Hrest].
  destruct (p y); simpl; [rewrite Hy |]; auto.
Qed.

Lemma distinctIds_append (cart : list CartItem) (line : CartItem) :
  distinctIds cart ->
  find (sameId (asProduct line)) cart = None ->
  distinctIds (cart ++ [line]).
Proof.
  induction cart as [| x cart IH]; simpl; [auto |].
  intros [Hx Hcart] Hfind. unfold sameId at 1 in Hfind.
  destruct (strict_eq (id (asProduct x)) (id (asProduct line))) eqn:Hxl; [discriminate |].
  split; [| auto]. rewrite forallb_app, Hx. simpl. now rewrite Hxl.
Qed.

Lemma addToCart_cart (product : Product) (amount : Num.number) (s : Service) :
  cartSubject (snd (addToCart product amount s)) =
  match find (sameId product) (cartSubject s) with
  | Some _ =>
      updateFound (sameId product)
        (fun existingItem => withQuantity (quantity existingItem + amount)%float existingItem)
        (cartSubject s)
  | None =>
      (cartSubject s ++
       [{| asProduct := product; quantity := amount;
           addedAt := Some (clock (clockReads s));
           specialInstructions := None; toppings := None |}])%list
  end.
Proof.
  unfold addToCart. run_m. destruct (find (sameId product) (cartSubject s)); reflexivity.
Qed.

Lemma updateCartQuantity_cart (productId amount : Num.number) (s : Service) :
  cartSubject (snd (updateCartQuantity productId amount s)) =
  match find (hasId productId) (cartSubject s) with
  | Some _ =>
      if PrimFloat.leb amount 0%float
      then filter (fun item => negb (hasId productId item)) (cartSubject s)
      else updateFound (hasId productId) (withQuantity amount) (cartSubject s)
  | None => cartSubject s
  end.
Proof.
  unfold updateCartQuantity. run_m.
  destruct (find (hasId productId) (cartSubject s)); [| reflexivity].
  destruct (PrimFloat.leb amount 0%float); reflexivity.
Qed.

(** X5: no method of the cart store gives two lines the same id: if no
    line of the cart has an id strictly equal to that of a later line,
    the same holds after [addToCart], [removeFromCart],
    [updateCartQuantity] and [clearCart]. *)
Theorem cart_ids_stay_distinct (s : Service) :
  distinctIds (cartSubject s) ->
  (forall product amount, distinctIds (cartSubject (snd (addToCart product amount s)))) /\
  (forall productId, distinctIds (cartSubject (snd (removeFromCart productId s)))) /\
  (forall productId amount,
     distinctIds (cartSubject (snd (updateCartQuantity productId amount s)))) /\
  distinctIds (cartSubject (snd (clearCart s))).
Proof.
  intros Hs. repeat split.
  - intros product amount. rewrite addToCart_cart.
    destruct (find (sameId product) (cartSubject s)) eqn:Hfind.
    + eapply distinctIds_ids; [| exact Hs]. symmetry.
      apply (updateFound_ids _ (fun item => (quantity item + amount)%float)).
    + now apply distinctIds_append.
  - intros productId. rewrite removeFromCart_cart. now apply distinctIds_filter.
  - intros productId amount. rewrite updateCartQuantity_cart.
    destruct (find (hasId productId) (cartSubject s)); [| assumption].
    destruct (PrimFloat.leb amount 0%float).
    + now apply distinctIds_filter.
    + eapply distinctIds_ids; [| exact Hs]. symmetry.
      apply (updateFound_ids _ (fun _ => amount)).
Qed.

(** X6: the storage follows the cart: if the stored cart is the cart of
    the subject, or nothing is stored and the cart is empty, then so it is
    after [addToCart], [removeFromCart], [updateCartQuantity] and
    [clearCart]. *)
Theorem cart_storage_in_step (s : Service) :
  inStep s ->
  (forall product amount, inStep (snd (addToCart product amount s))) /\
  (forall productId, inStep (snd (removeFromCart productId s))) /\
  (forall productId amount, inStep (snd (updateCartQuantity productId amount s))) /\
  inStep (snd (clearCart s)).
Proof.
  intros Hs. unfold inStep. repeat split.
  - intros product amount. left. unfold addToCart. run_m.
    destruct (find (sameId product) (cartSubject s)); reflexivity.
  - intros productId. left. reflexivity.
  - intros productId amount. unfold updateCartQuantity. run_m.
    destruct (find (hasId productId) (cartSubject s)); [| exact Hs].
    destruct (PrimFloat.leb amount 0%float); left; reflexivity.
  - right. split; reflexivity.
Qed.

(** X7: adding a product that has no line yet raises the item count by
    the amount and the total by the price times the amount, as the last
    term of the sums. *)
Theorem addToCart_new_line (product : Product) (amount : Num.number) (s : Service) :
  find (sameId product) (cartSubject s) = None ->
  let s' := snd (addToCart product amount s) in
  List.length (cartSubject s') = S (List.length (cartSubject s)) /\
  getCartItemCount s' = (getCartItemCount s + amount)%float /\
  getCartTotal s' = (getCartTotal s + price product * amount)%float.
Proof.
  intros Hfind. cbv zeta. unfold getCartItemCount, getCartTotal.
  rewrite addToCart_cart, Hfind, length_app, !fold_left_app. simpl.
  repeat split. lia.
Qed.

End CartStore.

Section TokenLifecycle.

Context {env : Env}.

(** ** The token lifecycle *)

Lemma setAuthToken_eq (token : string) (s : Service) :
  setAuthToken token s =
  (inr tt,
   set_storedToken
     (Some (Str.trim (Str.stripBearer token),
            Str.of_Z (clock (clockReads s) + 23 * 60 * 60 * 1000)))
     (set_tokenExpiryTime (clock (clockReads s) + 23 * 60 * 60 * 1000)
        (set_clockReads (S (clockReads s))
           (set_authToken (Some (Str.trim (Str.stripBearer token))) s)))).
Proof. reflexivity. Qed.

(** X8: a token that [setAuthToken] has just stored is held without its
    [Bearer] prefix and the blanks around it, expires 23 hours after the
    clock was read, and is in the storage with that expiry; the next
    check finds it valid exactly when it is not empty and the clock has
    not moved by 23 hours, and near its expiry exactly when it is not
    empty and the clock has moved by 22 hours and 58 minutes. *)
Theorem setAuthToken_then_checks (token : string) (s : Service) :
  let held := Str.trim (Str.stripBearer token) in
  let now := clock (clockReads s) in
  let next := clock (S (clockReads s)) in
  let s' := snd (setAuthToken token s) in
  authToken s' = Some held /\
  tokenExpiryTime s' = now + 82800000 /\
  storedToken s' = Some (held, Str.of_Z (now + 82800000)) /\
  fst (isTokenStillValid s') = inr (negb (String.eqb held "") && (next <? now + 82800000)) /\
  fst (isTokenNearExpiry s') = inr (negb (String.eqb held "") && (now + 82680000 <=? next)).
Proof.
  cbv zeta. rewrite setAuthToken_eq. cbn [snd].
  repeat split.
  - unfold isTokenStillValid. run_m.
    destruct (String.eqb (Str.trim (Str.stripBearer token)) ""); reflexivity.
  - unfold isTokenNearExpiry. run_m.
    destruct (String.eqb (Str.trim (Str.stripBearer token)) ""); [reflexivity |].
    simpl. unfold ret. f_equal.
    destruct (Z.leb_spec (clock (clockReads s) + 82680000) (clock (S (clockReads s))));
      [apply Z.leb_le | apply Z.leb_gt]; lia.
Qed.

Lemma find_split {A} (p : A -> bool) (l : list A) :
  match find p l with
  | Some x => exists before after,
      l = (before ++ x :: after)%list /\ forallb (fun y => negb (p y)) before = true /\
      p x = true
  | None => forallb (fun y => negb (p y)) l = true
  end.
Proof.
  induction l as [| x l IH]; simpl; [reflexivity |].
  destruct (p x) eqn:Hx.
  - exists [], l. auto.
  - destruct (find p l) as [y |]; [| exact IH].
    destruct IH as (before & after & -> & Hb & Hy).
    exists (x :: before), after. simpl. rewrite Hx. auto.
Qed.

(** X9: the token that [extractTokenFromResponse] returns is the first of
    the places it looks at that holds a string of more than 10
    characters; it returns [null] exactly when none of them does. *)
Theorem extractTokenFromResponse_first (response : value) :
  match extractTokenFromResponse response with
  | Some token =>
      (10 < String.length token)%nat /\
      exists before after,
        possibleTokenPaths response = (before ++ VStr token :: after)%list /\
        forallb (fun place => negb (longString place)) before = true
  | None => forallb (fun place => negb (longString place)) (possibleTokenPaths response) = true
  end.
Proof.
  unfold extractTokenFromResponse.
  change (fun tokenPath : value =>
            match tokenPath with
            | VStr t => (10 <? String.length t)%nat
            | _ => false
            end) with longString.
  generalize (find_split longString (possibleTokenPaths response)).
  destruct (find longString (possibleTokenPaths response)) as [place |]; [| auto].
  intros (before & after & Hsplit & Hbefore & Hplace).
  destruct place; try discriminate.
  split; [now apply Nat.ltb_lt |]. eauto.
Qed.

(** What a subscription to [login] comes to. *)
Lemma subscribe_login (s : Service) :
  Rx.subscribe login s =
  let s0 := set_httpCalls (httpCalls s ++ [loginCall])%list s in
  match delivered (network (List.length (httpCalls s))) true with
  | Next response =>
      match extractTokenFromResponse response with
      | Some token =>
          (Next response,
           set_selfTests (S (selfTests s))
             (set_refreshTokenSubject true
                (set_isRefreshingToken false (snd (setAuthToken token s0)))))
      | None =>
          (Error (handleError (JsError "Error" "No authentication token received")),
           set_refreshTokenSubject false (set_isRefreshingToken false s0))
      end
  | Error e =>
      (Error (handleError e),
       set_refreshTokenSubject false (set_isRefreshingToken false s0))
  end.
Proof.
  unfold login. rewrite subscribe_catchError, subscribe_map, subscribe_httpRequest.
  cbv zeta. fold loginCall.
  destruct (delivered _ true) as [response | e].
  - destruct (extractTokenFromResponse response) as [token |].
    + plumb. rewrite setAuthToken_eq. reflexivity.
    + plumb. rewrite subscribe_throwError. reflexivity.
  - plumb. rewrite subscribe_throwError. reflexivity.
Qed.

(** X10: a subscription to [login] issues one request, without an
    [Authorization] header, and ends with no refresh in flight.  If it
    delivers, the response holds a token, which is stored with an expiry
    23 hours ahead, the refresh subject holds [true], and one self-test is
    scheduled; if it fails, the error has no status, the refresh subject
    holds [false], the token and its expiry are what they were, and no
    self-test is scheduled. *)
Theorem login_outcomes (s : Service) :
  let s' := snd (Rx.subscribe login s) in
  httpCalls s' = (httpCalls s ++ [loginCall])%list /\
  isRefreshingToken s' = false /\
  cartSubject s' = cartSubject s /\
  match fst (Rx.subscribe login s) with
  | Next response =>
      exists token,
        extractTokenFromResponse response = Some token /\
        authToken s' = Some (Str.trim (Str.stripBearer token)) /\
        tokenExpiryTime s' = clock (clockReads s) + 82800000 /\
        storedToken s' =
          Some (Str.trim (Str.stripBearer token), Str.of_Z (clock (clockReads s) + 82800000)) /\
        refreshTokenSubject s' = true /\
        selfTests s' = S (selfTests s)
  | Error e =>
      error_status e = None /\
      refreshTokenSubject s' = false /\
      authToken s' = authToken s /\
      tokenExpiryTime s' = tokenExpiryTime s /\
      storedToken s' = storedToken s /\
      selfTests s' = selfTests s
  end.
Proof.
  cbv zeta. rewrite subscribe_login. cbv zeta.
  destruct (delivered _ true) as [response | e].
  - destruct (extractTokenFromResponse response) as [token |] eqn:Htoken.
    + rewrite setAuthToken_eq. cbn. repeat split. exists token. repeat split. exact Htoken.
    + cbn. repeat split.
  - cbn. repeat split.
Qed.

(** X11: [refreshToken] while a refresh is in flight issues no request and
    leaves the service as it is: the caller receives at once what the
    refresh subject holds, the outcome of an earlier refresh.  With none
    in flight it drops the token, sends one [login] request, and ends
    with no refresh in flight; if that [login] fails, no token is left, in
    the service or in the storage, whatever was there before. *)
Theorem refreshToken_outcomes (s : Service) :
  if isRefreshingToken s
  then invoke refreshToken s =
       (if refreshTokenSubject s then Next (VBool true) else Error refreshFailed, s)
  else
    let s' := snd (invoke refreshToken s) in
    httpCalls s' = (httpCalls s ++ [loginCall])%list /\
    isRefreshingToken s' = false /\
    match fst (invoke refreshToken s) with
    | Next response => exists token, authToken s' = Some token /\ refreshTokenSubject s' = true
    | Error e =>
        authToken s' = None /\ tokenExpiryTime s' = 0 /\ storedToken s' = None /\
        refreshTokenSubject s' = false
    end.
Proof.
  unfold invoke, refreshToken, clearToken. plumb.
  destruct (isRefreshingToken s) eqn:Hflag.
  - rewrite subscribe_switchMap, subscribe_refreshOutcomes.
    destruct (refreshTokenSubject s); reflexivity.
  - cbv beta iota zeta. rewrite subscribe_login. cbv zeta.
    destruct (delivered _ true) as [response | e].
    + destruct (extractTokenFromResponse response) as [token |].
      * rewrite setAuthToken_eq. cbn. repeat split. eauto.
      * cbn. repeat split.
    + cbn. repeat split.
Qed.

(** X12: [forceReauth] sends a [login] request whether or not a refresh is
    in flight, and ends with none in flight; if the [login] fails, no
    token is left. *)
Theorem forceReauth_logs_in (s : Service) :
  let s' := snd (invoke forceReauth s) in
  httpCalls s' = (httpCalls s ++ [loginCall])%list /\
  isRefreshingToken s' = false /\
  match fst (invoke forceReauth s) with
  | Next response =>
      exists token,
        extractTokenFromResponse response = Some token /\
        authToken s' = Some (Str.trim (Str.stripBearer token))
  | Error e => authToken s' = None /\ tokenExpiryTime s' = 0 /\ storedToken s' = None
  end.
Proof.
  unfold invoke, forceReauth, clearToken. plumb. cbv beta iota zeta.
  rewrite subscribe_login. cbv zeta.
  destruct (delivered _ true) as [response | e].
  - destruct (extractTokenFromResponse response) as [token |] eqn:Htoken.
    + rewrite setAuthToken_eq. cbn. repeat split. eauto.
    + cbn. repeat split.
  - cbn. repeat split.
Qed.

(** X13: when the timer finds a token near its expiry and no refresh in
    flight, it drops the token at once and sends a [login] request; every
    caller of [ensureAuthenticated] that arrives before the answer fails
    with [Token refresh failed], also when the token was still valid. *)
Theorem autoRefresh_blocks_callers (s : Service) (subs : list (Step value)) (n : nat) :
  hasToken (authToken s) = true ->
  tokenExpiryTime s <= clock (clockReads s) + 120000 ->
  isRefreshingToken s = false ->
  let ticked := autoRefreshTick {| service := s; subscriptions := subs |} in
  authToken (service ticked) = None /\
  isRefreshingToken (service ticked) = true /\
  httpCalls (service ticked) = (httpCalls s ++ [loginCall])%list /\
  received ticked = (received {| service := s; subscriptions := subs |} ++ [None])%list /\
  received (arrivals n ticked) =
    (received ticked ++ List.repeat (Some (Error refreshFailed)) n)%list.
Proof.
  intros Htoken Hnear Hflag. cbv zeta.
  assert (Hnear' : (tokenExpiryTime s <=? clock (clockReads s) + 2 * 60 * 1000) = true)
    by (apply Z.leb_le; lia).
  assert (Hticked : exists resume,
    autoRefreshTick {| service := s; subscriptions := subs |} =
    {| service :=
         set_httpCalls (httpCalls s ++ [loginCall])%list
           (set_storedToken None
              (set_tokenExpiryTime 0
                 (set_authToken None
                    (set_isRefreshingToken true (set_clockReads (S (clockReads s)) s)))));
       subscriptions := (subs ++ [Awaiting (List.length (httpCalls s)) resume])%list |}).
  { unfold autoRefreshTick. cbn [service subscriptions]. rewrite Htoken.
    unfold isTokenNearExpiry. plumb. rewrite Htoken. cbn [negb].
    unfold dateNow. plumb. cbv beta iota zeta. cbn [tokenExpiryTime set_clockReads].
    rewrite Hnear'. cbn [isRefreshingToken set_clockReads]. rewrite Hflag. cbn [negb].
    unfold refreshToken, clearToken. plumb. cbn [isRefreshingToken set_clockReads].
    rewrite Hflag. cbv beta iota. eexists. reflexivity. }
  destruct Hticked as (resume & ->). cbn [service subscriptions].
  repeat split.
  - unfold received. cbn [subscriptions]. rewrite map_app. reflexivity.
  - rewrite arrivals_late by reflexivity.
    unfold received. cbn [subscriptions]. rewrite !map_app, received_repeat. reflexivity.
Qed.

End TokenLifecycle.

(** ** The response normaliser *)

Lemma mbind_inr {A B} (m : M A) (k : A -> M B) (s s' : Service) (b : B) :
  mbind m k s = (inr b, s') ->
  exists a s1, m s = (inr a, s1) /\ k a s1 = (inr b, s').
Proof.
  unfold mbind. destruct (m s) as [[e | a] s1]; [discriminate | eauto].
Qed.

Lemma lift_inr {A} (r : result A) (s s' : Service) (a : A) :
  lift r s = (inr a, s') -> r = inr a /\ s' = s.
Proof. unfold lift. intros [= -> ->]. auto. Qed.

(** Takes a successful run of a method body apart, bind by bind. *)
Ltac unbind H :=
  repeat (let a := fresh "a" in
          let s := fresh "s" in
          let Ha := fresh "Ha" in
          apply mbind_inr in H; destruct H as (a & s & Ha & H);
          try (apply lift_inr in Ha; destruct Ha as [Ha ->])).

Section Normaliser.

Context {env : Env}.

Lemma mmap_inr {A B} (f : A -> M B) (xs : list A) :
  forall (s s' : Service) (ys : list B),
    mmap f xs s = (inr ys, s') ->
    Forall2 (fun x y => exists s1 s2, f x s1 = (inr y, s2)) xs ys.
Proof.
  induction xs as [| x xs IH]; simpl; intros s s' ys H.
  - unfold mret, ret in H. injection H as <- _. constructor.
  - apply mbind_inr in H. destruct H as (y & s1 & Hy & H).
    apply mbind_inr in H. destruct H as (ys' & s2 & Hys & H).
    unfold mret, ret in H. injection H as <- _.
    constructor; [eauto | eapply IH; eauto].
Qed.

Lemma transformProduct_inr (apiProduct : value) (s s' : Service) (product : Product) :
  transformProduct apiProduct s = (inr product, s') ->
  rawApiData product = apiProduct /\
  checkAvailability apiProduct = inr (isAvailable product) /\
  mapApiCategory apiProduct = inr (category product) /\
  extractDescription apiProduct = inr (description product) /\
  extractAllergens apiProduct = inr (allergens product) /\
  estimatePreparationTime apiProduct = inr (estimatedTime product) /\
  extractLocationPrices apiProduct = inr (locationPrices product) /\
  (exists s1 s2, extractPriceEnhanced apiProduct s1 = (inr (price product), s2)) /\
  (exists s1 s2, generateImageUrlEnhanced apiProduct s1 = (inr (image product), s2)) /\
  (exists s1 s2, determinePopularity apiProduct s1 = (inr (isPopular product), s2)).
Proof.
  unfold transformProduct. intros H. unbind H.
  unfold mret, ret in H. injection H as <- _.
  repeat split; try eassumption; do 2 eexists; eassumption.
Qed.

Lemma processProducts_listed (raw : list value) (s s' : Service)
  (products : list Product) :
  processProducts (VArr raw) s = (inr products, s') ->
  List.map rawApiData products = filter available raw /\
  forallb isAvailable products = true.
Proof.
  unfold processProducts. intros H. unbind H.
  unfold mret, ret in H. injection H as <- _.
  apply mmap_inr in Ha. clear - Ha.
  induction Ha as [| x y xs ys (s1 & s2 & Hxy) _ IH]; simpl; [auto |].
  destruct (transformProduct_inr _ _ _ _ Hxy) as (Hraw & Havail & _).
  unfold available at 1. rewrite Havail.
  destruct IH as [IHraw IHall].
  destruct (isAvailable y) eqn:Hy; simpl; rewrite ?Hy, ?Hraw, IHraw; auto.
Qed.

(** X14: the products [processProducts] returns are those of the payloads
    that [checkAvailability] accepts, one for each, in the order of the
    payloads; each is marked available and carries its payload. *)
Theorem processProducts_keeps_available (raw : list value) (s s' : Service)
  (products : list Product) :
  processProducts (VArr raw) s = (inr products, s') ->
  List.map rawApiData products = filter available raw /\
  forallb isAvailable products = true.
Proof. exact (processProducts_listed raw s s' products). Qed.

(** *** When the normaliser returns *)

Lemma toString_inr (v : value) (text : string) :
  Js.toString v = inr text -> plain v = true.
Proof. intros H. pose proof (toString_plain v) as Hv. now rewrite H in Hv. Qed.

Lemma toString_returns (v : value) :
  plain v = true -> exists text, Js.toString v = inr text.
Proof.
  intros H. pose proof (toString_plain v) as Hv.
  destruct (Js.toString v) as [e | text]; [| eauto].
  destruct Hv as [Hv _]. congruence.
Qed.

Lemma lowerText_inr (v : value) (text : string) :
  lowerText v = inr text -> plain (Js.or v (VStr "")) = true.
Proof. intros H. pose proof (lowerText_plain v) as Hv. now rewrite H in Hv. Qed.

Lemma lowerText_returns (v : value) :
  plain (Js.or v (VStr "")) = true -> exists text, lowerText v = inr text.
Proof.
  intros H. pose proof (lowerText_plain v) as Hv.
  destruct (lowerText v) as [e | text]; [| eauto].
  destruct Hv as [Hv _]. congruence.
Qed.

Lemma plain_or (v w : value) :
  plain w = true -> plain (Js.or v w) = true <-> (truthy v = true -> plain v = true).
Proof.
  intros Hw. unfold Js.or. destruct (truthy v); split; auto. discriminate.
Qed.

Lemma toNumber_inr (v : value) (x : Num.number) :
  Js.toNumber v = inr x -> plain v = true.
Proof.
  destruct v; try reflexivity; unfold Js.toNumber;
    match goal with
    | |- context [Js.toString ?w] =>
        pose proof (toString_plain w) as Hw; destruct (Js.toString w); [discriminate | auto]
    end.
Qed.

Lemma toNumber_returns (v : value) :
  plain v = true -> exists x, Js.toNumber v = inr x.
Proof.
  intros H. destruct v; try (eexists; reflexivity); unfold Js.toNumber;
    destruct (toString_returns _ H) as [text ->]; eexists; reflexivity.
Qed.

Lemma mapApiCategory_categorisable (apiProduct : value) :
  (exists category, mapApiCategory apiProduct = inr category) <->
  categorisable apiProduct = true.
Proof.
  unfold categorisable. destruct (nullish apiProduct) eqn:H.
  - destruct (get_nullish apiProduct "name" H) as [e He].
    unfold mapApiCategory. rewrite He. cbn. split; [intros [c Hc] |]; discriminate.
  - rewrite (mapApiCategory_first_match _ H).
    pose proof (searchTextOf_plain apiProduct) as Hplain.
    destruct (searchTextOf apiProduct) as [e | text]; cbn [bind negb andb].
    + destruct Hplain as [Hfalse _]. rewrite Hfalse.
      split; [intros [c Hc] |]; discriminate.
    + rewrite Hplain. split; eauto.
Qed.

Lemma categorisable_parts (apiProduct : value) :
  categorisable apiProduct = true ->
  nullish apiProduct = false /\
  plain (Js.or (prop apiProduct "name") (VStr "")) = true /\
  exists category, mapApiCategory apiProduct = inr category.
Proof.
  intros H. split; [| split].
  - unfold categorisable in H. destruct (nullish apiProduct); [discriminate | reflexivity].
  - unfold categorisable in H.
    destruct (plain (Js.or (prop apiProduct "name") (VStr "")));
      [reflexivity | rewrite andb_false_r in H; discriminate].
  - now apply mapApiCategory_categorisable.
Qed.

Lemma orRandomBelow_returns (v : value) (n : Num.number) (s : Service) :
  exists v' s',
    orRandomBelow v n s = (inr v', s') /\
    (plain v' = true <-> plain (Js.or v (VStr "")) = true).
Proof.
  unfold orRandomBelow, Js.or. destruct (truthy v).
  - do 2 eexists. split; [reflexivity | tauto].
  - do 2 eexists. split; [reflexivity | simpl; tauto].
Qed.

Lemma extractPriceEnhanced_returns (apiProduct : value) (s : Service) :
  categorisable apiProduct = true ->
  exists x s', extractPriceEnhanced apiProduct s = (inr x, s').
Proof.
  intros Hcat. destruct (categorisable_parts _ Hcat) as (H & Hname & category & Hcategory).
  unfold extractPriceEnhanced, generateCategoryBasedPrice.
  rewrite (get_not_nullish _ _ H), Hcategory.
  destruct (lowerText_returns _ Hname) as [name ->].
  unfold mbind at 1, lift at 1.
  destruct (match prop apiProduct "locationPrices" with
            | VArr l => scanLocationPrices l
            | _ => None
            end); [do 2 eexists; reflexivity |].
  destruct (positive_number _); [do 2 eexists; reflexivity |].
  destruct (scanPriceFields _ _); [do 2 eexists; reflexivity |].
  unfold mbind at 1, lift at 1. unfold mbind at 1, lift at 1.
  destruct (match table_lookup _ basePrices with Some r => r | None => _ end).
  do 2 eexists; reflexivity.
Qed.

(** The four kinds of image source, and what each holds. *)
Lemma getImageSource_cases (apiProduct : value) (kind src : string) :
  getImageSource apiProduct = inr (kind, src) ->
  kind = "imageUid" \/
  (kind = "base64" /\ Str.startsWith src "data:image/" = true) \/
  (kind = "directUrl" /\ Str.startsWith src "http" = true) \/
  kind = "fallback".
Proof.
  unfold getImageSource. destruct (get apiProduct "imageUid") as [e | imageUid];
    [discriminate |].
  unfold bind, ret.
  set (fromImageUid := match imageUid with VStr u => _ | _ => None end).
  assert (Huid : forall k v, fromImageUid = Some (k, v) -> k = "imageUid").
  { subst fromImageUid. intros k v.
    destruct imageUid; try discriminate.
    destruct (10 <? String.length s)%nat; [intros [= <- _]; reflexivity | discriminate]. }
  set (fromImage := match prop apiProduct "image" with VStr i => _ | _ => None end).
  assert (Himage : forall k v, fromImage = Some (k, v) ->
            k = "imageUid" \/ (k = "base64" /\ Str.startsWith v "data:image/" = true)).
  { subst fromImage. intros k v.
    destruct (prop apiProduct "image"); try discriminate.
    destruct (String.eqb s ""); [discriminate |].
    destruct (Str.startsWith s "data:image/") eqn:Hdata; [intros [= <- <-]; auto |].
    destruct ((20 <? String.length s)%nat && negb (Str.includes s " "));
      [intros [= <- _]; auto | discriminate]. }
  set (fromImageUrl := match prop apiProduct "imageUrl" with VStr u => _ | _ => None end).
  assert (Hurl : forall k v, fromImageUrl = Some (k, v) ->
            (k = "base64" /\ Str.startsWith v "data:image/" = true) \/
            (k = "directUrl" /\ Str.startsWith v "http" = true)).
  { subst fromImageUrl. intros k v.
    destruct (prop apiProduct "imageUrl"); try discriminate.
    destruct (String.eqb s ""); [discriminate |].
    destruct (Str.startsWith s "data:image/") eqn:Hdata; [intros [= <- <-]; auto |].
    destruct (Str.startsWith s "http") eqn:Hhttp; [intros [= <- <-]; auto | discriminate]. }
  destruct fromImageUid as [[k v] |] eqn:H1.
  { intros [= <- <-]. left. exact (Huid _ _ eq_refl). }
  destruct fromImage as [[k v] |] eqn:H2.
  { intros [= <- <-]. destruct (Himage _ _ eq_refl) as [-> | H]; auto. }
  destruct fromImageUrl as [[k v] |] eqn:H3.
  { intros [= <- <-]. destruct (Hurl _ _ eq_refl) as [H | H]; auto. }
  intros [= <- <-]. auto.
Qed.

Lemma getImageSource_returns (apiProduct : value) :
  nullish apiProduct = false ->
  exists kind src, getImageSource apiProduct = inr (kind, src).
Proof.
  intros H. unfold getImageSource. rewrite (get_not_nullish _ _ H).
  unfold bind, ret.
  match goal with |- exists kind src, inr ?p = _ => exists (fst p), (snd p) end.
  now rewrite <- surjective_pairing.
Qed.

(** The stock photograph: an address, when the [id] converts. *)
Lemma generateCategoryBasedImageUrl_inr (apiProduct : value) (s s' : Service)
  (url : string) :
  generateCategoryBasedImageUrl apiProduct s = (inr url, s') ->
  Str.startsWith url "http" = true /\
  plain (Js.or (prop apiProduct "id") (VStr "")) = true.
Proof.
  unfold generateCategoryBasedImageUrl. intros H. unbind H.
  destruct (orRandomBelow_returns (prop apiProduct "id") 1000%float s) as (v & s1 & Hv & Hplain).
  rewrite Hv in Ha0. injection Ha0 as <- <-.
  unfold mret, ret in H. injection H as <- _.
  split; [reflexivity |]. apply Hplain. exact (toString_inr _ _ Ha1).
Qed.

Lemma generateCategoryBasedImageUrl_returns (apiProduct : value) (s : Service) :
  categorisable apiProduct = true ->
  plain (Js.or (prop apiProduct "id") (VStr "")) = true ->
  exists url s', generateCategoryBasedImageUrl apiProduct s = (inr url, s').
Proof.
  intros Hcat Hid. destruct (categorisable_parts _ Hcat) as (_ & _ & category & Hcategory).
  unfold generateCategoryBasedImageUrl. rewrite Hcategory.
  unfold mbind at 1, lift at 1. unfold mbind at 1.
  destruct (orRandomBelow_returns (prop apiProduct "id") 1000%float s) as (v & s1 & -> & Hplain).
  destruct (toString_returns v (proj2 Hplain Hid)) as [sig ->].
  do 2 eexists. reflexivity.
Qed.

(** What [generateImageUrlEnhanced] needs beyond a category. *)
Lemma generateImageUrlEnhanced_inr (apiProduct : value) (s s' : Service) (url : string) :
  generateImageUrlEnhanced apiProduct s = (inr url, s') ->
  (Str.startsWith url "http" = true \/ Str.startsWith url "data:image/" = true) /\
  match getImageSource apiProduct with
  | inr (kind, _) =>
      if String.eqb kind "fallback" then plain (Js.or (prop apiProduct "id") (VStr ""))
      else true
  | inl _ => true
  end = true.
Proof.
  unfold generateImageUrlEnhanced. intros H.
  apply mbind_inr in H. destruct H as ([kind src] & s1 & Hsource & H).
  apply lift_inr in Hsource. destruct Hsource as [Hsource ->].
  destruct (get apiProduct "name") as [e | n]; [discriminate |]. cbn [bind] in Hsource.
  rewrite Hsource. cbv beta iota zeta in H.
  destruct (getImageSource_cases _ _ _ Hsource)
    as [-> | [[-> Hdata] | [[-> Hhttp] | ->]]];
    cbn [String.eqb Ascii.eqb Bool.eqb] in *.
  - unfold mret, ret in H. injection H as <- _. split; [left |]; reflexivity.
  - unfold mret, ret in H. injection H as <- _. auto.
  - unfold mret, ret in H. injection H as <- _. auto.
  - destruct (generateCategoryBasedImageUrl_inr _ _ _ _ H) as [Hhttp Hid]. auto.
Qed.

Lemma generateImageUrlEnhanced_returns (apiProduct : value) (s : Service) :
  categorisable apiProduct = true ->
  match getImageSource apiProduct with
  | inr (kind, _) =>
      if String.eqb kind "fallback" then plain (Js.or (prop apiProduct "id") (VStr ""))
      else true
  | inl _ => true
  end = true ->
  exists url s', generateImageUrlEnhanced apiProduct s = (inr url, s').
Proof.
  intros Hcat Himage. destruct (categorisable_parts _ Hcat) as (H & _).
  unfold generateImageUrlEnhanced. rewrite (get_not_nullish _ _ H).
  destruct (getImageSource_returns _ H) as (kind & src & Hsource).
  rewrite Hsource in Himage. cbn [bind]. rewrite Hsource. unfold mbind at 1, lift at 1.
  destruct (getImageSource_cases _ _ _ Hsource)
    as [-> | [[-> Hdata] | [[-> Hhttp] | ->]]];
    cbn [String.eqb Ascii.eqb Bool.eqb] in *; try (do 2 eexists; reflexivity).
  now apply generateCategoryBasedImageUrl_returns.
Qed.

(** What [determinePopularity] converts: the name and the sales count. *)
Lemma determinePopularity_inr (apiProduct : value) (s s' : Service) (popular : bool) :
  determinePopularity apiProduct s = (inr popular, s') ->
  plain (Js.or (Js.or (prop apiProduct "salesCount") (prop apiProduct "popularity"))
               (VNum 0%float)) = true.
Proof.
  unfold determinePopularity. intros H.
  apply mbind_inr in H. destruct H as (n & s1 & _ & H).
  apply mbind_inr in H. destruct H as (name & s2 & _ & H).
  apply mbind_inr in H. destruct H as (count & s3 & Hcount & _).
  apply lift_inr in Hcount. destruct Hcount as [Hcount _].
  exact (toNumber_inr _ _ Hcount).
Qed.

Lemma determinePopularity_returns (apiProduct : value) (s : Service) :
  categorisable apiProduct = true ->
  plain (Js.or (Js.or (prop apiProduct "salesCount") (prop apiProduct "popularity"))
               (VNum 0%float)) = true ->
  exists popular s', determinePopularity apiProduct s = (inr popular, s').
Proof.
  intros Hcat Hsales. destruct (categorisable_parts _ Hcat) as (H & Hname & _).
  unfold determinePopularity. rewrite (get_not_nullish _ _ H).
  unfold mbind at 1, lift at 1. cbv beta iota.
  destruct (lowerText_returns _ Hname) as [name ->].
  destruct (toNumber_returns _ Hsales) as [count ->].
  unfold mbind at 1, lift at 1. unfold mbind at 1, lift at 1.
  repeat match goal with
         | |- context [if ?b then _ else _] => destruct b; [do 2 eexists; reflexivity |]
         end.
  do 2 eexists; reflexivity.
Qed.

(** The description: the given one when it is a string, one made of the
    name when none is given. *)
Lemma extractDescription_returns (apiProduct : value) :
  nullish apiProduct = false ->
  plain (Js.or (prop apiProduct "name") (VStr "")) = true ->
  ((exists text, extractDescription apiProduct = inr text) <->
   (if truthy (givenDescription apiProduct)
    then match givenDescription apiProduct with
         | VStr _ => true
         | _ => false
         end
    else true) = true).
Proof.
  intros H Hname. unfold extractDescription. rewrite (get_not_nullish _ _ H).
  cbn [bind]. fold (givenDescription apiProduct).
  destruct (truthy (givenDescription apiProduct)) eqn:Hgiven.
  - cbn [bind ret].
    destruct (givenDescription apiProduct);
      (split; [intros [text Htext]; try discriminate; reflexivity
              | intros Hstr; try discriminate; eexists; reflexivity]).
  - assert (Hplain : plain (prop apiProduct "name") = true).
    { revert Hname. unfold Js.or.
      destruct (truthy (prop apiProduct "name")) eqn:Ht; [auto |].
      intros _. destruct (prop apiProduct "name"); try reflexivity; discriminate. }
    destruct (toString_returns _ Hplain) as [name ->]. cbn [bind ret].
    split; [reflexivity | intros _; eexists; reflexivity].
Qed.

Lemma extractAllergens_returns (apiProduct : value) :
  nullish apiProduct = false ->
  plain (Js.or (prop apiProduct "name") (VStr "")) = true ->
  ((exists tags, extractAllergens apiProduct = inr tags) <->
   plain (Js.or (prop apiProduct "description") (VStr "")) = true).
Proof.
  intros H Hname. unfold extractAllergens. rewrite (get_not_nullish _ _ H).
  cbn [bind]. destruct (lowerText_returns _ Hname) as [name ->]. cbn [bind].
  pose proof (lowerText_plain (prop apiProduct "description")) as Hd.
  destruct (lowerText (prop apiProduct "description")) as [e | description]; cbn [bind].
  - destruct Hd as [-> _]. split; [intros [tags Htags] |]; discriminate.
  - rewrite Hd. split; [reflexivity | intros _; eexists; reflexivity].
Qed.

Lemma estimatePreparationTime_returns (apiProduct : value) :
  categorisable apiProduct = true ->
  exists minutes, estimatePreparationTime apiProduct = inr minutes.
Proof.
  intros Hcat. destruct (categorisable_parts _ Hcat) as (H & Hname & category & Hcategory).
  unfold estimatePreparationTime. rewrite Hcategory. cbn [bind].
  assert (Hplain : plain (Js.or (prop apiProduct "name") (VStr "")) = true) by exact Hname.
  destruct (lowerText_returns _ Hplain) as [name ->]. cbn [bind]. eexists. reflexivity.
Qed.

Lemma mapiR_returns (entries : list value) :
  forall i,
    (exists prices, mapiR extractLocationPrice i entries = inr prices) <->
    forallb (fun entry => negb (nullish entry)) entries = true.
Proof.
  induction entries as [| entry entries IH]; intros i; simpl.
  - split; eauto.
  - unfold extractLocationPrice at 1. unfold get.
    destruct (nullish entry); simpl.
    + split; [intros [prices Hp]; discriminate | discriminate].
    + destruct (IH (S i)) as [IH1 IH2]. split.
      * intros [prices Hp]. apply IH1.
        destruct (mapiR extractLocationPrice (S i) entries); [discriminate | eauto].
      * intros Hall. destruct (IH2 Hall) as [prices ->]. simpl. eauto.
Qed.

Lemma extractLocationPrices_returns (apiProduct : value) :
  nullish apiProduct = false ->
  ((exists prices, extractLocationPrices apiProduct = inr prices) <->
   match prop apiProduct "locationPrices" with
   | VArr entries => forallb (fun entry => negb (nullish entry)) entries
   | _ => true
   end = true).
Proof.
  intros H. unfold extractLocationPrices. rewrite (get_not_nullish _ _ H).
  unfold bind at 1.
  destruct (prop apiProduct "locationPrices") as [| | b | x | t | entries | fields];
    try (split; [reflexivity | intros _; eexists; reflexivity]).
  rewrite <- (mapiR_returns entries 0). unfold bind.
  destruct (mapiR extractLocationPrice 0 entries) as [e | prices].
  - split; intros [p Hp]; discriminate.
  - split; intros _; eexists; reflexivity.
Qed.

Lemma transformProduct_accepts (apiProduct : value) (s : Service) :
  (exists product s', transformProduct apiProduct s = (inr product, s')) <->
  transformable apiProduct = true.
Proof.
  unfold transformable. split.
  - intros (product & s' & H).
    destruct (transformProduct_inr _ _ _ _ H)
      as (_ & _ & Hcat & Hdesc & Hallergens & _ & Hlp & _ & (s1 & s2 & Himage)
          & (s3 & s4 & Hpopular)).
    assert (Hcategorisable : categorisable apiProduct = true)
      by (apply mapApiCategory_categorisable; eauto).
    destruct (categorisable_parts _ Hcategorisable) as (Hnull & Hname & _).
    rewrite Hcategorisable.
    rewrite (proj1 (extractAllergens_returns _ Hnull Hname))
      by eauto.
    rewrite (determinePopularity_inr _ _ _ _ Hpopular).
    rewrite (proj2 (generateImageUrlEnhanced_inr _ _ _ _ Himage)).
    rewrite (proj1 (extractDescription_returns _ Hnull Hname)) by eauto.
    cbn [andb]. apply (extractLocationPrices_returns _ Hnull). eauto.
  - intros H.
    repeat match type of H with
           | _ && _ = true => apply andb_prop in H; destruct H as [H ?H]
           end.
    rename H into Hcat, H0 into Hlp, H1 into Hdesc, H2 into Himage, H3 into Hsales,
      H4 into Hallergens.
    destruct (categorisable_parts _ Hcat) as (Hnull & Hname & category & Hcategory).
    apply (extractLocationPrices_returns _ Hnull) in Hlp. destruct Hlp as [prices Hlp].
    apply (extractDescription_returns _ Hnull Hname) in Hdesc.
    destruct Hdesc as [text Hdesc].
    apply (extractAllergens_returns _ Hnull Hname) in Hallergens.
    destruct Hallergens as [tags Hallergens].
    destruct (estimatePreparationTime_returns _ Hcat) as [minutes Hminutes].
    unfold transformProduct.
    rewrite (get_not_nullish _ _ Hnull), Hdesc, Hcategory, Hlp, Hallergens, Hminutes.
    unfold checkAvailability. rewrite (get_not_nullish _ _ Hnull).
    unfold mbind at 1, lift at 1. unfold mbind at 1.
    assert (Hid : exists v s1,
      (if truthy (prop apiProduct "id") then mret (prop apiProduct "id")
       else orRandomBelow (prop apiProduct "productId") 10000%float) s = (inr v, s1)).
    { destruct (truthy (prop apiProduct "id")); [do 2 eexists; reflexivity |].
      destruct (orRandomBelow_returns (prop apiProduct "productId") 10000%float s)
        as (v & s1 & Hv & _). eauto. }
    destruct Hid as (v & s1 & ->).
    unfold mbind at 1, lift at 1. unfold mbind at 1.
    destruct (extractPriceEnhanced_returns _ s1 Hcat) as (x & s2 & ->).
    unfold mbind at 1, lift at 1. unfold mbind at 1.
    destruct (generateImageUrlEnhanced_returns _ s2 Hcat Himage) as (url & s3 & ->).
    unfold mbind at 1.
    destruct (determinePopularity_returns _ s3 Hcat Hsales) as (b & s4 & ->).
    do 2 eexists. reflexivity.
Qed.

(** X15: [transformProduct] returns a product for the payloads that are
    neither [null] nor [undefined], whose name, category or category
    name, alias, description and, when the stock photograph is used, [id]
    hold no object with a [toString] of its own, whose sales count or
    popularity holds none either, whose given description
    ([description], [productDescription] or [alias]), if any, is a
    string, and whose [locationPrices], when an array, holds no [null] and
    no [undefined]; on every other payload it throws. *)
Theorem transformProduct_returns_iff (apiProduct : value) (s : Service) :
  (exists product s', transformProduct apiProduct s = (inr product, s')) <->
  transformable apiProduct = true.
Proof. exact (transformProduct_accepts apiProduct s). Qed.

Lemma mmap_returns {A B} (f : A -> M B) (ok : A -> bool) (xs : list A) :
  (forall x s, (exists y s', f x s = (inr y, s')) <-> ok x = true) ->
  forall s, (exists ys s', mmap f xs s = (inr ys, s')) <-> forallb ok xs = true.
Proof.
  intros Hf. induction xs as [| x xs IH]; intros s; simpl.
  - split; [reflexivity | intros _; do 2 eexists; reflexivity].
  - split.
    + intros (ys & s' & H). unbind H. apply andb_true_intro. split.
      * apply (Hf x s). eauto.
      * apply (IH s0). eauto.
    + intros H. apply andb_prop in H. destruct H as [Hx Hxs].
      destruct (proj2 (Hf x s) Hx) as (y & s1 & Hy).
      destruct (proj2 (IH s1) Hxs) as (ys & s2 & Hys).
      unfold mbind. rewrite Hy, Hys. do 2 eexists. reflexivity.
Qed.

(** X16: [processProducts] returns a list exactly when [transformProduct]
    accepts every element of the array, available or not: one element it
    throws on, and the call throws; and it returns the empty list, with
    nothing read or written, for whatever is not an array. *)
Theorem processProducts_all_or_nothing (products : value) (s : Service) :
  match products with
  | VArr raw =>
      (exists listed s', processProducts products s = (inr listed, s')) <->
      forallb transformable raw = true
  | _ => processProducts products s = (inr [], s)
  end.
Proof.
  destruct products as [| | b | x | t | raw | fields]; try reflexivity.
  rewrite <- (mmap_returns transformProduct transformable raw
                transformProduct_accepts s).
  unfold processProducts. split.
  - intros (listed & s' & H). unbind H. eauto.
  - intros (all & s' & H). unfold mbind. rewrite H. do 2 eexists. reflexivity.
Qed.

(** X17: the preparation time [estimatePreparationTime] gives is a whole
    number of minutes from 1 to 19: the cap of 30 is never reached. *)
Theorem estimatePreparationTime_bounds (apiProduct : value) (minutes : Num.number) :
  estimatePreparationTime apiProduct = inr minutes ->
  exists k, 1 <= k <= 19 /\ minutes = Num.of_Z k.
Proof.
  unfold estimatePreparationTime. intros H.
  destruct (mapApiCategory apiProduct) as [e | category] eqn:Hcategory; [discriminate |].
  cbn [bind] in H.
  destruct (lowerText (prop apiProduct "name")) as [e | name]; [discriminate |].
  cbn [bind] in H. unfold ret in H. injection H as <-.
  destruct (mapApiCategory_inr _ _ Hcategory) as (_ & Hin & _).
  destruct Hin as [<- | [<- | [<- | [<- | [<- | [<- | []]]]]]];
    cbn [String.eqb Ascii.eqb Bool.eqb];
    repeat match goal with
           | |- context [if ?b then _ else _] =>
               lazymatch b with
               | context [Str.includes] => destruct b
               end
           end;
    match goal with
    | |- _ =>
        first
          [ exists 1; split; [lia | vm_compute; reflexivity]
          | exists 2; split; [lia | vm_compute; reflexivity]
          | exists 3; split; [lia | vm_compute; reflexivity]
          | exists 4; split; [lia | vm_compute; reflexivity]
          | exists 5; split; [lia | vm_compute; reflexivity]
          | exists 6; split; [lia | vm_compute; reflexivity]
          | exists 7; split; [lia | vm_compute; reflexivity]
          | exists 8; split; [lia | vm_compute; reflexivity]
          | exists 9; split; [lia | vm_compute; reflexivity]
          | exists 10; split; [lia | vm_compute; reflexivity]
          | exists 11; split; [lia | vm_compute; reflexivity]
          | exists 12; split; [lia | vm_compute; reflexivity]
          | exists 13; split; [lia | vm_compute; reflexivity]
          | exists 14; split; [lia | vm_compute; reflexivity]
          | exists 15; split; [lia | vm_compute; reflexivity]
          | exists 16; split; [lia | vm_compute; reflexivity]
          | exists 17; split; [lia | vm_compute; reflexivity]
          | exists 18; split; [lia | vm_compute; reflexivity]
          | exists 19; split; [lia | vm_compute; reflexivity] ]
    end.
Qed.

(** X18: the allergens [extractAllergens] returns are some of [Lactose],
    [Gluten], [Eggs], [Nuts], [Soy], each at most once and in that
    order. *)
Theorem extractAllergens_vocabulary (apiProduct : value) (tags : list string) :
  extractAllergens apiProduct = inr tags ->
  subsequenceOf tags allergenTags = true /\ NoDup tags.
Proof.
  unfold extractAllergens. intros H.
  destruct (get apiProduct "name") as [e | n]; [discriminate |]. cbn [bind] in H.
  destruct (lowerText n) as [e | name]; [discriminate |]. cbn [bind] in H.
  destruct (lowerText (prop apiProduct "description")) as [e | description];
    [discriminate |].
  cbn [bind] in H. unfold ret in H. injection H as <-.
  repeat match goal with
         | |- context [if ?b then _ else _] =>
             lazymatch b with
             | context [Str.includes] => destruct b
             end
         end;
    (split; [reflexivity |]);
    repeat (constructor; [simpl; intuition discriminate |]); constructor.
Qed.

(** X19: the image [generateImageUrlEnhanced] returns is an address that
    starts with [http] or data that starts with [data:image/]: the
    image service by [imageUid], the image data or the direct address of
    the payload, or the stock photograph of the category. *)
Theorem generateImageUrlEnhanced_address (apiProduct : value) (s s' : Service)
  (url : string) :
  generateImageUrlEnhanced apiProduct s = (inr url, s') ->
  Str.startsWith url "http" = true \/ Str.startsWith url "data:image/" = true.
Proof. intros H. exact (proj1 (generateImageUrlEnhanced_inr _ _ _ _ H)). Qed.

End Normaliser.

Section Requests.

Context {env : Env}.

(** ** The requests a call issues *)

Lemma quiet_mret {A} (a : A) : quiet (mret a).
Proof. intros s. reflexivity. Qed.

Lemma quiet_read {A} (f : Service -> A) : quiet (read f).
Proof. intros s. reflexivity. Qed.

Lemma quiet_mbind {A B} (m : M A) (k : A -> M B) :
  quiet m -> (forall a, quiet (k a)) -> quiet (mbind m k).
Proof.
  intros Hm Hk s. unfold mbind. specialize (Hm s).
  destruct (m s) as [[e | a] s1]; [exact Hm |].
  rewrite (Hk a s1). exact Hm.
Qed.

Lemma quiet_isTokenStillValid : quiet isTokenStillValid.
Proof.
  intros s. rewrite isTokenStillValid_eq. unfold afterValidityCheck. cbn [snd].
  destruct (hasToken (authToken s)); reflexivity.
Qed.

Lemma quiet_httpOptions : quiet httpOptions.
Proof.
  unfold httpOptions. apply quiet_mbind; [apply quiet_read | intros token].
  destruct (hasToken token); [apply quiet_isTokenStillValid | apply quiet_mret].
Qed.

Lemma quiet_createFallbackOrderResponse : quiet createFallbackOrderResponse.
Proof. intros s. reflexivity. Qed.

(** What a subscription to [login] issues. *)
Lemma login_calls (s : Service) :
  httpCalls (snd (Rx.subscribe login s)) = (httpCalls s ++ [loginCall])%list.
Proof.
  rewrite subscribe_login. cbv zeta.
  destruct (delivered _ true) as [response | e]; [| reflexivity].
  destruct (extractTokenFromResponse response) as [token |]; reflexivity.
Qed.

Lemma ensureAuthenticated_calls (s : Service) :
  exists calls,
    httpCalls (snd (invoke ensureAuthenticated s)) = (httpCalls s ++ calls)%list /\
    upToOne Login calls.
Proof.
  assert (Hafter : httpCalls (afterValidityCheck s) = httpCalls s).
  { unfold afterValidityCheck. destruct (hasToken (authToken s)); reflexivity. }
  unfold invoke, ensureAuthenticated, mbind at 1. rewrite isTokenStillValid_eq.
  destruct (validNow s).
  { exists []. rewrite app_nil_r. split; [exact Hafter | left; reflexivity]. }
  unfold refreshToken, clearToken. plumb.
  destruct (isRefreshingToken (afterValidityCheck s)) eqn:Hflag;
    cbv beta iota; rewrite ?Hflag; cbv beta iota.
  - exists []. rewrite app_nil_r. split; [| left; reflexivity].
    rewrite subscribe_switchMap, subscribe_refreshOutcomes.
    destruct (refreshTokenSubject (afterValidityCheck s)).
    + rewrite isTokenStillValid_eq.
      assert (Hafter' : httpCalls (afterValidityCheck (afterValidityCheck s)) = httpCalls s).
      { unfold afterValidityCheck at 1.
        destruct (hasToken (authToken (afterValidityCheck s))); exact Hafter. }
      destruct (validNow (afterValidityCheck s)); exact Hafter'.
    + exact Hafter.
  - exists [loginCall]. split; [| right; do 2 eexists; reflexivity].
    rewrite subscribe_map.
    match goal with
    | |- context [Rx.subscribe login ?s0] =>
        pose proof (login_calls s0) as Hlogin;
        destruct (Rx.subscribe login s0) as [[response | e] s1]
    end; cbn [snd] in *; rewrite Hlogin; cbn; now rewrite Hafter.
Qed.

Lemma mapM_throws {A B} (f : A -> result B) (bad : A -> bool) (xs : list A) :
  (forall x, bad x = true -> exists what, f x = typeError what) ->
  (forall x, match f x with inl e => error_status e = None | inr _ => True end) ->
  existsb bad xs = true ->
  exists e, mapM f xs = inl e /\ error_status e = None.
Proof.
  intros Hbad Hplain. induction xs as [| x xs IH]; simpl; [discriminate |].
  intros H. specialize (Hplain x).
  destruct (f x) as [e | y] eqn:Hx; [exists e; split; [reflexivity | exact Hplain] |].
  destruct (bad x) eqn:Hb.
  - destruct (Hbad x Hb) as [what Hwhat]. rewrite Hwhat in Hx. unfold typeError, throw in Hx. discriminate.
  - destruct (IH H) as (e & -> & He). exists e. split; [reflexivity | exact He].
Qed.

(** X21: an order with a line that has neither a [uid] nor an [id] is
    never sent: [transformToHesburgerFormat] throws before the request is
    made, no order post is issued, at most one [login] is, and
    [createOrder] still delivers an order, confirmed and marked
    offline. *)
Theorem createOrder_unsendable (orderData : Order) (s : Service) :
  existsb unsendable (items orderData) = true ->
  exists r s' calls,
    invoke (createOrder orderData) s = (Next r, s') /\
    isOffline r = Some true /\
    httpCalls s' = (httpCalls s ++ calls)%list /\
    upToOne Login calls.
Proof.
  intros Hitems.
  assert (Hthrows : forall s0, exists e s1,
            invoke (orderRequest orderData) s0 = (Error e, s1) /\
            unauthorized e = false /\ httpCalls s1 = httpCalls s0).
  { intros s0. unfold invoke, orderRequest, transformToHesburgerFormat, dateNow.
    plumb. cbv zeta.
    match goal with
    | |- context [mapM ?f (items orderData)] =>
        destruct (mapM_throws f unsendable (items orderData)) as (e & -> & He)
    end.
    - intros item Hbad. unfold unsendable in Hbad. apply andb_prop in Hbad.
      destruct Hbad as [Huid Hid]. apply negb_true_iff in Huid.
      rewrite Huid, Hid. eexists. reflexivity.
    - intros item. destruct (truthy (uid (asProduct item))); [exact I |].
      destruct (nullish (id (asProduct item))); [reflexivity |].
      pose proof (toString_plain (id (asProduct item))) as Hid. cbn [bind].
      destruct (Js.toString (id (asProduct item))) as [e | text]; [| exact I].
      destruct Hid as (_ & what & ->). reflexivity.
    - exact Hitems.
    - do 2 eexists. split; [reflexivity |]. split; [| reflexivity].
      unfold unauthorized. now rewrite He. }
  pose proof (makeAuthenticatedRequest_policy (orderRequest orderData) s) as Hpolicy.
  assert (Hwrapper : exists e s1 calls,
            wrapperPolicy (orderRequest orderData) s = (Error e, s1) /\
            httpCalls s1 = (httpCalls s ++ calls)%list /\ upToOne Login calls).
  { unfold wrapperPolicy, retryOnceAfterRefresh.
    destruct (ensureAuthenticated_calls s) as (a & Ha & Hone).
    destruct (invoke ensureAuthenticated s) as [[v | e] s1]; cbn [snd] in Ha.
    - destruct (Hthrows s1) as (e & s2 & -> & -> & Hsame).
      cbn [andb]. exists e, s2, a. rewrite Hsame. auto.
    - exists e, s1, a. auto. }
  destruct Hwrapper as (e & s1 & calls & Hwrapper & Hcalls & Hone).
  rewrite Hwrapper in Hpolicy. clear Hwrapper.
  unfold invoke in *. unfold createOrder, mbind at 1.
  destruct (makeAuthenticatedRequest_returns (orderRequest orderData) s)
    as (wrapped & s0 & Hcall).
  rewrite Hcall in *. unfold mret at 1, ret at 1. cbv beta iota.
  rewrite subscribe_catchError, Hpolicy.
  exists (match createFallbackOrderResponse s1 with
          | (inr r, _) => r
          | (inl _, _) => {| isSuccess := true; data := None; message := VNull;
                             timestamp := IsoOf 0; isOffline := None |}
          end), (snd (createFallbackOrderResponse s1)), calls.
  rewrite quiet_createFallbackOrderResponse.
  repeat split; auto.
Qed.

(** X22: whatever the response to the order post, the order
    [processOrderResponse] returns is [confirmed], with an estimated time
    of 15 and no queue position; also when the response says
    [isSuccess: false], which is all that is kept of a refusal. *)
Theorem processOrderResponse_always_confirmed (response : value) (s : Service) :
  exists r s' d,
    processOrderResponse response s = (inr r, s') /\
    data r = Some d /\
    status d = "confirmed" /\
    od_estimatedTime d = 15%float /\
    queuePosition d = VNull /\
    (truthy (prop response "payload") = true ->
     isSuccess r = negb (strict_eq (prop response "isSuccess") (VBool false)) /\
     isOffline r = None).
Proof.
  unfold processOrderResponse, processOrderResponseTry, extractOrderData.
  destruct (nullish response) eqn:Hnull.
  { destruct (get_nullish response "payload" Hnull) as [e ->].
    rewrite (prop_of_falsy response "payload")
      by (destruct response; try discriminate; reflexivity).
    do 3 eexists. split; [reflexivity |]. repeat split; discriminate. }
  rewrite (get_not_nullish _ _ Hnull). plumb.
  destruct (truthy (prop response "payload")) eqn:Hpayload;
    cbv beta iota; rewrite ?Hpayload; cbn [negb andb].
  - unfold orElse, dateNow, generateOrderNumber, mathRandom. plumb.
    destruct (truthy (Js.or _ _)); destruct (truthy (prop _ "orderNumber"));
      destruct (truthy (prop _ "createdAt"));
      (do 3 eexists; split; [reflexivity |]; repeat split).
  - match goal with
    | |- context [negb (truthy ?d) && truthy response] =>
        destruct (negb (truthy d) && truthy response)
    end.
    + do 3 eexists. split; [reflexivity |]. repeat split; discriminate.
    + unfold orElse, dateNow, generateOrderNumber, mathRandom. plumb.
      destruct (truthy (Js.or _ _)); destruct (truthy (prop _ "orderNumber"));
        destruct (truthy (prop _ "createdAt"));
        (do 3 eexists; split; [reflexivity |]; repeat split; discriminate).
Qed.

End Requests.

Section Listings.

Context {env : Env}.

(** ** Listings *)

(** X23: [getProductsByCategory] hands the response to [processProducts]
    as it is, and does not look for the products inside it as
    [getSellingProducts] does: with a valid token, a response that is not
    an array, whatever it holds, gives the empty list after one request,
    and no error. *)
Theorem getProductsByCategory_needs_array (categoryUid : string) (s : Service)
  (response : value) :
  validNow s = true ->
  outcome (network (List.length (httpCalls s))) = inr response ->
  isArray response = false ->
  exists s' auth,
    invoke (getProductsByCategory categoryUid) s = (Next [], s') /\
    httpCalls s' =
      (httpCalls s ++
       [{| endpoint := FindSellingProducts (Some categoryUid);
           authorized := auth; body := None |}])%list.
Proof.
  intros Hvalid Hanswer Harray.
  assert (Hafter : httpCalls (afterValidityCheck s) = httpCalls s).
  { unfold afterValidityCheck. destruct (hasToken (authToken s)); reflexivity. }
  pose proof (makeAuthenticatedRequest_policy (productsByCategoryRequest categoryUid) s)
    as Hpolicy.
  assert (Hwrapper : exists s' auth,
    wrapperPolicy (productsByCategoryRequest categoryUid) s = (Next [], s') /\
    httpCalls s' =
      (httpCalls s ++
       [{| endpoint := FindSellingProducts (Some categoryUid);
           authorized := auth; body := None |}])%list).
  { unfold wrapperPolicy, invoke at 1, ensureAuthenticated, mbind at 1.
    rewrite isTokenStillValid_eq, Hvalid. plumb. rewrite subscribe_of.
    unfold invoke, productsByCategoryRequest, mbind at 1.
    pose proof (quiet_httpOptions (afterValidityCheck s)) as Hquiet.
    destruct (httpOptions (afterValidityCheck s)) as [[e | auth] s1] eqn:Hauth;
      cbn [snd] in Hquiet.
    { exfalso. revert Hauth. unfold httpOptions. plumb.
      destruct (hasToken (authToken (afterValidityCheck s))); [| discriminate].
      rewrite isTokenStillValid_eq. discriminate. }
    plumb. rewrite subscribe_map, subscribe_httpRequest.
    unfold delivered. cbn [andb]. rewrite Hquiet, Hafter, Hanswer.
    destruct response; try discriminate; cbn; do 2 eexists; split; reflexivity. }
  destruct Hwrapper as (s' & auth & Hwrapper & Hcalls).
  rewrite Hwrapper in Hpolicy.
  exists s', auth. split; [| exact Hcalls].
  unfold invoke in *. unfold getProductsByCategory, mbind at 1.
  destruct (makeAuthenticatedRequest_returns (productsByCategoryRequest categoryUid) s)
    as (wrapped & s0 & Hcall).
  rewrite Hcall in *. unfold mret at 1, ret at 1. cbv beta iota.
  rewrite subscribe_catchError, subscribe_retry, Hpolicy. reflexivity.
Qed.

Lemma filterR_inr {A} (f : A -> result bool) (xs : list A) (kept : list A) :
  filterR f xs = inr kept ->
  kept = filter (fun x => match f x with inr true => true | _ => false end) xs.
Proof.
  revert kept. induction xs as [| x xs IH]; simpl; intros kept.
  - intros [= <-]. reflexivity.
  - destruct (f x) as [e | keep]; [discriminate |]. simpl.
    destruct (filterR f xs) as [e | kept']; [discriminate |]. simpl.
    intros [= <-]. rewrite (IH kept' eq_refl). destruct keep; reflexivity.
Qed.

Lemma processCategory_inr (allProducts category : value) (s s' : Service)
  (made : CategoryWithProducts) :
  processCategory allProducts category s = (inr made, s') ->
  cwp_uid made = prop category "uid" /\
  exists matching s1,
    categoryProductsOf category allProducts = inr matching /\
    processProducts (VArr matching) s1 = (inr (cwp_products made), s').
Proof.
  unfold processCategory. intros H. unbind H.
  unfold mret, ret in H. injection H as <- <-.
  split; [reflexivity |]. eauto.
Qed.

(** X24: every category [processCategoriesWithProducts] returns is made
    of one of the categories given, carries its [uid], and holds one
    product for each available payload among those the category matches,
    in their order, and at least one. *)
Theorem processCategoriesWithProducts_sound (categoryEntries : list value)
  (allProducts : value) (s s' : Service) (made : list CategoryWithProducts) :
  processCategoriesWithProducts (VArr categoryEntries) allProducts s = (inr made, s') ->
  Forall (fun c =>
            cwp_products c <> [] /\
            forallb isAvailable (cwp_products c) = true /\
            exists category matching,
              In category categoryEntries /\
              cwp_uid c = prop category "uid" /\
              categoryProductsOf category allProducts = inr matching /\
              List.map rawApiData (cwp_products c) = filter available matching) made.
Proof.
  unfold processCategoriesWithProducts. intros H. unbind H.
  unfold mret, ret in H. injection H as <- _.
  apply mmap_inr in Ha. clear - Ha.
  induction Ha as [| category c entries cs (s1 & s2 & Hc) _ IH]; simpl; [constructor |].
  assert (IH' : Forall (fun c =>
            cwp_products c <> [] /\
            forallb isAvailable (cwp_products c) = true /\
            exists category0 matching,
              In category0 (category :: entries) /\
              cwp_uid c = prop category0 "uid" /\
              categoryProductsOf category0 allProducts = inr matching /\
              List.map rawApiData (cwp_products c) = filter available matching)
          (filter (fun c => (0 <? List.length (cwp_products c))%nat) cs)).
  { eapply Forall_impl; [| exact IH]. cbv beta.
    intros c0 (Hne & Hav & category0 & matching & Hin & Hrest).
    split; [exact Hne |]. split; [exact Hav |].
    exists category0, matching. split; [right; exact Hin | exact Hrest]. }
  destruct (0 <? List.length (cwp_products c))%nat eqn:Hlen; [| exact IH'].
  constructor; [| exact IH'].
  destruct (processCategory_inr _ _ _ _ _ Hc) as (Huid & matching & s3 & Hmatch & Hproducts).
  destruct (processProducts_listed _ _ _ _ Hproducts) as [Hraw Hav].
  split.
  { intros Hnil. rewrite Hnil in Hlen. discriminate. }
  split; [exact Hav |].
  exists category, matching. split; [left; reflexivity |]. auto.
Qed.

(** X25: a payload with no [categoryId] matches every category with no
    [id], since [undefined === undefined]: given categories without [id]
    and products without [categoryId], every category is matched by all
    the products. *)
Theorem categoryProductsOf_undefined_ids (category : value) (products : list value) :
  nullish category = false ->
  prop category "id" = VUndefined ->
  forallb (fun product =>
             negb (nullish product) && strict_eq (prop product "categoryId") VUndefined)
          products = true ->
  categoryProductsOf category (VArr products) = inr products.
Proof.
  intros Hcategory Hid. unfold categoryProductsOf.
  induction products as [| product products IH]; simpl; [reflexivity |].
  intros H. apply andb_prop in H. destruct H as [H Hrest].
  apply andb_prop in H. destruct H as [Hproduct Hmatch].
  apply negb_true_iff in Hproduct.
  unfold matchesCategory at 1.
  rewrite (get_not_nullish _ _ Hproduct), (get_not_nullish _ _ Hcategory), Hid, Hmatch.
  unfold bind, ret. rewrite orb_true_r, (IH Hrest). reflexivity.
Qed.

End Listings.

Section CartCallers.

Context {env : Env}.

(** ** The cart component *)

Lemma addItemToCart_cart (item : CartItem) (amount : Num.number) (s : Service) :
  cartSubject (snd (addItemToCart item amount s)) =
  match find (sameId (asProduct item)) (cartSubject s) with
  | Some _ =>
      updateFound (sameId (asProduct item))
        (fun existingItem => withQuantity (quantity existingItem + amount)%float existingItem)
        (cartSubject s)
  | None =>
      (cartSubject s ++
       [{| asProduct := asProduct item; quantity := amount;
           addedAt := Some (clock (clockReads s));
           specialInstructions := specialInstructions item;
           toppings := toppings item |}])%list
  end.
Proof.
  unfold addItemToCart. run_m.
  destruct (find (sameId (asProduct item)) (cartSubject s)); reflexivity.
Qed.

Lemma addItemToCart_returns (item : CartItem) (amount : Num.number) (s : Service) :
  fst (addItemToCart item amount s) = inr tt.
Proof.
  unfold addItemToCart. run_m.
  destruct (find (sameId (asProduct item)) (cartSubject s)); reflexivity.
Qed.

Lemma distinctIds_later (before : list CartItem) (item : CartItem) (after : list CartItem) :
  distinctIds (before ++ item :: after) ->
  forallb (fun x => negb (sameId (asProduct item) x)) before = true.
Proof.
  induction before as [| x before IH]; simpl; [reflexivity |].
  intros [Hx Hrest]. rewrite (IH Hrest), andb_true_r.
  rewrite forallb_app in Hx. apply andb_prop in Hx. destruct Hx as [_ Hx].
  simpl in Hx. apply andb_prop in Hx. destruct Hx as [Hx _]. exact Hx.
Qed.

Lemma updateFound_here (p : CartItem -> bool) (f : CartItem -> CartItem)
  (before : list CartItem) (item : CartItem) (after : list CartItem) :
  forallb (fun x => negb (p x)) before = true -> p item = true ->
  find p (before ++ item :: after) = Some item /\
  updateFound p f (before ++ item :: after) = (before ++ f item :: after)%list.
Proof.
  intros Hbefore Hitem. induction before as [| x before IH]; simpl.
  - rewrite Hitem. auto.
  - simpl in Hbefore. apply andb_prop in Hbefore. destruct Hbefore as [Hx Hrest].
    apply negb_true_iff in Hx. rewrite Hx.
    destruct (IH Hrest) as [-> ->]. auto.
Qed.

Lemma forallb_mapped {A B} (f : A -> B) (p : B -> bool) (l : list A) :
  forallb p (List.map f l) = forallb (fun x => p (f x)) l.
Proof. induction l as [| x l IH]; simpl; [reflexivity | now rewrite IH]. Qed.

Lemma addEach_doubles (rest : list CartItem) :
  forall (done : list CartItem) (s : Service),
    cartSubject s = (List.map doubled done ++ rest)%list ->
    distinctIds (done ++ rest) ->
    forallb (fun item => strict_eq (id (asProduct item)) (id (asProduct item))) rest = true ->
    fst (addEach rest s) = inr tt /\
    cartSubject (snd (addEach rest s)) = List.map doubled (done ++ rest).
Proof.
  induction rest as [| item rest IH]; intros done s Hcart Hdistinct Hids; simpl.
  - rewrite Hcart, !app_nil_r. auto.
  - simpl in Hids. apply andb_prop in Hids. destruct Hids as [Hitem Hrest].
    pose proof (addItemToCart_cart item (quantity item) s) as Hstep.
    pose proof (addItemToCart_returns item (quantity item) s) as Hret.
    unfold mbind.
    destruct (addItemToCart item (quantity item) s) as [[e | []] s1]; cbn [fst snd] in *;
      [discriminate |].
    assert (Hbefore : forallb (fun x => negb (sameId (asProduct item) x))
                              (List.map doubled done) = true).
    { rewrite forallb_mapped. exact (distinctIds_later _ _ _ Hdistinct). }
    destruct (updateFound_here (sameId (asProduct item))
                (fun existingItem =>
                   withQuantity (quantity existingItem + quantity item)%float existingItem)
                (List.map doubled done) item rest Hbefore Hitem) as [Hfind Hupd].
    rewrite Hcart, Hfind, Hupd in Hstep.
    replace (done ++ item :: rest)%list with ((done ++ [item]) ++ rest)%list in *
      by (rewrite <- app_assoc; reflexivity).
    apply IH; [| exact Hdistinct | exact Hrest].
    rewrite Hstep, map_app, <- app_assoc. reflexivity.
Qed.

(** X26: in a cart whose lines have distinct ids, each equal to itself,
    the [duplicateOrder] of the cart component, once agreed to, doubles
    the quantity of every line and adds none; declined, it leaves the
    service as it is. *)
Theorem duplicateOrder_doubles (s : Service) :
  distinctIds (cartSubject s) ->
  forallb (fun item => strict_eq (id (asProduct item)) (id (asProduct item)))
          (cartSubject s) = true ->
  cartSubject (snd (duplicateOrder (cartSubject s) true s)) =
    List.map doubled (cartSubject s) /\
  fst (duplicateOrder (cartSubject s) true s) = inr tt /\
  duplicateOrder (cartSubject s) false s = (inr tt, s).
Proof.
  intros Hdistinct Hids.
  destruct (addEach_doubles (cartSubject s) [] s eq_refl Hdistinct Hids) as [Hret Hcart].
  repeat split; assumption.
Qed.

End CartCallers.

Section Carried.

Context {env : Env}.

(** ** Subscriptions among other tasks *)

(** The run with nothing in between is one of the runs. *)
Lemma settle_carried {A} :
  forall (st : Step A) (s : Service),
    exists own, Rx.carried st s own (fst (Rx.settle st s)) (snd (Rx.settle st s)).
Proof.
  fix IH 1. intros [m | call resume] s.
  - exists []. simpl. auto.
  - simpl. destruct (resume (network call) s) as [st' s'] eqn:Hresume.
    destruct (IH st' s') as [own Hown].
    exists (nth_error (httpCalls s) call :: own), (network call), s, own.
    split; [reflexivity |]. rewrite Hresume. exact Hown.
Qed.

Lemma subscribe_carried {A} (o : Observable A) (s : Service) :
  exists own, Rx.carriedFrom o s own (fst (Rx.subscribe o s)) (snd (Rx.subscribe o s)).
Proof.
  unfold Rx.carriedFrom, Rx.subscribe. destruct (o s) as [st s']. apply settle_carried.
Qed.

Lemma carried_mapStep {A B} (f : A -> M B) :
  forall (st : Step A) (s : Service) own (n : Notification B) s'',
    (let (st', s') := Rx.mapStep f st s in Rx.carried st' s' own n s'') ->
    exists m s1,
      Rx.carried st s own m s1 /\
      (n, s'') =
      match m with
      | Next a =>
          match f a s1 with
          | (inr b, s2) => (Next b, s2)
          | (inl e, s2) => (Error e, s2)
          end
      | Error e => (Error e, s1)
      end.
Proof.
  fix IH 1. intros [[a | e] | call resume] s own n s'' H.
  - simpl in H. exists (Next a), s.
    destruct (f a s) as [[e | b] s2]; simpl in H; destruct H as (-> & -> & ->);
      split; simpl; auto.
  - simpl in H. destruct H as (-> & -> & ->). exists (Error e), s. simpl. auto.
  - simpl in H. destruct H as (x & s1 & own' & -> & H).
    destruct (resume x s1) as [st' s3] eqn:Hresume.
    apply IH in H. destruct H as (m & s4 & Hrun & Hn).
    exists m, s4. split; [| exact Hn].
    simpl. exists x, s1, own'. split; [reflexivity |]. rewrite Hresume. exact Hrun.
Qed.

Lemma carried_switchMapStep {A B} (f : A -> M (Observable B)) :
  forall (st : Step A) (s : Service) own (n : Notification B) s'',
    (let (st', s') := Rx.switchMapStep f st s in Rx.carried st' s' own n s'') ->
    exists m s1 own1 own2,
      own = (own1 ++ own2)%list /\
      Rx.carried st s own1 m s1 /\
      match m with
      | Next a =>
          match f a s1 with
          | (inr inner, s2) => Rx.carriedFrom inner s2 own2 n s''
          | (inl e, s2) => own2 = [] /\ n = Error e /\ s'' = s2
          end
      | Error e => own2 = [] /\ n = Error e /\ s'' = s1
      end.
Proof.
  fix IH 1. intros [[a | e] | call resume] s own n s'' H.
  - simpl in H. exists (Next a), s, [], own. split; [reflexivity |].
    split; [simpl; auto |].
    destruct (f a s) as [[e | inner] s2]; [| exact H].
    simpl in H. destruct H as (-> & -> & ->). auto.
  - simpl in H. destruct H as (-> & -> & ->). exists (Error e), s, [], [].
    simpl. auto.
  - simpl in H. destruct H as (x & s1 & own' & -> & H).
    destruct (resume x s1) as [st' s3] eqn:Hresume.
    apply IH in H. destruct H as (m & s4 & own1 & own2 & -> & Hrun & Hrest).
    exists m, s4, (nth_error (httpCalls s) call :: own1), own2.
    split; [reflexivity |]. split; [| exact Hrest].
    simpl. exists x, s1, own1. split; [reflexivity |]. rewrite Hresume. exact Hrun.
Qed.

Lemma carried_catchErrorStep {A} (h : jsError -> M (Observable A)) :
  forall (st : Step A) (s : Service) own (n : Notification A) s'',
    (let (st', s') := Rx.catchErrorStep h st s in Rx.carried st' s' own n s'') ->
    exists m s1 own1 own2,
      own = (own1 ++ own2)%list /\
      Rx.carried st s own1 m s1 /\
      match m with
      | Next a => own2 = [] /\ n = Next a /\ s'' = s1
      | Error e =>
          match h e s1 with
          | (inr replacement, s2) => Rx.carriedFrom replacement s2 own2 n s''
          | (inl e', s2) => own2 = [] /\ n = Error e' /\ s'' = s2
          end
      end.
Proof.
  fix IH 1. intros [[a | e] | call resume] s own n s'' H.
  - simpl in H. destruct H as (-> & -> & ->). exists (Next a), s, [], [].
    simpl. auto.
  - simpl in H. exists (Error e), s, [], own. split; [reflexivity |].
    split; [simpl; auto |].
    destruct (h e s) as [[e' | replacement] s2]; [| exact H].
    simpl in H. destruct H as (-> & -> & ->). auto.
  - simpl in H. destruct H as (x & s1 & own' & -> & H).
    destruct (resume x s1) as [st' s3] eqn:Hresume.
    apply IH in H. destruct H as (m & s4 & own1 & own2 & -> & Hrun & Hrest).
    exists m, s4, (nth_error (httpCalls s) call :: own1), own2.
    split; [reflexivity |]. split; [| exact Hrest].
    simpl. exists x, s1, own1. split; [reflexivity |]. rewrite Hresume. exact Hrun.
Qed.

Lemma carried_retryStep {A} (o : Observable A) :
  forall (st : Step A) (s : Service) own (n : Notification A) s'',
    (let (st', s') := Rx.retryStep o st s in Rx.carried st' s' own n s'') ->
    exists m s1 own1 own2,
      own = (own1 ++ own2)%list /\
      Rx.carried st s own1 m s1 /\
      match m with
      | Next a => own2 = [] /\ n = Next a /\ s'' = s1
      | Error _ => Rx.carriedFrom o s1 own2 n s''
      end.
Proof.
  fix IH 1. intros [[a | e] | call resume] s own n s'' H.
  - simpl in H. destruct H as (-> & -> & ->). exists (Next a), s, [], [].
    simpl. auto.
  - simpl in H. exists (Error e), s, [], own. split; [reflexivity |].
    split; [simpl; auto | exact H].
  - simpl in H. destruct H as (x & s1 & own' & -> & H).
    destruct (resume x s1) as [st' s3] eqn:Hresume.
    apply IH in H. destruct H as (m & s4 & own1 & own2 & -> & Hrun & Hrest).
    exists m, s4, (nth_error (httpCalls s) call :: own1), own2.
    split; [reflexivity |]. split; [| exact Hrest].
    simpl. exists x, s1, own1. split; [reflexivity |]. rewrite Hresume. exact Hrun.
Qed.

Lemma carriedFrom_map {A B} (f : A -> M B) (o : Observable A) (s : Service) own
  (n : Notification B) s'' :
  Rx.carriedFrom (Rx.map f o) s own n s'' ->
  exists m s1,
    Rx.carriedFrom o s own m s1 /\
    (n, s'') =
    match m with
    | Next a =>
        match f a s1 with
        | (inr b, s2) => (Next b, s2)
        | (inl e, s2) => (Error e, s2)
        end
    | Error e => (Error e, s1)
    end.
Proof.
  unfold Rx.carriedFrom, Rx.map. destruct (o s) as [st s']. apply carried_mapStep.
Qed.

Lemma carriedFrom_switchMap {A B} (f : A -> M (Observable B)) (o : Observable A)
  (s : Service) own (n : Notification B) s'' :
  Rx.carriedFrom (Rx.switchMap f o) s own n s'' ->
  exists m s1 own1 own2,
    own = (own1 ++ own2)%list /\
    Rx.carriedFrom o s own1 m s1 /\
    match m with
    | Next a =>
        match f a s1 with
        | (inr inner, s2) => Rx.carriedFrom inner s2 own2 n s''
        | (inl e, s2) => own2 = [] /\ n = Error e /\ s'' = s2
        end
    | Error e => own2 = [] /\ n = Error e /\ s'' = s1
    end.
Proof.
  unfold Rx.carriedFrom at 1 2, Rx.switchMap. destruct (o s) as [st s'].
  apply carried_switchMapStep.
Qed.

Lemma carriedFrom_catchError {A} (h : jsError -> M (Observable A)) (o : Observable A)
  (s : Service) own (n : Notification A) s'' :
  Rx.carriedFrom (Rx.catchError h o) s own n s'' ->
  exists m s1 own1 own2,
    own = (own1 ++ own2)%list /\
    Rx.carriedFrom o s own1 m s1 /\
    match m with
    | Next a => own2 = [] /\ n = Next a /\ s'' = s1
    | Error e =>
        match h e s1 with
        | (inr replacement, s2) => Rx.carriedFrom replacement s2 own2 n s''
        | (inl e', s2) => own2 = [] /\ n = Error e' /\ s'' = s2
        end
    end.
Proof.
  unfold Rx.carriedFrom at 1 2, Rx.catchError. destruct (o s) as [st s'].
  apply carried_catchErrorStep.
Qed.

Lemma carriedFrom_retry {A} (o : Observable A) (s : Service) own
  (n : Notification A) s'' :
  Rx.carriedFrom (Rx.retry o) s own n s'' ->
  exists m s1 own1 own2,
    own = (own1 ++ own2)%list /\
    Rx.carriedFrom o s own1 m s1 /\
    match m with
    | Next a => own2 = [] /\ n = Next a /\ s'' = s1
    | Error _ => Rx.carriedFrom o s1 own2 n s''
    end.
Proof.
  unfold Rx.carriedFrom at 1 2, Rx.retry. destruct (o s) as [st s'].
  apply carried_retryStep.
Qed.

Lemma carriedFrom_settled {A} (m : Notification A) (s : Service) own
  (n : Notification A) s'' :
  Rx.carriedFrom (fun s0 => (Settled m, s0)) s own n s'' -> own = [] /\ n = m /\ s'' = s.
Proof. exact (fun H => H). Qed.

Lemma carriedFrom_httpRequest (ep : Endpoint) (sent : option value) (auth timed : bool)
  (s : Service) own (n : Notification value) s'' :
  Rx.carriedFrom (httpRequest ep sent auth timed) s own n s'' ->
  own = [Some {| endpoint := ep; authorized := auth; body := sent |}] /\
  exists x, n = delivered x timed.
Proof.
  unfold Rx.carriedFrom, httpRequest. simpl.
  intros (x & s1 & own' & -> & -> & -> & _).
  rewrite nth_error_app2, Nat.sub_diag by lia. simpl. eauto.
Qed.

End Carried.

Section OwnRequests.

Context {env : Env}.

(** ** The requests of a subscription *)

Lemma carriedFrom_login (s : Service) own (n : Notification value) s'' :
  Rx.carriedFrom login s own n s'' ->
  own = [Some loginCall] /\ forall e, n = Error e -> unauthorized e = false.
Proof.
  unfold login. intros H.
  apply carriedFrom_catchError in H. destruct H as (m & s1 & own1 & own2 & -> & Hsource & H).
  apply carriedFrom_map in Hsource. destruct Hsource as (m0 & s2 & Hrequest & Hm).
  apply carriedFrom_httpRequest in Hrequest. destruct Hrequest as (-> & _).
  destruct m as [response | e0].
  - destruct H as (-> & -> & _). split; [reflexivity | discriminate].
  - revert H. plumb. intros H. apply carriedFrom_settled in H.
    destruct H as (-> & -> & _). split; [reflexivity |].
    intros e [= <-]. reflexivity.
Qed.

(** A subscription to what [refreshToken] returned, whenever it is made:
    it issues at most a [login]. *)
Lemma carriedFrom_refreshToken (s s0 : Service) (o : Observable value) :
  refreshToken s = (inr o, s0) ->
  forall s1 own n s'',
    Rx.carriedFrom o s1 own n s'' ->
    exists calls, own = List.map Some calls /\ upToOne Login calls.
Proof.
  unfold refreshToken, clearToken. plumb.
  destruct (isRefreshingToken s); intros [= <- _] s1 own n s'' H.
  - apply carriedFrom_switchMap in H.
    destruct H as (m & s2 & own1 & own2 & -> & Hsource & H).
    apply carriedFrom_settled in Hsource. destruct Hsource as (-> & -> & ->).
    exists []. split; [| left; reflexivity].
    revert H. plumb. destruct (refreshTokenSubject s1); intros H;
      apply carriedFrom_settled in H; destruct H as (-> & _); reflexivity.
  - apply carriedFrom_login in H. destruct H as (-> & _).
    exists [loginCall]. split; [reflexivity | right; do 2 eexists; reflexivity].
Qed.

(** A subscription to what [ensureAuthenticated] returned: it issues at
    most a [login], and its error has no status. *)
Lemma carriedFrom_ensureAuthenticated (s s0 : Service) (auth : Observable value) :
  ensureAuthenticated s = (inr auth, s0) ->
  forall s1 own n s'',
    Rx.carriedFrom auth s1 own n s'' ->
    (exists calls, own = List.map Some calls /\ upToOne Login calls) /\
    forall e, n = Error e -> unauthorized e = false.
Proof.
  unfold ensureAuthenticated, mbind at 1. rewrite isTokenStillValid_eq.
  destruct (validNow s).
  { plumb. intros [= <- _] s1 own n s'' H.
    apply carriedFrom_settled in H. destruct H as (-> & -> & _).
    split; [exists []; split; [reflexivity | left; reflexivity] | discriminate]. }
  unfold refreshToken, clearToken. plumb.
  destruct (isRefreshingToken (afterValidityCheck s)) eqn:Hflag;
    cbv beta iota; rewrite ?Hflag; cbv beta iota; intros [= <- _] s1 own n s'' H.
  - apply carriedFrom_switchMap in H.
    destruct H as (m & s2 & own1 & own2 & -> & Hsource & H).
    apply carriedFrom_settled in Hsource. destruct Hsource as (-> & -> & ->).
    assert (Hend : own2 = [] /\ forall e, n = Error e -> unauthorized e = false).
    { revert H. destruct (refreshTokenSubject s1).
      - rewrite isTokenStillValid_eq. destruct (validNow s1); intros H;
          apply carriedFrom_settled in H; destruct H as (-> & -> & _);
          (split; [reflexivity |]); [discriminate | intros e [= <-]; reflexivity].
      - intros H. apply carriedFrom_settled in H. destruct H as (-> & -> & _).
        split; [reflexivity |]. intros e [= <-]. reflexivity. }
    destruct Hend as [-> Hplain]. split; [| exact Hplain].
    exists []. split; [reflexivity | left; reflexivity].
  - apply carriedFrom_map in H. destruct H as (m & s2 & Hlogin & Hn).
    apply carriedFrom_login in Hlogin. destruct Hlogin as (-> & Hplain).
    split; [exists [loginCall]; split; [reflexivity | right; do 2 eexists; reflexivity] |].
    intros e ->. destruct m as [response | e0]; [discriminate |].
    injection Hn as -> _. apply Hplain. reflexivity.
Qed.

(** One subscription to the wrapped request issues at most a [login], the
    request, a [login] and the request, whatever happens while it
    waits. *)
Lemma carriedFrom_wrapped {T} (requestFn : M (Observable T)) (ep : Endpoint)
  (s s0 : Service) (wrapped : Observable T) :
  (forall s1 o s2, requestFn s1 = (inr o, s2) ->
     forall own n s'', Rx.carriedFrom o s2 own n s'' ->
       exists calls, own = List.map Some calls /\ upToOne ep calls) ->
  makeAuthenticatedRequest requestFn s = (inr wrapped, s0) ->
  forall s1 own n s'',
    Rx.carriedFrom wrapped s1 own n s'' ->
    exists a r1 f r2,
      own = List.map Some (a ++ r1 ++ f ++ r2)%list /\
      upToOne Login a /\ upToOne ep r1 /\ upToOne Login f /\ upToOne ep r2.
Proof.
  intros Hrequest. unfold makeAuthenticatedRequest, mbind at 1.
  destruct (ensureAuthenticated s) as [[e | auth] s'] eqn:Hauth; [discriminate |].
  unfold mret at 1, ret at 1. intros [= <- <-] s1 own n s'' H.
  assert (Hnone : forall ep0, upToOne ep0 []) by (intros ep0; left; reflexivity).
  assert (Hinner : forall (source : Observable value) s2 own0 (m : Notification T) s3,
            Rx.carriedFrom (Rx.switchMap (fun _ => requestFn) source) s2 own0 m s3 ->
            exists own1 r (m0 : Notification value) s4,
              own0 = (own1 ++ List.map Some r)%list /\
              Rx.carriedFrom source s2 own1 m0 s4 /\ upToOne ep r /\
              match m0 with
              | Next _ => True
              | Error e => r = [] /\ m = Error e
              end).
  { intros source s2 own0 m s3 Hrun. apply carriedFrom_switchMap in Hrun.
    destruct Hrun as (m0 & s4 & own1 & own2 & -> & Hsource & Hrun).
    destruct m0 as [v | e].
    - destruct (requestFn s4) as [[e | o] s5] eqn:Hcall.
      + destruct Hrun as (-> & _). exists own1, [], (Next v), s4. auto.
      + destruct (Hrequest _ _ _ Hcall _ _ _ Hrun) as (r & -> & Hr).
        exists own1, r, (Next v), s4. auto.
    - destruct Hrun as (-> & -> & _). exists own1, [], (Error e), s4. auto. }
  apply carriedFrom_catchError in H.
  destruct H as (m & s2 & own1 & own2 & -> & Hfirst & H).
  apply Hinner in Hfirst.
  destruct Hfirst as (ownA & r1 & mA & sA & -> & HrunA & Hr1 & HmA).
  destruct (carriedFrom_ensureAuthenticated _ _ _ Hauth _ _ _ _ HrunA)
    as [(a & -> & Ha) Hplain].
  assert (Hsecond : exists f r2,
            own2 = List.map Some (f ++ r2)%list /\ upToOne Login f /\ upToOne ep r2).
  { destruct m as [t | e].
    { destruct H as (-> & _). exists [], []. auto. }
    assert (Hstatus : mA = Error e -> unauthorized e = false).
    { intros ->. apply Hplain. reflexivity. }
    revert H. plumb. fold (unauthorized e).
    destruct mA as [v | eA].
    - clear Hstatus. destruct (unauthorized e && negb (isRefreshingToken s2)).
      + destruct (refreshToken s2) as [[e' | refreshed] s3] eqn:Hrefresh.
        { intros (-> & _). exists [], []. auto. }
        intros H.
        apply carriedFrom_catchError in H.
        destruct H as (m' & s4 & own3 & own4 & -> & Hretry & H).
        apply Hinner in Hretry.
        destruct Hretry as (ownF & r2 & mF & sF & -> & HrunF & Hr2 & _).
        destruct (carriedFrom_refreshToken _ _ _ Hrefresh _ _ _ _ HrunF) as (f & -> & Hf).
        assert (Hlast : own4 = []).
        { destruct m' as [t | e']; [destruct H as (-> & _); reflexivity |].
          apply carriedFrom_settled in H.
          destruct H as (-> & _). reflexivity. }
        subst own4. exists f, r2. rewrite app_nil_r, List.map_app. auto.
      + intros H. apply carriedFrom_settled in H. destruct H as (-> & _).
        exists [], []. auto.
    - destruct HmA as (_ & [= <-]). rewrite (Hstatus eq_refl). cbn [andb].
      intros H. apply carriedFrom_settled in H. destruct H as (-> & _).
      exists [], []. auto. }
  destruct Hsecond as (f & r2 & -> & Hf & Hr2).
  exists a, r1, f, r2. rewrite !List.map_app, <- !app_assoc. auto.
Qed.

Lemma parts_count (ep : Endpoint) (p : HttpCall -> bool) (part : list HttpCall) :
  (exists a r1 f r2,
     part = (a ++ r1 ++ f ++ r2)%list /\
     upToOne Login a /\ upToOne ep r1 /\ upToOne Login f /\ upToOne ep r2) ->
  (forall auth sent,
     p {| endpoint := Login; authorized := auth; body := sent |} = false) \/
  (forall auth sent,
     p {| endpoint := ep; authorized := auth; body := sent |} = false) ->
  (List.length (filter p part) <= 2)%nat.
Proof.
  intros (a & r1 & f & r2 & -> & Ha & Hr1 & Hf & Hr2) Hp.
  rewrite !filter_app, !length_app.
  assert (Hone : forall e cs, upToOne e cs -> (List.length (filter p cs) <= 1)%nat).
  { intros e cs [-> | (auth & sent & ->)]; simpl; [lia |].
    destruct (p _); simpl; lia. }
  assert (Hzero : forall e cs,
            (forall auth sent,
               p {| endpoint := e; authorized := auth; body := sent |} = false) ->
            upToOne e cs -> List.length (filter p cs) = 0%nat).
  { intros e cs He [-> | (auth & sent & ->)]; simpl; [reflexivity |].
    rewrite He. reflexivity. }
  pose proof (Hone _ _ Ha). pose proof (Hone _ _ Hr1).
  pose proof (Hone _ _ Hf). pose proof (Hone _ _ Hr2).
  destruct Hp as [Hp | Hp].
  - rewrite (Hzero _ _ Hp Ha), (Hzero _ _ Hp Hf). lia.
  - rewrite (Hzero _ _ Hp Hr1), (Hzero _ _ Hp Hr2). lia.
Qed.

Lemma parts_kind (ep : Endpoint) (p : HttpCall -> bool) (part : list HttpCall) :
  (exists a r1 f r2,
     part = (a ++ r1 ++ f ++ r2)%list /\
     upToOne Login a /\ upToOne ep r1 /\ upToOne Login f /\ upToOne ep r2) ->
  (forall auth sent,
     p {| endpoint := Login; authorized := auth; body := sent |} = true) ->
  (forall auth sent,
     p {| endpoint := ep; authorized := auth; body := sent |} = true) ->
  forallb p part = true.
Proof.
  intros (a & r1 & f & r2 & -> & Ha & Hr1 & Hf & Hr2) Hlogin Hep.
  rewrite !forallb_app.
  assert (Hall : forall e cs,
            (forall auth sent,
               p {| endpoint := e; authorized := auth; body := sent |} = true) ->
            upToOne e cs -> forallb p cs = true).
  { intros e cs He [-> | (auth & sent & ->)]; simpl; [reflexivity |].
    rewrite He. reflexivity. }
  rewrite (Hall _ _ Hlogin Ha), (Hall _ _ Hep Hr1), (Hall _ _ Hlogin Hf), (Hall _ _ Hep Hr2).
  reflexivity.
Qed.

(** The request of an order or of a listing: one request, when the
    observable is subscribed to. *)
Lemma carriedFrom_request {A} (ep : Endpoint) (sent : option value) (auth : bool)
  (f : value -> M A) (s : Service) own (n : Notification A) s'' :
  Rx.carriedFrom (Rx.map f (httpRequest ep sent auth false)) s own n s'' ->
  exists calls, own = List.map Some calls /\ upToOne ep calls.
Proof.
  intros H. apply carriedFrom_map in H. destruct H as (m & s1 & H & _).
  apply carriedFrom_httpRequest in H. destruct H as (-> & _).
  eexists [_]. split; [reflexivity |]. right. do 2 eexists. reflexivity.
Qed.

Lemma carriedFrom_orderRequest (orderData : Order) (s1 : Service)
  (o : Observable OrderResponse) (s2 : Service) :
  orderRequest orderData s1 = (inr o, s2) ->
  forall own n s'', Rx.carriedFrom o s2 own n s'' ->
    exists calls, own = List.map Some calls /\ upToOne ClientOrderInsert calls.
Proof.
  unfold orderRequest, mbind at 1.
  destruct (transformToHesburgerFormat orderData s1) as [[e | sent] s3]; [discriminate |].
  unfold mbind at 1. destruct (httpOptions s3) as [[e | auth] s4]; [discriminate |].
  unfold mret, ret. intros [= <- <-] own n s''. apply carriedFrom_request.
Qed.

Lemma carriedFrom_listingRequest (uidOf : option string) (f : value -> M (list Product))
  (s1 : Service) (o : Observable (list Product)) (s2 : Service) :
  (auth <- httpOptions;;
   mret (Rx.map f (httpRequest (FindSellingProducts uidOf) None auth false)))%m s1 =
    (inr o, s2) ->
  forall own n s'', Rx.carriedFrom o s2 own n s'' ->
    exists calls, own = List.map Some calls /\ upToOne (FindSellingProducts uidOf) calls.
Proof.
  unfold mbind at 1. destruct (httpOptions s1) as [[e | auth] s3]; [discriminate |].
  unfold mret, ret. intros [= <- <-] own n s''. apply carriedFrom_request.
Qed.

(** What a subscription to a listing issues: the wrapped request,
    subscribed to once and, after an error, once more. *)
Lemma carriedFrom_listing (requestFn : M (Observable (list Product))) (ep : Endpoint)
  (s s0 : Service) (o : Observable (list Product)) :
  (forall s1 o s2, requestFn s1 = (inr o, s2) ->
     forall own n s'', Rx.carriedFrom o s2 own n s'' ->
       exists calls, own = List.map Some calls /\ upToOne ep calls) ->
  (wrapped <- makeAuthenticatedRequest requestFn;;
   mret (Rx.catchError (fun _ => mret (Rx.of_ [])) (Rx.retry wrapped)))%m s = (inr o, s0) ->
  forall s1 own n s'',
    Rx.carriedFrom o s1 own n s'' ->
    (exists products, n = Next products) /\
    exists first second,
      own = List.map Some (first ++ second)%list /\
      (forall part, part = first \/ part = second ->
         exists a r1 f r2,
           part = (a ++ r1 ++ f ++ r2)%list /\
           upToOne Login a /\ upToOne ep r1 /\ upToOne Login f /\ upToOne ep r2).
Proof.
  intros Hrequest. unfold mbind at 1.
  destruct (makeAuthenticatedRequest requestFn s) as [[e | wrapped] s'] eqn:Hcall;
    [discriminate |].
  unfold mret at 1, ret at 1. intros [= <- <-] s1 own n s'' H.
  pose proof (carriedFrom_wrapped requestFn ep s s' wrapped Hrequest Hcall) as Hwrapped.
  assert (Hnone : exists a r1 f r2 : list HttpCall,
            [] = (a ++ r1 ++ f ++ r2)%list /\
            upToOne Login a /\ upToOne ep r1 /\ upToOne Login f /\ upToOne ep r2).
  { exists [], [], [], []. repeat split; left; reflexivity. }
  apply carriedFrom_catchError in H.
  destruct H as (m & s2 & own1 & own2 & -> & Hattempts & H).
  apply carriedFrom_retry in Hattempts.
  destruct Hattempts as (m1 & s3 & own3 & own4 & -> & Hfirst & Hagain).
  destruct (Hwrapped _ _ _ _ Hfirst) as (a & r1 & f & r2 & -> & Hparts).
  assert (Hlast : own2 = [] /\ exists products, n = Next products).
  { destruct m as [products | e].
    - destruct H as (-> & -> & _). eauto.
    - revert H. plumb. intros H. apply carriedFrom_settled in H.
      destruct H as (-> & -> & _). eauto. }
  destruct Hlast as [-> Hn]. split; [exact Hn |]. rewrite app_nil_r.
  destruct m1 as [products | e].
  - destruct Hagain as (-> & _). exists (a ++ r1 ++ f ++ r2)%list, [].
    split; [rewrite !app_nil_r; reflexivity |].
    intros part [-> | ->]; [| exact Hnone]. exists a, r1, f, r2. auto.
  - destruct (Hwrapped _ _ _ _ Hagain) as (a' & r1' & f' & r2' & -> & Hparts').
    exists (a ++ r1 ++ f ++ r2)%list, (a' ++ r1' ++ f' ++ r2')%list.
    split; [rewrite <- List.map_app; reflexivity |].
    intros part [-> | ->]; [exists a, r1, f, r2 | exists a', r1', f', r2']; auto.
Qed.



End OwnRequests.

Section SelfTest.

Context {env : Env}.

(** ** The self-test of a login *)

(** X28: the self-test that a successful [login] schedules sends one
    request for the categories.  When that request is refused with status
    401 and no refresh is in flight, the service drops its token and sends
    a [login] request; when this [login] succeeds, another self-test is
    scheduled.  So with a backend that accepts the login and refuses the
    categories request with 401, a self-test ends in a [login] and in
    another self-test. *)
Theorem selfTest_refused_logs_in_again (s : Service) (x y : Exchange) (text : string)
  (response : value) (token : string) :
  hasToken (authToken s) = true ->
  isRefreshingToken s = false ->
  outcome x = inl (401, text) ->
  late y = false ->
  outcome y = inr response ->
  extractTokenFromResponse response = Some token ->
  let fired := selfTestFires {| service := s; subscriptions := [] |} in
  let refused := answer (List.length (httpCalls s)) x fired in
  let renewed := answer (S (List.length (httpCalls s))) y refused in
  httpCalls (service fired) =
    (httpCalls s ++
     [{| endpoint := ProductCategoryFindMany; authorized := validNow s; body := None |}])%list /\
  selfTests (service fired) = Nat.pred (selfTests s) /\
  received fired = [None] /\
  httpCalls (service refused) = (httpCalls (service fired) ++ [loginCall])%list /\
  authToken (service refused) = None /\
  isRefreshingToken (service refused) = true /\
  received refused = [None] /\
  httpCalls (service renewed) = httpCalls (service refused) /\
  authToken (service renewed) = Some (Str.trim (Str.stripBearer token)) /\
  isRefreshingToken (service renewed) = false /\
  selfTests (service renewed) = S (Nat.pred (selfTests s)) /\
  received renewed = [Some (Next response)].
Proof.
  intros Htoken Hflag Hx Hlate Hy Hfound. cbv zeta.
  destruct x as [xlate xout], y as [ylate yout]. cbn [late outcome] in Hx, Hlate, Hy.
  subst xout ylate yout.
  destruct s as [tok expiry flag subject cart stored storedC events calls reads randoms tests].
  cbn [authToken isRefreshingToken httpCalls selfTests] in *. subst flag.
  unfold selfTestFires, httpOptions, answer, received, validNow.
  repeat progress
    (rewrite ?Htoken, ?Nat.eqb_refl, ?Hfound, ?length_app, ?Nat.add_1_r;
     cbn -[extractTokenFromResponse Str.trim Str.stripBearer clock Str.of_Z Nat.eqb Z.ltb
            List.length hasToken Z.add Z.mul]).
  repeat split.
Qed.

End SelfTest.

(** * More instances *)

Section MoreQuietScenarios.

#[local] Existing Instance quietEnv.

(** Removing the id 7 from a cart that holds the id 5 alone. *)
Lemma removeFromCart_no_match_witness :
  find (hasId 7%float) (cartSubject cartAfterFirstAdd) = None /\
  cartSubject (snd (removeFromCart 7%float cartAfterFirstAdd)) =
    cartSubject cartAfterFirstAdd /\
  storedCart (snd (removeFromCart 7%float cartAfterFirstAdd)) =
    Some (cartSubject cartAfterFirstAdd).
Proof.
  split; [reflexivity |].
  destruct (removeFromCart_no_match 7%float cartAfterFirstAdd eq_refl) as (H1 & _ & H3 & _).
  split; [exact H1 | exact H3].
Defined.

(** Setting the quantity of the line of id 5 to 4. *)
Lemma updateCartQuantity_sets_witness :
  List.map (fun item => (id (asProduct item), quantity item))
           (cartSubject (snd (updateCartQuantity 5%float 4%float twoLineCart))) =
    [(VNum 5, 4%float); (VNum 6, 1%float)] /\
  exists line,
    find (hasId 5%float) (cartSubject (snd (updateCartQuantity 5%float 4%float twoLineCart)))
      = Some line /\ quantity line = 4%float.
Proof.
  destruct (updateCartQuantity_sets 5%float 4%float twoLineCart _ eq_refl eq_refl)
    as (before & after & _ & _ & _ & Hfind & _).
  split; [vm_compute; reflexivity |].
  eexists. split; [exact Hfind | reflexivity].
Defined.

(** Setting the quantity of the line of id 5 to 0 removes it. *)
Lemma updateCartQuantity_floor_witness :
  updateCartQuantity 5%float 0%float twoLineCart = removeFromCart 5%float twoLineCart /\
  find (hasId 5%float) (cartSubject (snd (updateCartQuantity 5%float 0%float twoLineCart)))
    = None.
Proof.
  exact (updateCartQuantity_floor 5%float 0%float twoLineCart _ eq_refl eq_refl).
Defined.

Lemma cart_ids_stay_distinct_witness :
  distinctIds (cartSubject twoLineCart) /\
  distinctIds (cartSubject (snd (addToCart (bareProduct 6 4) 2%float twoLineCart))) /\
  distinctIds (cartSubject (snd (removeFromCart 5%float twoLineCart))).
Proof.
  assert (H : distinctIds (cartSubject twoLineCart)) by (repeat split).
  split; [exact H |].
  destruct (cart_ids_stay_distinct twoLineCart H) as (Hadd & Hremove & _).
  split; [apply Hadd | apply Hremove].
Defined.

Lemma cart_storage_in_step_witness :
  inStep newService /\
  inStep (snd (addToCart (bareProduct 5 10) 2%float newService)) /\
  inStep (snd (clearCart newService)).
Proof.
  assert (H : inStep newService) by (right; split; reflexivity).
  split; [exact H |].
  destruct (cart_storage_in_step newService H) as (Hadd & _ & _ & Hclear).
  split; [apply Hadd | exact Hclear].
Defined.

(** Adding one product of id 6 and price 4 to the cart of 2 of id 5 and
    price 10. *)
Lemma addToCart_new_line_witness :
  getCartItemCount twoLineCart = (2 + 1)%float /\
  getCartTotal twoLineCart = (20 + 4 * 1)%float.
Proof.
  destruct (addToCart_new_line (bareProduct 6 4) 1%float cartAfterFirstAdd eq_refl)
    as (_ & Hcount & Htotal).
  split; [exact Hcount | exact Htotal].
Defined.

(** The timer ticks on a token that is valid for a minute more; two
    callers arrive before the [login] is answered. *)
Lemma autoRefresh_blocks_callers_witness :
  validNow nearExpiryService = true /\
  received (arrivals 2 (autoRefreshTick {| service := nearExpiryService;
                                           subscriptions := [] |})) =
    [None; Some (Error refreshFailed); Some (Error refreshFailed)].
Proof.
  split; [reflexivity |].
  destruct (autoRefresh_blocks_callers nearExpiryService [] 2 eq_refl) as (_ & _ & _ & H1 & H2).
  - vm_compute. discriminate.
  - reflexivity.
  - rewrite H2, H1. reflexivity.
Defined.

Lemma processProducts_keeps_available_witness :
  exists products s',
    processProducts (VArr [colaPayload; soldOutPayload]) newService = (inr products, s') /\
    List.map rawApiData products = [colaPayload].
Proof.
  destruct (processProducts (VArr [colaPayload; soldOutPayload]) newService)
    as [[e | products] s'] eqn:Hrun; [vm_compute in Hrun; discriminate Hrun |].
  exists products, s'. split; [reflexivity |].
  exact (proj1 (processProducts_keeps_available _ _ _ _ Hrun)).
Defined.

Lemma estimatePreparationTime_bounds_witness :
  exists k, 1 <= k <= 19 /\ 1%float = Num.of_Z k.
Proof.
  exact (estimatePreparationTime_bounds colaPayload 1%float eq_refl).
Defined.

Lemma extractAllergens_vocabulary_witness :
  subsequenceOf ["Lactose"; "Gluten"] allergenTags = true /\
  NoDup ["Lactose"; "Gluten"].
Proof.
  exact (extractAllergens_vocabulary soldOutPayload ["Lactose"; "Gluten"] eq_refl).
Defined.

Lemma generateImageUrlEnhanced_address_witness :
  Str.startsWith "https://example.org/fries.png" "http" = true \/
  Str.startsWith "https://example.org/fries.png" "data:image/" = true.
Proof.
  exact (generateImageUrlEnhanced_address picturedPayload newService newService
           "https://example.org/fries.png" eq_refl).
Defined.

(** An order that cannot be sent, with a valid token: no request at
    all. *)
Lemma createOrder_unsendable_witness :
  exists r s' calls,
    invoke (createOrder unsendableOrder) validTokenService = (Next r, s') /\
    isOffline r = Some true /\
    httpCalls s' = (httpCalls validTokenService ++ calls)%list /\
    upToOne Login calls.
Proof.
  exact (createOrder_unsendable unsendableOrder validTokenService eq_refl).
Defined.

Lemma processCategoriesWithProducts_sound_witness :
  exists made s',
    processCategoriesWithProducts (VArr [drinksCategory; emptyCategory])
      (VArr [colaPayload; soldOutPayload]) newService = (inr made, s') /\
    List.map (fun c => (cwp_uid c, List.map rawApiData (cwp_products c))) made =
      [(VStr "c1", [colaPayload])] /\
    Forall (fun c => cwp_products c <> []) made.
Proof.
  destruct (processCategoriesWithProducts (VArr [drinksCategory; emptyCategory])
              (VArr [colaPayload; soldOutPayload]) newService)
    as [[e | made] s'] eqn:Hrun; [vm_compute in Hrun; discriminate Hrun |].
  exists made, s'. split; [reflexivity |].
  split; [vm_compute in Hrun; injection Hrun as <- _; vm_compute; reflexivity |].
  eapply Forall_impl; [| exact (processCategoriesWithProducts_sound _ _ _ _ _ Hrun)].
  intros c H. exact (proj1 H).
Defined.

(** A payload of no category is matched by a category with no [id]. *)
Lemma categoryProductsOf_undefined_ids_witness :
  categoryProductsOf unnumberedCategory (VArr [picturedPayload]) = inr [picturedPayload].
Proof.
  exact (categoryProductsOf_undefined_ids unnumberedCategory [picturedPayload]
           eq_refl eq_refl eq_refl).
Defined.

Lemma duplicateOrder_doubles_witness :
  List.map (fun item => (id (asProduct item), quantity item))
           (cartSubject (snd (duplicateOrder (cartSubject twoLineCart) true twoLineCart))) =
    [(VNum 5, 4%float); (VNum 6, 2%float)].
Proof.
  rewrite (proj1 (duplicateOrder_doubles twoLineCart
                    (conj eq_refl (conj eq_refl I)) eq_refl)).
  reflexivity.
Defined.



(** One self-test pending: the categories request is refused with 401,
    the [login] that follows is answered with a token, and one self-test
    is pending again. *)
Lemma selfTest_refused_logs_in_again_witness :
  let fired := selfTestFires {| service := selfTestPendingService; subscriptions := [] |} in
  let renewed := answer 1 (responded tokenResponse) (answer 0 (refused 401) fired) in
  selfTests selfTestPendingService = 1%nat /\
  selfTests (service fired) = 0%nat /\
  httpCalls (service renewed) =
    [{| endpoint := ProductCategoryFindMany; authorized := true; body := None |};
     loginCall] /\
  selfTests (service renewed) = 1%nat.
Proof.
  destruct (selfTest_refused_logs_in_again selfTestPendingService
              (refused 401) (responded tokenResponse) EmptyString tokenResponse
              "abcdefghijklmnop" eq_refl eq_refl eq_refl eq_refl eq_refl eq_refl)
    as (Hfired & Htests & _ & Hrefused & _ & _ & _ & Hrenewed & _ & _ & Hagain & _).
  cbv zeta. split; [reflexivity |]. split; [exact Htests |].
  split; [| exact Hagain].
  change (List.length (httpCalls selfTestPendingService)) with 0%nat in Hrenewed, Hrefused.
  rewrite Hrenewed, Hrefused, Hfired. reflexivity.
Defined.

End MoreQuietScenarios.

Section WrappedListingScenario.

#[local] Existing Instance wrappedListingEnv.

(** The listing of a category answered with the products inside
    [payload.records]: no product is delivered. *)
Lemma getProductsByCategory_needs_array_witness :
  exists s', invoke (getProductsByCategory "c1") validTokenService = (Next [], s').
Proof.
  destruct (getProductsByCategory_needs_array "c1" validTokenService colaListing)
    as (s' & auth & Hrun & _); try reflexivity.
  exists s'. exact Hrun.
Defined.

End WrappedListingScenario.
